(** * pmda: the ETM training driver and the corpus preprocessing

    A shallow embedding of [src/main_ETM.py] (the epoch loop with
    checkpoint selection and learning-rate annealing) and of
    [src/preprocessing.py] (vocabulary, train/test/validation split,
    removal of empty documents, test halves, bag-of-words artifacts),
    followed by the properties the specification states about them. *)

From Stdlib Require Import ZArith QArith Qround List Ascii String Lia Lqa.
From Stdlib Require Import Sorted.
From stdpp Require Import gmap strings list.
Import ListNotations.

Local Open Scope Z_scope.

(** ** Python floats

    Comparisons are the IEEE ones: every comparison with a NaN is false.
    A finite double is the rational it denotes. The quotient of the
    learning rate is kept exact; the products of [preprocessing], whose
    floors decide the sizes of the sets, are rounded as the environment
    says. Comparisons, which is what the control flow of the programs
    depends on, are exact. *)
Module Py.

Inductive pyfloat : Type :=
| Fin (q : Q)
| PInf
| NInf
| NaN.

Inductive exn : Type :=
| ValueError
| ZeroDivisionError
| IndexError
| KeyError
| TypeError
| FileNotFoundError
| OverflowError
| FileExistsError
| OSError.

Definition Qltb (x y : Q) : bool := negb (Qle_bool y x).

(** [a < b] *)
Definition flt (a b : pyfloat) : bool :=
  match a, b with
  | NaN, _ | _, NaN => false
  | Fin x, Fin y => Qltb x y
  | Fin _, PInf => true
  | Fin _, NInf => false
  | PInf, _ => false
  | NInf, NInf => false
  | NInf, _ => true
  end.

(** [a > b] *)
Definition fgt (a b : pyfloat) : bool := flt b a.

(** [a <= b] *)
Definition fle (a b : pyfloat) : bool :=
  match a, b with
  | NaN, _ | _, NaN => false
  | Fin x, Fin y => Qle_bool x y
  | Fin _, PInf => true
  | Fin _, NInf => false
  | PInf, PInf => true
  | PInf, _ => false
  | NInf, _ => true
  end.

(** [a >= b] *)
Definition fge (a b : pyfloat) : bool := fle b a.

(** [a / b] on Python floats: a zero divisor raises, whatever the
    numerator is. *)
Definition fdiv (a b : pyfloat) : exn + pyfloat :=
  match b with
  | Fin y =>
      if Qeq_bool y 0 then inl ZeroDivisionError
      else match a with
           | Fin x => inr (Fin (x / y))
           | PInf => inr (if Qltb 0 y then PInf else NInf)
           | NInf => inr (if Qltb 0 y then NInf else PInf)
           | NaN => inr NaN
           end
  | NaN => inr NaN
  | PInf | NInf =>
      match a with
      | Fin _ => inr (Fin 0)
      | _ => inr NaN
      end
  end.

(** The built-in [min] of a list: the first element is the candidate and
    a later element replaces it when it compares smaller; the empty list
    raises [ValueError]. *)
Definition py_min (l : list pyfloat) : exn + pyfloat :=
  match l with
  | [] => inl ValueError
  | x :: r => inr (fold_left (fun m y => if flt y m then y else m) r x)
  end.

(** The slice [l[:stop]]: a negative [stop] counts from the end. *)
Definition py_slice_to {A} (l : list A) (stop : Z) : list A :=
  let n := Z.of_nat (length l) in
  let stop' := if stop <? 0 then Z.max 0 (stop + n) else Z.min stop n in
  firstn (Z.to_nat stop') l.

(** [range(0, n)] *)
Definition py_range (n : Z) : list Z := map Z.of_nat (seq 0 (Z.to_nat n)).

(** [l[i]] on a list or an array: a negative index counts from the end,
    anything outside [-len, len) raises [IndexError]. *)
Definition py_index {A} (l : list A) (i : Z) : exn + A :=
  let n := Z.of_nat (length l) in
  let j := if i <? 0 then i + n else i in
  if (0 <=? j) && (j <? n) then
    match l !! Z.to_nat j with
    | Some x => inr x
    | None => inl IndexError
    end
  else inl IndexError.

(** Computations over a state [S] that may raise. *)
Definition SE (S A : Type) : Type := S -> (exn + A) * S.

Definition ret {S A} (x : A) : SE S A := fun s => (inr x, s).
Definition bind {S A B} (m : SE S A) (k : A -> SE S B) : SE S B :=
  fun s => match m s with
           | (inr x, s') => k x s'
           | (inl e, s') => (inl e, s')
           end.
Definition raise {S A} (e : exn) : SE S A := fun s => (inl e, s).
Definition get {S} : SE S S := fun s => (inr s, s).
Definition lift {S A} (r : exn + A) : SE S A := fun s => (r, s).

Notation "x <- m ;; k" := (bind m (fun x => k))
  (at level 100, m at next level, right associativity).
Notation "m ;; k" := (bind m (fun _ => k))
  (at level 100, right associativity).

Fixpoint for_each {S A} (l : list A) (body : A -> SE S unit) : SE S unit :=
  match l with
  | [] => ret tt
  | x :: r => body x ;; for_each r body
  end.

(** A comprehension whose element expression may raise. *)
Fixpoint mapE {A B} (f : A -> exn + B) (l : list A) : exn + list B :=
  match l with
  | [] => inr []
  | x :: r =>
      match f x with
      | inl e => inl e
      | inr y => match mapE f r with
                 | inl e => inl e
                 | inr ys => inr (y :: ys)
                 end
      end
  end.

(** [dict(pairs)]: a later pair with the same key replaces an earlier
    one. *)
Definition py_dict `{Countable K} {V} (pairs : list (K * V)) : gmap K V :=
  fold_left (fun m kv => <[kv.1 := kv.2]> m) pairs ∅.

(** [d[k]] *)
Definition py_getitem `{Countable K} {V} (d : gmap K V) (k : K) : exn + V :=
  match d !! k with
  | Some v => inr v
  | None => inl KeyError
  end.

(** [enumerate(l)] *)
Definition enumerate {A} (l : list A) : list (nat * A) := imap pair l.

(** A property of the state that a computation cannot break, whether it
    returns or raises. *)
Definition preserves {S A} (P : S -> Prop) (m : SE S A) : Prop :=
  forall s, P s -> P (snd (m s)).

End Py.

(** ** [main_ETM]: the training and evaluation driver *)
Module MainETM.
Import Py.

(** The arguments of [main_ETM] that its control flow reads. *)
Record args : Type := {
  save_path : string;
  model_file : string;
  load_from : string;
  mode : string;
  lr : pyfloat;
  lr_factor : pyfloat;
  epochs : Z;
  nonmono : Z;
  anneal_lr : Z;
  visualize_every : Z;
  train_embeddings : Z;
  tc : Z;
  td : Z }.

(** What the driver does to the model object, the optimizer and the
    disk, in program order. *)
Inductive event : Type :=
| EvMakeDirs (path : string)
| EvTrainForEpoch (epoch : Z)
| EvEvaluate (source : string) (tc td : Z)
| EvSave (path : string) (epoch : Z)
| EvSetLR (new_lr : pyfloat)
| EvVisualize (epoch : Z)
| EvLoad (path : string)
| EvMostUsedTopics
| EvShowTopics
| EvTopicCoherence
| EvTopicDiversity
| EvSaveParameters (path : string)
| EvNearestNeighbors.

(** The local variables of the train branch, the learning rate held by
    the optimizer ([optimizer.param_groups[0]['lr']]), the paths that
    exist on disk, and the trace of events so far. *)
Record state : Type := {
  best_epoch : Z;
  best_val_ppl : pyfloat;
  all_val_ppls : list pyfloat;
  opt_lr : pyfloat;
  fs : gset string;
  trace : list event }.

Definition M : Type -> Type := SE state.

Definition emit (ev : event) : M unit := fun s =>
  (inr tt, {| best_epoch := best_epoch s; best_val_ppl := best_val_ppl s;
              all_val_ppls := all_val_ppls s; opt_lr := opt_lr s;
              fs := fs s; trace := trace s ++ [ev] |}).

Definition set_best (epoch : Z) (v : pyfloat) : M unit := fun s =>
  (inr tt, {| best_epoch := epoch; best_val_ppl := v;
              all_val_ppls := all_val_ppls s; opt_lr := opt_lr s;
              fs := fs s; trace := trace s |}).

(** The constants [1e9] and [1e-5]. *)
Definition sentinel : pyfloat := Fin 1000000000.
Definition lr_floor : pyfloat := Fin (1 # 100000).

(** Lines 133 to 135: [best_epoch = 0], [best_val_ppl = 1e9],
    [all_val_ppls = []]. *)
Definition start_training : M unit := fun s =>
  (inr tt, {| best_epoch := 0; best_val_ppl := sentinel;
              all_val_ppls := []; opt_lr := opt_lr s;
              fs := fs s; trace := trace s |}).

Definition set_lr (v : pyfloat) : M unit := fun s =>
  (inr tt, {| best_epoch := best_epoch s; best_val_ppl := best_val_ppl s;
              all_val_ppls := all_val_ppls s; opt_lr := v;
              fs := fs s; trace := trace s ++ [EvSetLR v] |}).

Definition append_ppl (v : pyfloat) : M unit := fun s =>
  (inr tt, {| best_epoch := best_epoch s; best_val_ppl := best_val_ppl s;
              all_val_ppls := all_val_ppls s ++ [v]; opt_lr := opt_lr s;
              fs := fs s; trace := trace s |}).

(** [with open(path, 'wb') as f: torch.save(model, f)] *)
Definition write_file (ev : event) (path : string) : M unit := fun s =>
  (inr tt, {| best_epoch := best_epoch s; best_val_ppl := best_val_ppl s;
              all_val_ppls := all_val_ppls s; opt_lr := opt_lr s;
              fs := {[ path ]} ∪ fs s; trace := trace s ++ [ev] |}).

(** [with open(path, 'rb') as f: model = torch.load(f)] *)
Definition load_ckpt (path : string) : M unit := fun s =>
  if decide (path ∈ fs s) then emit (EvLoad path) s
  else (inl FileNotFoundError, s).

(** [Path.cwd().joinpath(save_path, model_file)], or [load_from] in
    eval mode. *)
Definition ckpt_path (a : args) : string :=
  if String.eqb (mode a) "eval" then load_from a
  else (save_path a ++ "/" ++ model_file a)%string.

(** [anneal_lr and (len(all_val_ppls) > nonmono and
     val_ppl > min(all_val_ppls[:-nonmono]) and lr > 1e-5)],
    evaluated left to right with short circuit. *)
Definition anneal_test (a : args) (val_ppl : pyfloat)
    (history : list pyfloat) (cur : pyfloat) : exn + bool :=
  if anneal_lr a =? 0 then inr false
  else if negb (nonmono a <? Z.of_nat (length history)) then inr false
  else match py_min (py_slice_to history (- nonmono a)) with
       | inl e => inl e
       | inr m => inr (fgt val_ppl m && fgt cur lr_floor)
       end.

(** [epoch > 0 and epoch % visualize_every == 0] *)
Definition visualize_test (a : args) (epoch : Z) : exn + bool :=
  if 0 <? epoch then
    if visualize_every a =? 0 then inl ZeroDivisionError
    else inr (epoch mod visualize_every a =? 0)
  else inr false.

(** One iteration of the epoch loop; [val_ppl] is what
    [model.evaluate] returned for this epoch. *)
Definition epoch_body (a : args) (val_ppl_of : Z -> pyfloat) (epoch : Z)
    : M unit :=
  emit (EvTrainForEpoch epoch) ;;
  emit (EvEvaluate "val" (tc a) (td a)) ;;
  let val_ppl := val_ppl_of epoch in
  s <- get ;;
  (if flt val_ppl (best_val_ppl s) then
     write_file (EvSave (ckpt_path a) epoch) (ckpt_path a) ;;
     set_best epoch val_ppl
   else
     let cur := opt_lr s in
     c <- lift (anneal_test a val_ppl (all_val_ppls s) cur) ;;
     if c : bool then
       new_lr <- lift (fdiv (opt_lr s) (lr_factor a)) ;;
       set_lr new_lr
     else ret tt) ;;
  v <- lift (visualize_test a epoch) ;;
  (if v : bool then emit (EvVisualize epoch) else ret tt) ;;
  append_ppl val_ppl.

(** Lines 133 to 154: the initialisation and the epoch loop. *)
Definition train_loop (a : args) (val_ppl_of : Z -> pyfloat) : M unit :=
  start_training ;;
  for_each (py_range (epochs a)) (epoch_body a val_ppl_of).

(** Lines 155 to 159: the best checkpoint is read back and scored. *)
Definition reload (a : args) : M unit :=
  load_ckpt (ckpt_path a) ;;
  emit (EvEvaluate "val" (tc a) (td a)).

Definition train_branch (a : args) (val_ppl_of : Z -> pyfloat) : M unit :=
  train_loop a val_ppl_of ;; reload a.

(** In the other branch the checkpoint is a [Path] unless the mode is
    ['eval'], and [ckpt + "_parameters.pt"] is defined on strings only. *)
Definition eval_branch (a : args) : M unit :=
  load_ckpt (ckpt_path a) ;;
  emit (EvEvaluate "val" 0 0) ;;
  emit EvMostUsedTopics ;;
  emit EvShowTopics ;;
  (if tc a =? 0 then ret tt else emit EvTopicCoherence) ;;
  (if td a =? 0 then ret tt else emit EvTopicDiversity) ;;
  (if String.eqb (mode a) "eval"
   then write_file (EvSaveParameters (ckpt_path a ++ "_parameters.pt")%string)
                   (ckpt_path a ++ "_parameters.pt")%string
   else raise TypeError) ;;
  (if train_embeddings a =? 0 then ret tt else emit EvNearestNeighbors).

(** Lines 115 and 116. *)
Definition define_checkpoint (a : args) : M unit :=
  s <- get ;;
  if decide (save_path a ∈ fs s) then ret tt
  else write_file (EvMakeDirs (save_path a)) (save_path a).

Definition main_ETM (a : args) (val_ppl_of : Z -> pyfloat) : M unit :=
  define_checkpoint a ;;
  if String.eqb (mode a) "train" then train_branch a val_ppl_of
  else eval_branch a.

(** The state in which [main_ETM] starts: the optimizer holds the
    learning rate it was built with and nothing has happened yet; the
    locals of the train branch get their values from [start_training]. *)
Definition init (a : args) (disk : gset string) : state :=
  {| best_epoch := 0; best_val_ppl := sentinel; all_val_ppls := [];
     opt_lr := lr a; fs := disk; trace := [] |}.

(** *** Vocabulary of the statements about the driver *)

Definition is_save (ev : event) : bool :=
  match ev with
  | EvSave _ _ => true
  | _ => false
  end.

Definition is_train (ev : event) : bool :=
  match ev with
  | EvTrainForEpoch _ => true
  | _ => false
  end.

(** A call of [model.evaluate] carries the label ['val']. *)
Definition evaluates_val (ev : event) : Prop :=
  match ev with
  | EvEvaluate source _ _ => source = "val"%string
  | _ => True
  end.

(** The history older than the patience window: all entries but the
    [nonmono] most recent ones. *)
Definition older_than_window (nonmono : Z) (history : list pyfloat)
    : list pyfloat :=
  firstn (length history - Z.to_nat nonmono) history.

(** The four conditions under which the specification anneals:
    annealing is enabled, at least [nonmono] epochs of history exist,
    the current perplexity exceeds the minimum of the history older than
    the patience window, and the learning rate exceeds the floor. *)
Definition spec_anneal (a : args) (val_ppl : pyfloat)
    (history : list pyfloat) (cur : pyfloat) : bool :=
  negb (anneal_lr a =? 0)
  && (nonmono a <=? Z.of_nat (length history))
  && match py_min (older_than_window (nonmono a) history) with
     | inr m => fgt val_ppl m
     | inl _ => false
     end
  && fgt cur lr_floor.

(** [v >= 1e9], or [v] is a NaN. *)
Definition not_below_sentinel (v : pyfloat) : Prop :=
  fge v sentinel = true \/ v = NaN.

(** [x] is [y] or lies below it, or the comparison is lost to a NaN:
    what a learning rate can become from [y] without ever increasing. *)
Definition descends (x y : pyfloat) : Prop :=
  x = y \/ x = NaN \/ fle x y = true.

(** Invariants of the run. *)
Definition labelled (s : state) : Prop := Forall evaluates_val (trace s).

Definition lr_from (lr0 : pyfloat) (s : state) : Prop :=
  descends (opt_lr s) lr0.

Definition unsaved (p : string) (e : Z) (s : state) : Prop :=
  fle (best_val_ppl s) sentinel = true /\ ~ In (EvSave p e) (trace s).

Definition nothing_saved (a : args) (existing : gset string) (s : state)
    : Prop :=
  fle (best_val_ppl s) sentinel = true
  /\ List.filter is_save (trace s) = []
  /\ (ckpt_path a ∈ fs s <-> ckpt_path a ∈ existing).

(** The driver up to the end of the epoch loop, from a fresh start. *)
Definition through_loop (a : args) (val_ppl_of : Z -> pyfloat)
    (existing : gset string) : (exn + unit) * state :=
  (define_checkpoint a ;; train_loop a val_ppl_of) (init a existing).

(** Runs used as examples. *)
Definition args_nonmono0 : args :=
  {| save_path := "out"; model_file := "m.pt"; load_from := "";
     mode := "train"; lr := Fin (5 # 1000); lr_factor := Fin 4;
     epochs := 2; nonmono := 0; anneal_lr := 1;
     visualize_every := 100000; train_embeddings := 0; tc := 0; td := 0 |}.

Definition ppl_rising (epoch : Z) : pyfloat :=
  Fin (inject_Z (100 * (epoch + 1))).

Definition args_small_factor : args :=
  {| save_path := "out"; model_file := "m.pt"; load_from := "";
     mode := "train"; lr := Fin (5 # 1000); lr_factor := Fin (1 # 2);
     epochs := 3; nonmono := 1; anneal_lr := 1;
     visualize_every := 100000; train_embeddings := 0; tc := 0; td := 0 |}.

Definition args_default : args :=
  {| save_path := "out"; model_file := "m.pt"; load_from := "";
     mode := "train"; lr := Fin (5 # 1000); lr_factor := Fin 4;
     epochs := 3; nonmono := 1; anneal_lr := 1;
     visualize_every := 100000; train_embeddings := 0; tc := 0; td := 0 |}.

Definition ppl_never_good (epoch : Z) : pyfloat :=
  if epoch =? 0 then Fin 2000000000 else NaN.

Definition args_eval : args :=
  {| save_path := "out"; model_file := "m.pt"; load_from := "out/m.pt";
     mode := "eval"; lr := Fin (5 # 1000); lr_factor := Fin 4;
     epochs := 3; nonmono := 1; anneal_lr := 1;
     visualize_every := 100000; train_embeddings := 0; tc := 0; td := 0 |}.

Definition disk_after_training : gset string :=
  {[ "out"%string; "out/m.pt"%string ]}.

(** *** Vocabulary of the further statements about the driver *)

(** [f == 0.0] *)
Definition is_zero (f : pyfloat) : bool :=
  match f with
  | Fin q => Qeq_bool q 0
  | _ => false
  end.

Definition is_set_lr (ev : event) : bool :=
  match ev with
  | EvSetLR _ => true
  | _ => false
  end.

(** No recorded perplexity is below the best value, which is the
    sentinel or the perplexity of the best epoch. *)
Definition best_is_least (val_ppl_of : Z -> pyfloat) (todo : list Z)
    (s : state) : Prop :=
  (forall v, In v (all_val_ppls s) -> flt v (best_val_ppl s) = false)
  /\ (best_val_ppl s = sentinel
      \/ (In (best_epoch s) todo
          /\ best_val_ppl s = val_ppl_of (best_epoch s))).

(** Either no checkpoint was written and the best value is still the
    sentinel, or the last checkpoint written is that of the best epoch,
    an epoch of [todo] whose perplexity is the best value. *)
Definition last_save_is_best (a : args) (val_ppl_of : Z -> pyfloat)
    (todo : list Z) (s : state) : Prop :=
  (List.filter is_save (trace s) = [] /\ best_val_ppl s = sentinel)
  \/ (exists earlier,
        List.filter is_save (trace s)
        = earlier ++ [EvSave (ckpt_path a) (best_epoch s)]
        /\ In (best_epoch s) todo
        /\ best_val_ppl s = val_ppl_of (best_epoch s)).

(** The learning rate is still [lr0] and was never set. *)
Definition lr_untouched (lr0 : pyfloat) (s : state) : Prop :=
  opt_lr s = lr0 /\ List.filter is_set_lr (trace s) = [].

(** The learning rate is above [b]. *)
Definition lr_above (b : pyfloat) (s : state) : Prop :=
  flt b (opt_lr s) = true.

(** Events of the train branch. *)
Definition is_training_event (ev : event) : bool :=
  is_train ev || is_save ev || is_set_lr ev.

(** Nothing of the train branch has happened. *)
Definition idle (lr0 : pyfloat) (s : state) : Prop :=
  opt_lr s = lr0 /\ List.filter is_training_event (trace s) = [].

Definition args_unknown_mode : args :=
  {| save_path := "out"; model_file := "m.pt"; load_from := "out/m.pt";
     mode := "test"; lr := Fin (5 # 1000); lr_factor := Fin 4;
     epochs := 3; nonmono := 1; anneal_lr := 1;
     visualize_every := 100000; train_embeddings := 0; tc := 0; td := 0 |}.

Definition args_no_anneal : args :=
  {| save_path := "out"; model_file := "m.pt"; load_from := "";
     mode := "train"; lr := Fin (5 # 1000); lr_factor := Fin 4;
     epochs := 3; nonmono := 1; anneal_lr := 0;
     visualize_every := 100000; train_embeddings := 0; tc := 0; td := 0 |}.

Definition args_patient : args :=
  {| save_path := "out"; model_file := "m.pt"; load_from := "";
     mode := "train"; lr := Fin (5 # 1000); lr_factor := Fin 4;
     epochs := 3; nonmono := 2; anneal_lr := 1;
     visualize_every := 100000; train_embeddings := 0; tc := 0; td := 0 |}.

Definition args_visualize0 : args :=
  {| save_path := "out"; model_file := "m.pt"; load_from := "";
     mode := "train"; lr := Fin (5 # 1000); lr_factor := Fin 4;
     epochs := 3; nonmono := 1; anneal_lr := 1;
     visualize_every := 0; train_embeddings := 0; tc := 0; td := 0 |}.

Definition is_evaluate (ev : event) : bool :=
  match ev with
  | EvEvaluate _ _ _ => true
  | _ => false
  end.

End MainETM.

(** ** [preprocessing]: from raw documents to bag-of-words artifacts *)
Module Preprocessing.
Import Py.

(** A Python [str] is the sequence of its code points. Documents,
    words and timestamps are of this type; paths stay [string]s. *)
Definition pystr : Type := list N.

(** The [str] a literal of the source denotes. *)
Definition lit (s : string) : pystr :=
  map N_of_ascii (list_ascii_of_string s).

(** [sep.join(l)] *)
Fixpoint join (sep : pystr) (l : list pystr) : pystr :=
  match l with
  | [] => []
  | [w] => w
  | w :: r => w ++ sep ++ join sep r
  end.

(** [c.isspace()], which is what [s.split()] separates words at:
    U+0009 to U+000D, U+001C to U+0020, U+0085, U+00A0, U+1680,
    U+2000 to U+200A, U+2028, U+2029, U+202F, U+205F and U+3000. *)
Definition is_space (c : N) : bool :=
  (((9 <=? c) && (c <=? 13)) || ((28 <=? c) && (c <=? 32))
   || (c =? 133) || (c =? 160) || (c =? 5760)
   || ((8192 <=? c) && (c <=? 8202))
   || (c =? 8232) || (c =? 8233) || (c =? 8239) || (c =? 8287)
   || (c =? 12288))%N.

Definition push_word (w : pystr) (ws : list pystr) : list pystr :=
  match w with
  | [] => ws
  | _ => w :: ws
  end.

(** The word being read at the front of [s], and the words after it. *)
Fixpoint words_from (s : pystr) : pystr * list pystr :=
  match s with
  | [] => ([], [])
  | c :: r =>
      let (w, ws) := words_from r in
      if is_space c then ([], push_word w ws) else (c :: w, ws)
  end.

(** [s.split()] *)
Definition split (s : pystr) : list pystr :=
  let (w, ws) := words_from s in push_word w ws.

(** [a <= b] on [str]: the order of the code points, the first
    difference deciding. *)
Fixpoint str_leb (a b : pystr) : bool :=
  match a, b with
  | [], _ => true
  | _ :: _, [] => false
  | c :: a', c' :: b' =>
      if (c <? c')%N then true
      else if (c' <? c)%N then false
      else str_leb a' b'
  end.

(** [sorted(l)] on strings *)
Fixpoint insert_sorted (x : pystr) (l : list pystr) : list pystr :=
  match l with
  | [] => [x]
  | y :: r => if str_leb x y then x :: y :: r else y :: insert_sorted x r
  end.

Definition sorted (l : list pystr) : list pystr :=
  fold_right insert_sorted [] l.

(** [list(set(l))]: the distinct elements, in the order the set
    enumerates them. *)
Definition list_set (l : list pystr) : list pystr :=
  elements (list_to_set l : gset pystr).

(** The arguments of [preprocessing]. [min_df], [max_df] and [seed] only
    reach [CountVectorizer] and the random generator, whose results are
    given by [extern]. The entries of [data_split] are floats. *)
Record args : Type := {
  data_path : string;
  docs : list pystr;
  timestamps : list pystr;
  stopwords : list pystr;
  data_split : list pyfloat }.

(** What the libraries, the arithmetic unit and the operating system
    answer, none of which the code decides:
    - the vocabulary kept by [CountVectorizer], ordered by [np.argsort]
      of the document frequencies (lines 45 to 62), or the exception the
      vectorizer raised;
    - [np.random.permutation(num_docs)];
    - the double a real number is rounded to (an infinity when it is
      out of range), which is what a float product returns;
    - for [os.makedirs(path_save)], the exception it raises if it does,
      and the paths other than [path_save] that exist once it is over
      (the intermediate directories it had to create);
    - for each file the call writes, with [open] and [f.write], with
      [pickle.dump] or with [savemat], the exception the write raises
      if it does, and whether the file is there all the same. *)
Record extern : Type := {
  cv_words : exn + list pystr;
  idx_permute : list nat;
  to_double : Q -> pyfloat;
  makedirs_error : option exn;
  makedirs_also : gset string;
  write_error : string -> option (exn * bool) }.

Inductive fs_op : Type :=
| OpMakeDirs (path : string)
| OpWrite (path : string).

(** The paths that exist, and what this run did to the disk so far. *)
Record disk : Type := {
  fs : gset string;
  ops : list fs_op }.

Definition P : Type -> Type := SE disk.

(** [os.makedirs(path)] when [path] does not exist: it creates the
    directory and the missing directories above it, or raises (say
    [FileExistsError] when a regular file has the name of one of them),
    possibly after creating some of the directories above. *)
Definition makedirs (x : extern) (path : string) : P unit := fun d =>
  match makedirs_error x with
  | Some e => (inl e, {| fs := makedirs_also x ∪ fs d; ops := ops d |})
  | None =>
      (inr tt, {| fs := {[ path ]} ∪ (makedirs_also x ∪ fs d);
                  ops := ops d ++ [OpMakeDirs path] |})
  end.

(** Writing a file of the folder the call has created: the file is
    written, or the write raises, leaving the file behind or not. *)
Definition write (x : extern) (path : string) : P unit := fun d =>
  let written :=
    {| fs := {[ path ]} ∪ fs d; ops := ops d ++ [OpWrite path] |} in
  match write_error x path with
  | None => (inr tt, written)
  | Some (e, left_behind) => (inl e, if left_behind : bool then written else d)
  end.

(** A matrix in CSR form whose rows have sorted, distinct column
    indices: row [d] lists [(column, value)]. *)
Definition csr : Type := list (list (nat * nat)).

(** Everything the function computes and saves. *)
Record result : Type := {
  vocab : list pystr;
  docs_tr : list (list nat);
  docs_ts : list (list nat);
  docs_va : list (list nat);
  docs_ts_h1 : list (list nat);
  docs_ts_h2 : list (list nat);
  timestamps_tr : list nat;
  timestamps_ts : list nat;
  timestamps_va : list nat;
  indices_tr : list nat;
  indices_ts : list nat;
  indices_va : list nat;
  text_tr : list pystr;
  text_ts : list pystr;
  text_va : list pystr;
  n_docs_tr : nat;
  n_docs_ts : nat;
  n_docs_ts_h1 : nat;
  n_docs_ts_h2 : nat;
  n_docs_va : nat;
  bow_tr_tokens : list (list nat);
  bow_tr_counts : list (list nat);
  bow_ts_tokens : list (list nat);
  bow_ts_counts : list (list nat);
  bow_ts_h1_tokens : list (list nat);
  bow_ts_h1_counts : list (list nat);
  bow_ts_h2_tokens : list (list nat);
  bow_ts_h2_counts : list (list nat);
  bow_va_tokens : list (list nat);
  bow_va_counts : list (list nat) }.

(** [dict([(w, j) for j, w in enumerate(vocab)])] and its inverse *)
Definition make_word2id (vocab : list pystr) : gmap pystr nat :=
  py_dict (map (fun jw => (jw.2, jw.1)) (enumerate vocab)).

Definition make_id2word (vocab : list pystr) : gmap nat pystr :=
  py_dict (enumerate vocab).

(** [[word2id[w] for w in text.split() if w in word2id]]: the words that
    have an id, replaced by it. *)
Definition doc_ids (word2id : gmap pystr nat) (text : pystr) : list nat :=
  omap (fun w => word2id !! w) (split text).

(** [x[idx_permute[i]]] *)
Definition permuted {A} (x : list A) (idx_permute : list nat) (i : Z)
    : exn + A :=
  match py_index idx_permute i with
  | inl e => inl e
  | inr j => py_index x (Z.of_nat j)
  end.

Definition map_sum {A B} (f : A -> B) (r : exn + A) : exn + B :=
  match r with
  | inl e => inl e
  | inr x => inr (f x)
  end.

Definition and_then {A B} (r : exn + A) (k : A -> exn + B) : exn + B :=
  match r with
  | inl e => inl e
  | inr x => k x
  end.

(** [remove_empty]: the loop over [enumerate(in_docs)], from index [ii]
    on. *)
Fixpoint remove_empty_from (ii : nat) (in_docs : list (list nat))
    (in_timestamps in_indices : list nat)
    : exn + (list (list nat) * list nat * list nat) :=
  match in_docs with
  | [] => inr ([], [], [])
  | doc :: rest =>
      match doc with
      | [] => remove_empty_from (S ii) rest in_timestamps in_indices
      | _ :: _ =>
          and_then (py_index in_timestamps (Z.of_nat ii)) (fun t =>
          and_then (py_index in_indices (Z.of_nat ii)) (fun i =>
          map_sum (fun out => (doc :: out.1.1, t :: out.1.2, i :: out.2))
                  (remove_empty_from (S ii) rest in_timestamps in_indices)))
      end
  end.

Definition remove_empty := remove_empty_from 0.

(** [remove_by_threshold]: the same loop, keeping [len(doc) > thr]. *)
Fixpoint remove_by_threshold_from (ii : nat) (in_docs : list (list nat))
    (in_timestamps in_indices : list nat) (thr : Z)
    : exn + (list (list nat) * list nat * list nat) :=
  match in_docs with
  | [] => inr ([], [], [])
  | doc :: rest =>
      if thr <? Z.of_nat (length doc) then
        and_then (py_index in_timestamps (Z.of_nat ii)) (fun t =>
        and_then (py_index in_indices (Z.of_nat ii)) (fun i =>
        map_sum (fun out => (doc :: out.1.1, t :: out.1.2, i :: out.2))
                (remove_by_threshold_from (S ii) rest in_timestamps
                   in_indices thr)))
      else remove_by_threshold_from (S ii) rest in_timestamps in_indices thr
  end.

Definition remove_by_threshold := remove_by_threshold_from 0.

(** [[w for i,w in enumerate(doc) if i<=len(doc)/2.0-1]] and
    [[w for i,w in enumerate(doc) if i>len(doc)/2.0-1]] *)
Definition half_bound (doc : list nat) : Q :=
  (inject_Z (Z.of_nat (length doc)) / 2 - 1)%Q.

Definition first_half (doc : list nat) : list nat :=
  map snd (List.filter
             (fun iw => Qle_bool (inject_Z (Z.of_nat iw.1)) (half_bound doc))
             (enumerate doc)).

Definition second_half (doc : list nat) : list nat :=
  map snd (List.filter
             (fun iw => Qltb (half_bound doc) (inject_Z (Z.of_nat iw.1)))
             (enumerate doc)).

Definition create_list_words (in_docs : list (list nat)) : list nat :=
  concat in_docs.

Definition create_doc_indices (in_docs : list (list nat)) : list nat :=
  concat (imap (fun j doc => repeat j (length doc)) in_docs).

(** [coo_matrix((data, (rows, cols)), shape).tocsr()] with all data 1:
    the entries of a row are sorted by column and duplicates are summed. *)
Fixpoint bump (w : nat) (row : list (nat * nat)) : list (nat * nat) :=
  match row with
  | [] => [(w, 1%nat)]
  | (c, k) :: r =>
      if (w <? c)%nat then (w, 1%nat) :: (c, k) :: r
      else if (w =? c)%nat then (c, S k) :: r
      else (c, k) :: bump w r
  end.

Definition sum_duplicates (cols : list nat) : list (nat * nat) :=
  fold_left (fun row w => bump w row) cols [].

Definition row_cols (d : nat) (doc_indices words : list nat) : list nat :=
  map snd (List.filter (fun dw => (dw.1 =? d)%nat) (combine doc_indices words)).

Definition create_bow (doc_indices words : list nat) (n_docs vocab_size : nat)
    : exn + csr :=
  if negb (length doc_indices =? length words)%nat then inl ValueError
  else if forallb (fun d => (d <? n_docs)%nat) doc_indices
          && forallb (fun w => (w <? vocab_size)%nat) words
  then inr (map (fun d => sum_duplicates (row_cols d doc_indices words))
                (seq 0 n_docs))
  else inl ValueError.

(** [split_bow]: the column indices and the values of every row. *)
Definition split_bow (bow_in : csr) (n_docs : nat)
    : exn + (list (list nat) * list (list nat)) :=
  and_then (mapE (fun doc => map_sum (map fst) (py_index bow_in (Z.of_nat doc)))
                 (seq 0 n_docs)) (fun indices =>
  and_then (mapE (fun doc => map_sum (map snd) (py_index bow_in (Z.of_nat doc)))
                 (seq 0 n_docs)) (fun counts =>
  inr (indices, counts))).

(** [' '.join([id2word[idx] for idx in doc])] *)
Definition text_line (id2word : gmap nat pystr) (doc : list nat)
    : exn + pystr :=
  map_sum (join (lit " ")) (mapE (py_getitem id2word) doc).

(** The three comprehensions over [range(size)] that read
    [x[idx_permute[idx_d + offset]]]. *)
Definition gather {A B} (x : list A) (idx_permute : list nat)
    (f : A -> exn + B) (offset size : Z) : exn + list B :=
  mapE (fun idx_d => and_then (permuted x idx_permute (idx_d + offset)) f)
       (py_range size).

Definition known (word2id : gmap pystr nat) (w : pystr) : bool :=
  bool_decide (is_Some (word2id !! w)).

Notation "'let*' x := r 'in' k" := (and_then r (fun x => k))
  (at level 10, x name, r at level 100, k at level 200).

(** The documents of one of the three sets, with their timestamps and
    their indices in [docs]. *)
Definition part : Type := (list (list nat) * list nat * list nat)%type.

(** Lines 36 to 41. *)
Definition check_timestamps (a : args) : exn + list pystr :=
  match timestamps a with
  | [] => inr (repeat (lit "no_timestamps") (length (docs a)))
  | _ => if (length (docs a) =? length (timestamps a))%nat
         then inr (timestamps a) else inl ValueError
  end.

(** [p * n] for a float [p] and the number [n] of documents: the
    product of two doubles is their exact product rounded. *)
Definition float_times (x : extern) (p : pyfloat) (n : Z) : pyfloat :=
  match p with
  | Fin q => to_double x (q * inject_Z n)
  | NaN => NaN
  | PInf => if n =? 0 then NaN else if 0 <? n then PInf else NInf
  | NInf => if n =? 0 then NaN else if 0 <? n then NInf else PInf
  end.

(** [int(np.floor(f))] *)
Definition int_floor (f : pyfloat) : exn + Z :=
  match f with
  | Fin q => inr (Qfloor q)
  | NaN => inl ValueError
  | PInf | NInf => inl OverflowError
  end.

(** Lines 82 to 85: [trSize], [tsSize] and [vaSize]. *)
Definition split_sizes (a : args) (x : extern) : exn + (Z * Z * Z) :=
  let num_docs := Z.of_nat (length (docs a)) in
  let* ds0 := py_index (data_split a) 0 in
  let* trSize := int_floor (float_times x ds0 num_docs) in
  let* ds1 := py_index (data_split a) 1 in
  let* tsSize := int_floor (float_times x ds1 num_docs) in
  inr (trSize, tsSize, num_docs - trSize - tsSize).

(** Lines 64 to 108: the vocabulary of the train documents and the
    three sets as lists of word ids. *)
Definition tokenize (a : args) (x : extern) (timestamps cv : list pystr)
    : exn + (list pystr * part * part * part) :=
  let vocab_aux :=
    List.filter (fun w => negb (bool_decide (w ∈ stopwords a))) cv in
  let word2id := make_word2id vocab_aux in
  let all_times := sorted (list_set timestamps) in
  let time2id := make_word2id all_times in
  let* sizes := split_sizes a x in
  let trSize := sizes.1.1 in
  let tsSize := sizes.1.2 in
  let vaSize := sizes.2 in
  let idx := idx_permute x in
  let* train_words :=
    gather (docs a) idx
      (fun t => inr (List.filter (known word2id) (split t))) 0 trSize in
  let vocab := list_set (concat train_words) in
  let word2id := make_word2id vocab in
  let ids := fun t => inr (doc_ids word2id t) in
  let* docs_tr := gather (docs a) idx ids 0 trSize in
  let* docs_ts := gather (docs a) idx ids trSize tsSize in
  let* docs_va := gather (docs a) idx ids (trSize + tsSize) vaSize in
  let* timestamps_tr := gather timestamps idx (py_getitem time2id) 0 trSize in
  let* timestamps_ts :=
    gather timestamps idx (py_getitem time2id) trSize tsSize in
  let* timestamps_va :=
    gather timestamps idx (py_getitem time2id) (trSize + tsSize) vaSize in
  let* indices_tr := mapE (fun i => py_index idx i) (py_range trSize) in
  let* indices_ts :=
    mapE (fun i => py_index idx (i + trSize)) (py_range tsSize) in
  let* indices_va :=
    mapE (fun i => py_index idx (i + trSize + tsSize)) (py_range vaSize) in
  inr (vocab, (docs_tr, timestamps_tr, indices_tr),
       (docs_ts, timestamps_ts, indices_ts),
       (docs_va, timestamps_va, indices_va)).

(** Lines 143 to 147: empty documents leave the three sets, and test
    documents of length one leave the test set. *)
Definition clean (tr ts va : part) : exn + (part * part * part) :=
  let* tr := remove_empty tr.1.1 tr.1.2 tr.2 in
  let* ts := remove_empty ts.1.1 ts.1.2 ts.2 in
  let* va := remove_empty va.1.1 va.1.2 va.2 in
  let* ts := remove_by_threshold ts.1.1 ts.1.2 ts.2 1 in
  inr (tr, ts, va).

(** Lines 151 to 317: the two halves of the test documents, the
    bag-of-words matrices and the files. *)
Definition save (x : extern) (path_save : string) (vocab : list pystr)
    (tr ts va : part) : P result :=
  let id2word := make_id2word vocab in
  let docs_tr := tr.1.1 in
  let docs_ts := ts.1.1 in
  let docs_va := va.1.1 in
  let docs_ts_h1 := map first_half docs_ts in
  let docs_ts_h2 := map second_half docs_ts in
  write x (path_save ++ "info.json")%string ;;
  let words_tr := create_list_words docs_tr in
  let words_ts := create_list_words docs_ts in
  let words_ts_h1 := create_list_words docs_ts_h1 in
  let words_ts_h2 := create_list_words docs_ts_h2 in
  let words_va := create_list_words docs_va in
  let doc_indices_tr := create_doc_indices docs_tr in
  let doc_indices_ts := create_doc_indices docs_ts in
  let doc_indices_ts_h1 := create_doc_indices docs_ts_h1 in
  let doc_indices_ts_h2 := create_doc_indices docs_ts_h2 in
  let doc_indices_va := create_doc_indices docs_va in
  write x (path_save ++ "text_tr.txt")%string ;;
  text_tr <- lift (mapE (text_line id2word) docs_tr) ;;
  write x (path_save ++ "text_ts.txt")%string ;;
  text_ts <- lift (mapE (text_line id2word) docs_ts) ;;
  write x (path_save ++ "text_va.txt")%string ;;
  text_va <- lift (mapE (text_line id2word) docs_va) ;;
  let n_docs_tr := length docs_tr in
  let n_docs_ts := length docs_ts in
  let n_docs_ts_h1 := length docs_ts_h1 in
  let n_docs_ts_h2 := length docs_ts_h2 in
  let n_docs_va := length docs_va in
  bow_tr <-
    lift (create_bow doc_indices_tr words_tr n_docs_tr (length vocab)) ;;
  bow_ts <-
    lift (create_bow doc_indices_ts words_ts n_docs_ts (length vocab)) ;;
  bow_ts_h1 <-
    lift (create_bow doc_indices_ts_h1 words_ts_h1 n_docs_ts_h1
            (length vocab)) ;;
  bow_ts_h2 <-
    lift (create_bow doc_indices_ts_h2 words_ts_h2 n_docs_ts_h2
            (length vocab)) ;;
  bow_va <-
    lift (create_bow doc_indices_va words_va n_docs_va (length vocab)) ;;
  write x (path_save ++ "vocab.pkl")%string ;;
  write x (path_save ++ "bow_tr_timestamps.mat")%string ;;
  write x (path_save ++ "bow_ts_timestamps.mat")%string ;;
  write x (path_save ++ "bow_va_timestamps.mat")%string ;;
  b_tr <- lift (split_bow bow_tr n_docs_tr) ;;
  write x (path_save ++ "bow_tr_tokens.mat")%string ;;
  write x (path_save ++ "bow_tr_counts.mat")%string ;;
  b_ts <- lift (split_bow bow_ts n_docs_ts) ;;
  write x (path_save ++ "bow_ts_tokens.mat")%string ;;
  write x (path_save ++ "bow_ts_counts.mat")%string ;;
  b_h1 <- lift (split_bow bow_ts_h1 n_docs_ts_h1) ;;
  write x (path_save ++ "bow_ts_h1_tokens.mat")%string ;;
  write x (path_save ++ "bow_ts_h1_counts.mat")%string ;;
  b_h2 <- lift (split_bow bow_ts_h2 n_docs_ts_h2) ;;
  write x (path_save ++ "bow_ts_h2_tokens.mat")%string ;;
  write x (path_save ++ "bow_ts_h2_counts.mat")%string ;;
  b_va <- lift (split_bow bow_va n_docs_va) ;;
  write x (path_save ++ "bow_va_tokens.mat")%string ;;
  write x (path_save ++ "bow_va_counts.mat")%string ;;
  ret {| vocab := vocab;
         docs_tr := docs_tr; docs_ts := docs_ts; docs_va := docs_va;
         docs_ts_h1 := docs_ts_h1; docs_ts_h2 := docs_ts_h2;
         timestamps_tr := tr.1.2; timestamps_ts := ts.1.2;
         timestamps_va := va.1.2;
         indices_tr := tr.2; indices_ts := ts.2; indices_va := va.2;
         text_tr := text_tr; text_ts := text_ts; text_va := text_va;
         n_docs_tr := n_docs_tr; n_docs_ts := n_docs_ts;
         n_docs_ts_h1 := n_docs_ts_h1; n_docs_ts_h2 := n_docs_ts_h2;
         n_docs_va := n_docs_va;
         bow_tr_tokens := b_tr.1; bow_tr_counts := b_tr.2;
         bow_ts_tokens := b_ts.1; bow_ts_counts := b_ts.2;
         bow_ts_h1_tokens := b_h1.1; bow_ts_h1_counts := b_h1.2;
         bow_ts_h2_tokens := b_h2.1; bow_ts_h2_counts := b_h2.2;
         bow_va_tokens := b_va.1; bow_va_counts := b_va.2 |}.

Definition path_save (a : args) : string :=
  ("./" ++ data_path a ++ "/")%string.

Definition preprocessing (a : args) (x : extern) : P result :=
  d <- get ;;
  (if decide (path_save a ∈ fs d) then raise ValueError
   else makedirs x (path_save a)) ;;
  timestamps <- lift (check_timestamps a) ;;
  cv <- lift (cv_words x) ;;
  c <- lift (tokenize a x timestamps cv) ;;
  k <- lift (clean c.1.1.2 c.1.2 c.2) ;;
  save x (path_save a) c.1.1.1 k.1.1 k.1.2 k.2.

(** The disk before the call. *)
Definition start (existing : gset string) : disk :=
  {| fs := existing; ops := [] |}.

(** *** Vocabulary of the statements about [preprocessing] *)

Local Open Scope nat_scope.

(** [doc != []] *)
Definition nonempty (doc : list nat) : bool :=
  match doc with
  | [] => false
  | _ => true
  end.

(** The sum of the values stored in a row under column [t]. *)
Definition weight (row : list (nat * nat)) (t : nat) : nat :=
  list_sum (map snd (List.filter (fun p : nat * nat => p.1 =? t) row)).

(** What the row built from the words of a document is. *)
Record row_of (doc : list nat) (row : list (nat * nat)) : Prop := {
  row_weight : forall t, weight row t = count_occ Nat.eq_dec doc t;
  row_keys : forall t, In t (map fst row) -> In t doc;
  row_sorted : StronglySorted lt (map fst row);
  row_positive : Forall (fun p : nat * nat => 1 <= p.2) row;
  row_total : list_sum (map snd row) = length doc }.

(** [create_doc_indices] when the first document has number [n]. *)
Definition doc_indices_from (n : nat) (in_docs : list (list nat)) : list nat :=
  concat (imap (fun j doc => repeat (n + j) (length doc)) in_docs).

(** The tokens and counts saved for a list of documents. *)
Definition bow_of (in_docs tokens counts : list (list nat)) : Prop :=
  tokens = map (fun doc => map fst (sum_duplicates doc)) in_docs
  /\ counts = map (fun doc => map snd (sum_duplicates doc)) in_docs.

(** One row of a saved tokens/counts pair against its document. *)
Definition row_ok (V : nat) (doc tokens counts : list nat) : Prop :=
  length tokens = length counts
  /\ forall j t c,
       tokens !! j = Some t -> counts !! j = Some c ->
       t < V /\ 1 <= c /\ c = count_occ Nat.eq_dec doc t.

(** A saved tokens/counts pair against the documents of its set. *)
Definition artifact_ok (V : nat) (in_docs tokens counts : list (list nat))
    : Prop :=
  length tokens = length in_docs /\ length counts = length in_docs
  /\ forall i doc tk ct,
       in_docs !! i = Some doc -> tokens !! i = Some tk ->
       counts !! i = Some ct -> row_ok V doc tk ct.

Definition returned {A} (r : exn + A) : bool :=
  match r with
  | inr _ => true
  | inl _ => false
  end.

(** A small corpus used as an example. *)
Definition example_args (ds : list pyfloat) : args :=
  {| data_path := "out";
     docs := map lit ["aa bb cc"; "bb cc dd aa"; "aa aa"; "dd ee ff gg";
                      "bb  zz aa bb aa"; "cc"; "aa dd"; "qq"]%string;
     timestamps := []; stopwords := [lit "cc"]; data_split := ds |}.

(** The products of the examples are doubles, so nothing is rounded;
    [os.makedirs] succeeds and creates the folder only; no write
    fails. *)
Definition example_extern : extern :=
  {| cv_words :=
       inr (map lit ["aa"; "bb"; "cc"; "dd"; "ee"; "ff"; "gg"]%string);
     idx_permute := [3; 0; 7; 2; 4; 1; 6; 5];
     to_double := Fin;
     makedirs_error := None;
     makedirs_also := ∅;
     write_error := fun _ => None |}.

Definition well_formed_split : list pyfloat :=
  [Fin (1 # 2); Fin (3 # 8); Fin (1 # 8)].
Definition negative_split : list pyfloat :=
  [Fin (1 # 2); Fin (3 # 8); Fin (- (1))].
Definition short_split : list pyfloat :=
  [Fin (1 # 2); Fin (1 # 8); Fin (1 # 8)].

Definition all_files : list fs_op :=
  [OpMakeDirs "./out/"; OpWrite "./out/info.json";
   OpWrite "./out/text_tr.txt"; OpWrite "./out/text_ts.txt";
   OpWrite "./out/text_va.txt"; OpWrite "./out/vocab.pkl";
   OpWrite "./out/bow_tr_timestamps.mat";
   OpWrite "./out/bow_ts_timestamps.mat";
   OpWrite "./out/bow_va_timestamps.mat";
   OpWrite "./out/bow_tr_tokens.mat"; OpWrite "./out/bow_tr_counts.mat";
   OpWrite "./out/bow_ts_tokens.mat"; OpWrite "./out/bow_ts_counts.mat";
   OpWrite "./out/bow_ts_h1_tokens.mat"; OpWrite "./out/bow_ts_h1_counts.mat";
   OpWrite "./out/bow_ts_h2_tokens.mat"; OpWrite "./out/bow_ts_h2_counts.mat";
   OpWrite "./out/bow_va_tokens.mat"; OpWrite "./out/bow_va_counts.mat"].

Definition example_run : (exn + result) * disk :=
  preprocessing (example_args well_formed_split) example_extern (start ∅).

(** *** Vocabulary of the further statements about [preprocessing] *)

(** The value a saved tokens/counts row holds for token [t]. *)
Definition entry (tokens counts : list nat) (t : nat) : nat :=
  weight (combine tokens counts) t.

(** Every saved tokens row lists, in increasing order and once each,
    the ids that occur in its document. *)
Definition canonical_rows (in_docs tokens : list (list nat)) : Prop :=
  forall i doc tk,
    in_docs !! i = Some doc -> tokens !! i = Some tk ->
    StronglySorted lt tk /\ forall t, In t tk <-> In t doc.

(** The three lists of a set go together: same lengths, and the
    document, timestamp and index at each position satisfy [R]. *)
Definition aligned (R : list nat -> nat -> nat -> Prop) (p : part) : Prop :=
  length p.1.2 = length p.1.1 /\ length p.2 = length p.1.1
  /\ forall k doc t i,
       p.1.1 !! k = Some doc -> p.1.2 !! k = Some t -> p.2 !! k = Some i ->
       R doc t i.

(** The saved document is the list of the ids of the words of
    [docs[i]] that are in the vocabulary [V]. *)
Definition comes_from (a : args) (V : list pystr) (doc : list nat)
    (i : nat) : Prop :=
  exists text,
    docs a !! i = Some text /\ doc = doc_ids (make_word2id V) text.

(** The triple at some position of the input. *)
Definition taken_from (in_docs : list (list nat)) (tm ix : list nat)
    (doc : list nat) (t i : nat) : Prop :=
  exists k, in_docs !! k = Some doc /\ tm !! k = Some t /\ ix !! k = Some i.

(** What [tokenize] guarantees about the vocabulary [V] it returns
    with the train set [tr], when [cv] is the vocabulary of
    [CountVectorizer]. *)
Definition vocabulary_of (a : args) (cv V : list pystr) (tr : part)
    : Prop :=
  NoDup V
  /\ (forall w, w ∈ V ->
        w ∈ cv /\ (w ∉ stopwords a)
        /\ exists k doc t i text,
             tr.1.1 !! k = Some doc /\ tr.1.2 !! k = Some t
             /\ tr.2 !! k = Some i
             /\ docs a !! i = Some text /\ w ∈ split text
             /\ exists j, V !! j = Some w /\ j ∈ doc)
  /\ aligned (fun doc (t i : nat) =>
                forall text w,
                  docs a !! i = Some text -> w ∈ split text ->
                  w ∈ cv -> w ∉ stopwords a -> w ∈ V) tr.

(** The lines of a text file against the saved indices: the line at
    each position is the words of the input document with that index
    that are in the vocabulary [V], joined by single spaces. *)
Definition text_of (a : args) (V : list pystr) (ix : list nat)
    (txt : list pystr) : Prop :=
  length txt = length ix
  /\ forall k i,
       ix !! k = Some i ->
       exists text,
         docs a !! i = Some text
         /\ txt !! k
            = Some (join (lit " ")
                      (List.filter (fun w => bool_decide (w ∈ V))
                         (split text))).

(** The files [save] writes into the folder, in the order it writes
    them. *)
Definition file_names : list string :=
  ["info.json"; "text_tr.txt"; "text_ts.txt"; "text_va.txt"; "vocab.pkl";
   "bow_tr_timestamps.mat"; "bow_ts_timestamps.mat";
   "bow_va_timestamps.mat";
   "bow_tr_tokens.mat"; "bow_tr_counts.mat";
   "bow_ts_tokens.mat"; "bow_ts_counts.mat";
   "bow_ts_h1_tokens.mat"; "bow_ts_h1_counts.mat";
   "bow_ts_h2_tokens.mat"; "bow_ts_h2_counts.mat";
   "bow_va_tokens.mat"; "bow_va_counts.mat"]%string.

(** The paths that may exist after a call made on disk [d]: those of
    [d], the folder of the call with the directories [os.makedirs] had
    to create above it, and the files [save] writes into the folder. *)
Definition inside (a : args) (x : extern) (d : disk) (q : string) : Prop :=
  q ∈ fs d \/ q ∈ makedirs_also x \/ q = path_save a
  \/ exists f, In f file_names /\ q = (path_save a ++ f)%string.

(** The saved timestamp [t] against the saved index [i]: [t] is the
    position of [timestamps[i]] in [sorted(set(timestamps))]. *)
Definition time_of (tms : list pystr) (t i : nat) : Prop :=
  exists time,
    tms !! i = Some time /\ sorted (list_set tms) !! t = Some time.

End Preprocessing.

(** ** Invariants of effectful computations *)
Module EffectFacts.
Import Py.

Section Preserves.
Context {S : Type} (P : S -> Prop).

Lemma preserves_ret {A} (x : A) : preserves P (ret x).
Proof. intros s H. exact H. Qed.

Lemma preserves_raise {A} (e : exn) : preserves P (@raise S A e).
Proof. intros s H. exact H. Qed.

Lemma preserves_lift {A} (r : exn + A) : preserves P (lift r).
Proof. intros s H. exact H. Qed.

Lemma preserves_get : preserves P get.
Proof. intros s H. exact H. Qed.

Lemma preserves_bind {A B} (m : SE S A) (k : A -> SE S B) :
  preserves P m -> (forall x, preserves P (k x)) -> preserves P (bind m k).
Proof.
  intros Hm Hk s Hs. unfold bind.
  specialize (Hm s Hs). destruct (m s) as [[e | x] s1]; simpl in *.
  - exact Hm.
  - apply Hk, Hm.
Qed.

Lemma preserves_for_each {A} (l : list A) (body : A -> SE S unit) :
  (forall x, In x l -> preserves P (body x)) ->
  preserves P (for_each l body).
Proof.
  induction l as [|x r IH]; intros Hb; simpl.
  - apply preserves_ret.
  - apply preserves_bind.
    + apply Hb. now left.
    + intros _. apply IH. intros y Hy. apply Hb. now right.
Qed.

Lemma preserves_if {A} (b : bool) (m1 m2 : SE S A) :
  preserves P m1 -> preserves P m2 -> preserves P (if b then m1 else m2).
Proof. destruct b; auto. Qed.
End Preserves.

Lemma bind_inr {S A B} (m : SE S A) (k : A -> SE S B) (s s' : S) (y : B) :
  bind m k s = (inr y, s') ->
  exists x s1, m s = (inr x, s1) /\ k x s1 = (inr y, s').
Proof.
  unfold bind. destruct (m s) as [[e | x] s1]; [discriminate | eauto].
Qed.

Lemma lift_inr {S A} (r : exn + A) (s s1 : S) (x : A) :
  lift r s = (inr x, s1) -> r = inr x.
Proof. unfold lift. congruence. Qed.

Lemma snd_bind_inr {S A B} (m : SE S A) (k : A -> SE S B) (s s1 : S)
    (x : A) :
  m s = (inr x, s1) -> snd (bind m k s) = snd (k x s1).
Proof. intros H. unfold bind. now rewrite H. Qed.

Lemma bind_of_inr {S A B} (m : SE S A) (k : A -> SE S B) (s s1 : S) (x : A) :
  m s = (inr x, s1) -> bind m k s = k x s1.
Proof. intros H. unfold bind. now rewrite H. Qed.

Lemma bind_of_inl {S A B} (m : SE S A) (k : A -> SE S B) (s s1 : S)
    (e : exn) :
  m s = (inl e, s1) -> bind m k s = (inl e, s1).
Proof. intros H. unfold bind. now rewrite H. Qed.

End EffectFacts.

(** ** Facts about [main_ETM] *)
Module DriverFacts.
Import Py MainETM EffectFacts.

Lemma Qltb_lt (x y : Q) : Qltb x y = true <-> (x < y)%Q.
Proof.
  unfold Qltb. rewrite negb_true_iff. split; intros H.
  - apply Qnot_le_lt. intros Hle. apply Qle_bool_iff in Hle. congruence.
  - destruct (Qle_bool y x) eqn:E; [|reflexivity].
    apply Qle_bool_iff in E. exfalso. revert H. apply Qle_not_lt, E.
Qed.

Lemma flt_NaN_l (b : pyfloat) : flt NaN b = false.
Proof. reflexivity. Qed.

Lemma flt_irrefl (x : pyfloat) : flt x x = false.
Proof.
  destruct x; simpl; try reflexivity.
  unfold Qltb. apply negb_false_iff, Qle_bool_iff, Qle_refl.
Qed.

Lemma fle_not_flt (x y : pyfloat) : fle x y = true -> flt y x = false.
Proof.
  destruct x, y; simpl; try congruence.
  intros H. unfold Qltb. now rewrite H.
Qed.

Lemma fle_trans (x y z : pyfloat) :
  fle x y = true -> fle y z = true -> fle x z = true.
Proof.
  destruct x, y, z; simpl; try congruence.
  rewrite !Qle_bool_iff. apply Qle_trans.
Qed.

Lemma descends_refl (x : pyfloat) : descends x x.
Proof. now left. Qed.

Lemma descends_trans (x y z : pyfloat) :
  descends x y -> descends y z -> descends x z.
Proof.
  unfold descends.
  intros [-> | [-> | Hxy]] Hyz; auto.
  destruct Hyz as [-> | [-> | Hyz]]; auto.
  - destruct x; simpl in Hxy; congruence.
  - right; right. eapply fle_trans; eauto.
Qed.

Lemma descends_not_above (x y : pyfloat) : descends x y -> flt y x = false.
Proof.
  intros [-> | [-> | H]].
  - apply flt_irrefl.
  - destruct y; reflexivity.
  - now apply fle_not_flt.
Qed.

(** Dividing a learning rate above the floor by a factor of at least one
    does not raise and does not increase it. *)
Lemma fdiv_descends (x f y : pyfloat) :
  fle (Fin 1) f = true -> fgt x lr_floor = true ->
  fdiv x f = inr y -> descends y x.
Proof.
  unfold fgt, lr_floor. intros Hf Hx Hd.
  destruct f as [q| | |]; simpl in Hf; try congruence.
  - apply Qle_bool_iff in Hf.
    unfold fdiv in Hd.
    destruct (Qeq_bool q 0) eqn:Hq; [congruence|].
    destruct x as [p| | |]; simpl in Hx; try congruence.
    + inversion Hd; subst. right; right. simpl.
      apply Qltb_lt in Hx. apply Qle_bool_iff.
      apply Qle_shift_div_r; [lra|]. nra.
    + assert (Qltb 0 q = true) as Hpos by (apply Qltb_lt; lra).
      rewrite Hpos in Hd. inversion Hd. now left.
  - destruct x as [p| | |]; simpl in Hx, Hd; try congruence.
    + inversion Hd; subst. right; right. simpl.
      apply Qltb_lt in Hx. apply Qle_bool_iff. lra.
    + inversion Hd. right; now left.
Qed.

Lemma fdiv_no_raise (x f : pyfloat) :
  fle (Fin 1) f = true -> exists y, fdiv x f = inr y.
Proof.
  intros Hf. destruct f as [q| | |]; simpl in Hf; try congruence.
  - apply Qle_bool_iff in Hf. unfold fdiv.
    destruct (Qeq_bool q 0) eqn:Hq.
    + apply Qeq_bool_iff in Hq. lra.
    + destruct x; eauto.
  - destruct x; simpl; eauto.
Qed.



Ltac unfold_body :=
  unfold epoch_body, bind, emit, get, lift, write_file, set_best, set_lr,
    append_ppl, ret; simpl.

Ltac split_body a val_ppl_of epoch s :=
  unfold_body;
  destruct (flt (val_ppl_of epoch) (best_val_ppl s)) eqn:Himp; simpl;
  [ | destruct (anneal_test a (val_ppl_of epoch) (all_val_ppls s) (opt_lr s))
        as [e1 | [|]] eqn:Hann; simpl;
      [ | destruct (fdiv (opt_lr s) (lr_factor a)) as [e2 | new_lr] eqn:Hdiv;
          simpl | ] ];
  try (destruct (visualize_test a epoch) as [e3 | [|]] eqn:Hvis; simpl).

(** The slice [history[:-nonmono]] is the history older than the
    patience window when the window is not empty. *)
Lemma slice_is_older (nonmono : Z) (history : list pyfloat) :
  1 <= nonmono ->
  py_slice_to history (- nonmono) = older_than_window nonmono history.
Proof.
  intros H. unfold py_slice_to, older_than_window.
  assert ((- nonmono <? 0) = true) as -> by lia.
  f_equal. lia.
Qed.

(** With a patience of at least one epoch the test in the code is the
    conjunction of the four conditions, and it never raises. *)
Lemma anneal_test_agrees (a : args) (v : pyfloat) (history : list pyfloat)
    (cur : pyfloat) :
  1 <= nonmono a ->
  anneal_test a v history cur = inr (spec_anneal a v history cur).
Proof.
  intros Hn. unfold anneal_test, spec_anneal.
  destruct (anneal_lr a =? 0); simpl; [reflexivity|].
  destruct (nonmono a <? Z.of_nat (length history)) eqn:Hlt; simpl.
  - rewrite slice_is_older by assumption.
    assert ((nonmono a <=? Z.of_nat (length history)) = true) as -> by lia.
    simpl.
    destruct (older_than_window (nonmono a) history) as [|x r] eqn:Hold.
    + unfold older_than_window in Hold.
      apply (f_equal (@length _)) in Hold.
      rewrite length_firstn in Hold. simpl in Hold. lia.
    + reflexivity.
  - destruct (nonmono a <=? Z.of_nat (length history)) eqn:Hle; simpl;
      [|reflexivity].
    unfold older_than_window.
    replace (length history - Z.to_nat (nonmono a))%nat with 0%nat by lia.
    reflexivity.
Qed.

(** After an epoch that does not improve on the best value and with a
    patience of at least one epoch, the learning rate is divided by
    [lr_factor] exactly when the four conditions hold. *)
Lemma annealed_exactly_when (a : args) (val_ppl_of : Z -> pyfloat)
    (epoch : Z) (s : state) :
  1 <= nonmono a ->
  flt (val_ppl_of epoch) (best_val_ppl s) = false ->
  let r := epoch_body a val_ppl_of epoch s in
  if spec_anneal a (val_ppl_of epoch) (all_val_ppls s) (opt_lr s)
  then match fdiv (opt_lr s) (lr_factor a) with
       | inr new_lr => opt_lr (snd r) = new_lr
       | inl e => fst r = inl e /\ opt_lr (snd r) = opt_lr s
       end
  else opt_lr (snd r) = opt_lr s.
Proof.
  intros Hn Himp0 r. subst r.
  pose proof (anneal_test_agrees a (val_ppl_of epoch) (all_val_ppls s)
                (opt_lr s) Hn) as Hag.
  split_body a val_ppl_of epoch s; try discriminate;
    injection Hag as Hs; rewrite <- Hs; auto.
Qed.


(** C1. With a patience [nonmono = 0] the four conditions hold at epoch
    1 of this run (annealing on, one epoch of history, perplexity 200
    above the minimum 100 of the whole history, learning rate 0.005
    above the floor), yet the learning rate is not divided: the slice
    [all_val_ppls[:-0]] is empty, [min] raises [ValueError] and the
    run stops. *)
Theorem anneal_raises_when_nonmono_is_zero :
  let a := args_nonmono0 in
  let s1 := snd ((define_checkpoint a ;; start_training ;;
                  epoch_body a ppl_rising 0) (init a ∅)) in
  flt (ppl_rising 1) (best_val_ppl s1) = false
  /\ spec_anneal a (ppl_rising 1) (all_val_ppls s1) (opt_lr s1) = true
  /\ py_slice_to (all_val_ppls s1) (- nonmono a) = []
  /\ fst (epoch_body a ppl_rising 1 s1) = inl ValueError
  /\ opt_lr (snd (epoch_body a ppl_rising 1 s1)) = opt_lr s1
  /\ fst (main_ETM a ppl_rising (init a ∅)) = inl ValueError.
Proof. vm_compute. repeat split; reflexivity. Qed.

(** One iteration of the epoch loop and the checkpoint. *)
Lemma epoch_checkpoint_step (a : args) (val_ppl_of : Z -> pyfloat)
    (epoch : Z) (s : state) :
  let v := val_ppl_of epoch in
  let s' := snd (epoch_body a val_ppl_of epoch s) in
  exists rest,
    trace s' = trace s
               ++ [EvTrainForEpoch epoch; EvEvaluate "val" (tc a) (td a)]
               ++ rest
    /\ if flt v (best_val_ppl s)
       then (exists rest', rest = EvSave (ckpt_path a) epoch :: rest'
                           /\ List.filter is_save rest' = [])
            /\ best_epoch s' = epoch /\ best_val_ppl s' = v
            /\ ckpt_path a ∈ fs s'
       else List.filter is_save rest = []
            /\ best_epoch s' = best_epoch s
            /\ best_val_ppl s' = best_val_ppl s
            /\ fs s' = fs s.
Proof.
  intros v s'. subst v s'.
  split_body a val_ppl_of epoch s;
    rewrite <- ?app_assoc; simpl;
    eexists; (split; [reflexivity|]); simpl;
    repeat split; eauto; try set_solver.
Qed.

Lemma epoch_saves_at_most_once (a : args) (val_ppl_of : Z -> pyfloat)
    (epoch : Z) (s : state) :
  (length (List.filter is_save
             (trace (snd (epoch_body a val_ppl_of epoch s))))
   <= S (length (List.filter is_save (trace s))))%nat.
Proof.
  destruct (epoch_checkpoint_step a val_ppl_of epoch s) as (rest & -> & H).
  rewrite !List.filter_app, !length_app. simpl.
  destruct (flt (val_ppl_of epoch) (best_val_ppl s)).
  - destruct H as ((rest' & -> & Hr) & _). simpl. rewrite Hr. simpl. lia.
  - destruct H as (-> & _). simpl. lia.
Qed.

Lemma loop_saves_at_most_once (a : args) (val_ppl_of : Z -> pyfloat)
    (todo : list Z) (s : state) :
  (length (List.filter is_save
             (trace (snd (for_each todo (epoch_body a val_ppl_of) s))))
   <= length (List.filter is_save (trace s)) + length todo)%nat.
Proof.
  revert s. induction todo as [|epoch todo IH]; intros s; simpl.
  - lia.
  - pose proof (epoch_saves_at_most_once a val_ppl_of epoch s) as Hstep.
    unfold bind at 1.
    destruct (epoch_body a val_ppl_of epoch s) as [[e | u] s1]; simpl in *.
    + lia.
    + specialize (IH s1). lia.
Qed.


(** *** Invariants of the whole run *)

Ltac preserve leaf :=
  repeat first
    [ leaf
    | apply preserves_bind; [| intros ?]
    | apply preserves_if
    | apply preserves_for_each; intros ? ?
    | apply preserves_ret | apply preserves_raise | apply preserves_get
    | apply preserves_lift
    | match goal with
      | |- preserves _ (if decide ?c then _ else _) => destruct (decide c)
      end ].

Ltac unfold_main :=
  unfold main_ETM, define_checkpoint, train_branch, train_loop, reload,
    eval_branch.

Lemma preserves_load (P : state -> Prop) (p : string) :
  preserves P (emit (EvLoad p)) -> preserves P (load_ckpt p).
Proof.
  intros H s Hs. unfold load_ckpt. destruct (decide (p ∈ fs s)).
  - now apply H.
  - exact Hs.
Qed.

Section EvaluateLabel.
Lemma label_emit (ev : event) :
  evaluates_val ev -> preserves labelled (emit ev).
Proof.
  intros H s Hs. apply Forall_app. split; [exact Hs | now constructor].
Qed.

Lemma label_write (ev : event) (p : string) :
  evaluates_val ev -> preserves labelled (write_file ev p).
Proof.
  intros H s Hs. apply Forall_app. split; [exact Hs | now constructor].
Qed.

Lemma label_set_lr (v : pyfloat) : preserves labelled (set_lr v).
Proof. intros s Hs. apply Forall_app. split; [exact Hs | now constructor]. Qed.

Lemma label_start : preserves labelled start_training.
Proof. intros s Hs. exact Hs. Qed.

Lemma label_set_best (e : Z) (v : pyfloat) : preserves labelled (set_best e v).
Proof. intros s Hs. exact Hs. Qed.

Lemma label_append (v : pyfloat) : preserves labelled (append_ppl v).
Proof. intros s Hs. exact Hs. Qed.

Lemma label_main (a : args) (val_ppl_of : Z -> pyfloat) :
  preserves labelled (main_ETM a val_ppl_of).
Proof.
  unfold_main. unfold epoch_body.
  preserve ltac:(first
    [ apply label_set_lr | apply label_set_best | apply label_start
    | apply label_append
    | apply preserves_load
    | apply label_emit; simpl; auto
    | apply label_write; simpl; auto ]).
Qed.
End EvaluateLabel.

(** Two runs, event by event: three epochs of training with rising
    perplexities, and an evaluation of the checkpoint they leave. *)
Example train_mode_trace :
  trace (snd (main_ETM args_default ppl_rising (init args_default ∅)))
  = [EvMakeDirs "out";
     EvTrainForEpoch 0; EvEvaluate "val" 0 0; EvSave "out/m.pt" 0;
     EvTrainForEpoch 1; EvEvaluate "val" 0 0;
     EvTrainForEpoch 2; EvEvaluate "val" 0 0;
     EvSetLR (Fin ((5 # 1000) / 4));
     EvLoad "out/m.pt"; EvEvaluate "val" 0 0].
Proof. vm_compute. reflexivity. Qed.

Example eval_mode_trace :
  trace (snd (main_ETM args_eval ppl_rising
                (init args_eval disk_after_training)))
  = [EvLoad "out/m.pt"; EvEvaluate "val" 0 0; EvMostUsedTopics;
     EvShowTopics; EvSaveParameters "out/m.pt_parameters.pt"].
Proof. vm_compute. reflexivity. Qed.

(** C8. Every [model.evaluate] event of a run of [main_ETM], in train
    mode (after each epoch and after the final reload) and in the other
    mode, carries the label ['val']. *)
Theorem every_evaluate_is_val (a : args) (val_ppl_of : Z -> pyfloat)
    (existing : gset string) :
  Forall evaluates_val (trace (snd (main_ETM a val_ppl_of (init a existing)))).
Proof. apply label_main. constructor. Qed.


(** *** The learning rate *)

Lemma anneal_test_above_floor (a : args) (v : pyfloat)
    (history : list pyfloat) (cur : pyfloat) :
  anneal_test a v history cur = inr true -> fgt cur lr_floor = true.
Proof.
  unfold anneal_test.
  destruct (anneal_lr a =? 0); [discriminate|].
  destruct (negb _); [discriminate|].
  destruct (py_min _); [discriminate|].
  intros H. injection H as H. now apply andb_true_iff in H.
Qed.

(** What one iteration does to the learning rate and when. *)
Lemma epoch_lr_step (a : args) (val_ppl_of : Z -> pyfloat) (epoch : Z)
    (s : state) :
  let s' := snd (epoch_body a val_ppl_of epoch s) in
  exists rest,
    trace s' = trace s
               ++ [EvTrainForEpoch epoch; EvEvaluate "val" (tc a) (td a)]
               ++ rest
    /\ List.filter is_train rest = []
    /\ (opt_lr s' = opt_lr s
        \/ (fdiv (opt_lr s) (lr_factor a) = inr (opt_lr s')
            /\ fgt (opt_lr s) lr_floor = true
            /\ In (EvSetLR (opt_lr s')) rest)).
Proof.
  intros s'. subst s'.
  split_body a val_ppl_of epoch s;
    rewrite <- ?app_assoc; simpl;
    eexists; (split; [reflexivity|]); simpl;
    (split; [reflexivity|]); auto;
    right; apply anneal_test_above_floor in Hann; auto.
Qed.

Lemma epoch_lr_descends (a : args) (val_ppl_of : Z -> pyfloat) (epoch : Z)
    (s : state) :
  fle (Fin 1) (lr_factor a) = true ->
  descends (opt_lr (snd (epoch_body a val_ppl_of epoch s))) (opt_lr s).
Proof.
  intros Hf.
  destruct (epoch_lr_step a val_ppl_of epoch s) as (rest & _ & _ & H).
  destruct H as [-> | (Hd & Hfl & _)].
  - apply descends_refl.
  - eapply fdiv_descends; eauto.
Qed.

Section LearningRate.
Variable lr0 : pyfloat.

Lemma lr_emit (ev : event) : preserves (lr_from lr0) (emit ev).
Proof. intros s Hs. exact Hs. Qed.

Lemma lr_write (ev : event) (p : string) :
  preserves (lr_from lr0) (write_file ev p).
Proof. intros s Hs. exact Hs. Qed.

Lemma lr_start : preserves (lr_from lr0) start_training.
Proof. intros s Hs. exact Hs. Qed.

Lemma lr_body (a : args) (val_ppl_of : Z -> pyfloat) (epoch : Z) :
  fle (Fin 1) (lr_factor a) = true ->
  preserves (lr_from lr0) (epoch_body a val_ppl_of epoch).
Proof.
  intros Hf s Hs. unfold lr_from in *.
  eapply descends_trans; [|exact Hs]. now apply epoch_lr_descends.
Qed.

Lemma lr_main (a : args) (val_ppl_of : Z -> pyfloat) :
  fle (Fin 1) (lr_factor a) = true ->
  preserves (lr_from lr0) (main_ETM a val_ppl_of).
Proof.
  intros Hf. unfold_main.
  preserve ltac:(first
    [ apply lr_body; assumption | apply lr_start | apply preserves_load
    | apply lr_emit | apply lr_write ]).
Qed.
End LearningRate.

(** C7, as the code has it. The learning rate goes up when the factor
    is below one: with [lr_factor = 0.5] it is 0.005 at the start of
    this run and 0.01 at its end. *)
Lemma lr_increases_with_small_factor :
  let a := args_small_factor in
  let s' := snd (main_ETM a ppl_rising (init a ∅)) in
  fst (main_ETM a ppl_rising (init a ∅)) = inr tt
  /\ lr a = Fin (5 # 1000)
  /\ opt_lr s' = Fin (10 # 1000)
  /\ flt (lr a) (opt_lr s') = true.
Proof. vm_compute. repeat split; reflexivity. Qed.

(** C7, amended. With [lr_factor >= 1] the learning rate never goes up:
    an iteration of the epoch loop either keeps it or, after the
    epoch's training and evaluation passes and before the next training
    pass, replaces it by its quotient by [lr_factor], which is not above
    it; and at the end of a run it is not above the initial one. *)
Theorem lr_non_increasing (a : args) (val_ppl_of : Z -> pyfloat)
    (Hfactor : fle (Fin 1) (lr_factor a) = true) :
  (forall epoch s,
     let s' := snd (epoch_body a val_ppl_of epoch s) in
     (exists rest,
        trace s' = trace s
                   ++ [EvTrainForEpoch epoch; EvEvaluate "val" (tc a) (td a)]
                   ++ rest
        /\ List.filter is_train rest = []
        /\ (opt_lr s' = opt_lr s
            \/ (fdiv (opt_lr s) (lr_factor a) = inr (opt_lr s')
                /\ In (EvSetLR (opt_lr s')) rest)))
     /\ flt (opt_lr s) (opt_lr s') = false)
  /\ (forall existing,
        flt (lr a) (opt_lr (snd (main_ETM a val_ppl_of (init a existing))))
        = false).
Proof.
  split.
  - intros epoch s s'. split.
    + destruct (epoch_lr_step a val_ppl_of epoch s) as (rest & Ht & Hn & H).
      exists rest. repeat split; auto. destruct H as [H | (H1 & _ & H2)]; auto.
    + apply descends_not_above. now apply epoch_lr_descends.
  - intros existing. apply descends_not_above.
    apply (lr_main (lr a) a val_ppl_of Hfactor). apply descends_refl.
Qed.

Lemma lr_non_increasing_witness :
  fle (Fin 1) (lr_factor args_default) = true
  /\ flt (lr args_default)
         (opt_lr (snd (main_ETM args_default ppl_rising
                         (init args_default ∅)))) = false.
Proof.
  split; [reflexivity|].
  apply (lr_non_increasing args_default ppl_rising). reflexivity.
Defined.


(** *** The sentinel and the checkpoint *)

Lemma flt_below (v b c : pyfloat) :
  flt v b = true -> fle b c = true -> fle v c = true.
Proof.
  destruct v, b, c; simpl; try congruence.
  rewrite Qltb_lt, !Qle_bool_iff. intros H1 H2. lra.
Qed.

Lemma not_below_blocks (v best : pyfloat) :
  not_below_sentinel v -> fle best sentinel = true -> flt v best = false.
Proof.
  intros [H | ->] Hb; [|reflexivity].
  apply fle_not_flt. eapply fle_trans; eauto.
Qed.

Lemma string_length_append (s1 s2 : string) :
  String.length (s1 ++ s2) = (String.length s1 + String.length s2)%nat.
Proof. induction s1 as [|c s1 IH]; simpl; [reflexivity | now rewrite IH]. Qed.

Lemma ckpt_is_not_save_path (a : args) :
  mode a = "train"%string -> ckpt_path a <> save_path a.
Proof.
  intros Hm Heq. unfold ckpt_path in Heq. rewrite Hm in Heq. simpl in Heq.
  apply (f_equal String.length) in Heq.
  rewrite string_length_append in Heq. simpl in Heq. lia.
Qed.

Lemma filter_save_app (t1 t2 : list event) :
  List.filter is_save t1 = [] -> List.filter is_save t2 = [] ->
  List.filter is_save (t1 ++ t2) = [].
Proof. intros H1 H2. now rewrite List.filter_app, H1, H2. Qed.

Lemma not_in_added (x : event) (t evs : list event) :
  ~ In x t -> ~ In x evs -> ~ In x (t ++ evs).
Proof. rewrite in_app_iff. tauto. Qed.

Section OneEpoch.
Variables (a : args) (val_ppl_of : Z -> pyfloat) (e : Z) (p : string).
Hypothesis Hbad : not_below_sentinel (val_ppl_of e).

Lemma one_emit (ev : event) :
  is_save ev = false -> preserves (unsaved p e) (emit ev).
Proof.
  intros Hev s [H1 H2]. split; [exact H1|]. simpl.
  rewrite in_app_iff. intros [H | [H | []]]; [tauto|].
  subst ev. discriminate.
Qed.

Lemma one_write (ev : event) (q : string) :
  is_save ev = false -> preserves (unsaved p e) (write_file ev q).
Proof.
  intros Hev s [H1 H2]. split; [exact H1|]. simpl.
  rewrite in_app_iff. intros [H | [H | []]]; [tauto|].
  subst ev. discriminate.
Qed.

Lemma one_start : preserves (unsaved p e) start_training.
Proof.
  intros s [H1 H2]. split; [|exact H2]. simpl.
  apply Qle_bool_iff, Qle_refl.
Qed.

Lemma one_body (epoch : Z) :
  preserves (unsaved p e) (epoch_body a val_ppl_of epoch).
Proof.
  intros s [H1 H2]. unfold unsaved.
  assert (Hne : flt (val_ppl_of epoch) (best_val_ppl s) = true ->
                epoch <> e).
  { intros Hi ->. rewrite (not_below_blocks _ _ Hbad H1) in Hi.
    discriminate. }
  split_body a val_ppl_of epoch s;
    (split; [solve [eauto using flt_below] |]);
    rewrite <- ?app_assoc; apply not_in_added; auto;
    simpl; intros Hin;
    repeat (destruct Hin as [Hin | Hin]; try discriminate);
    try contradiction;
    injection Hin as _ He; now apply Hne.
Qed.

Lemma one_main : preserves (unsaved p e) (main_ETM a val_ppl_of).
Proof.
  unfold_main.
  preserve ltac:(first
    [ apply one_body | apply one_start | apply preserves_load
    | apply one_emit; reflexivity | apply one_write; reflexivity ]).
Qed.
End OneEpoch.

Section NoGoodEpoch.
Variables (a : args) (val_ppl_of : Z -> pyfloat) (existing : gset string).
Hypothesis Hmode : mode a = "train"%string.
Hypothesis Hbad :
  forall e, 0 <= e < epochs a -> not_below_sentinel (val_ppl_of e).

Lemma none_emit (ev : event) :
  is_save ev = false -> preserves (nothing_saved a existing) (emit ev).
Proof.
  intros Hev s (H1 & H2 & H3). repeat split; auto; try apply H3. simpl.
  apply filter_save_app; [exact H2|]. simpl. now rewrite Hev.
Qed.

Lemma none_start : preserves (nothing_saved a existing) start_training.
Proof.
  intros s (H1 & H2 & H3). repeat split; auto; apply H3.
Qed.

Lemma none_define : preserves (nothing_saved a existing) (define_checkpoint a).
Proof.
  intros s (H1 & H2 & H3). unfold define_checkpoint, bind, get.
  destruct (decide (save_path a ∈ fs s)); simpl.
  - repeat split; auto; apply H3.
  - split; [exact H1|]. split.
    + apply filter_save_app; [exact H2 | reflexivity].
    + pose proof (ckpt_is_not_save_path a Hmode) as Hne.
    simpl. rewrite elem_of_union, elem_of_singleton. tauto.
Qed.

Lemma in_py_range (n x : Z) : In x (py_range n) -> 0 <= x < n.
Proof.
  unfold py_range. rewrite in_map_iff. intros (k & <- & Hk).
  apply in_seq in Hk. lia.
Qed.

Lemma none_body (epoch : Z) :
  In epoch (py_range (epochs a)) ->
  preserves (nothing_saved a existing) (epoch_body a val_ppl_of epoch).
Proof.
  intros Hin s (H1 & H2 & H3). unfold nothing_saved.
  pose proof (not_below_blocks _ _ (Hbad epoch (in_py_range _ _ Hin)) H1)
    as Hno.
  split_body a val_ppl_of epoch s; try congruence;
    (split; [exact H1|]); (split; [|exact H3]);
    rewrite <- ?app_assoc; apply filter_save_app; auto.
Qed.

Lemma none_loop :
  (nothing_saved a existing) (snd (through_loop a val_ppl_of existing)).
Proof.
  unfold through_loop, train_loop.
  assert ((nothing_saved a existing) (init a existing)) as Hinit.
  { repeat split; auto. }
  revert Hinit. generalize (init a existing).
  change (preserves (nothing_saved a existing)
            (define_checkpoint a ;;
             start_training ;;
             for_each (py_range (epochs a)) (epoch_body a val_ppl_of))).
  preserve ltac:(first
    [ apply none_define | apply none_start
    | apply none_body; assumption ]).
Qed.

Lemma main_after_loop :
  main_ETM a val_ppl_of (init a existing)
  = match through_loop a val_ppl_of existing with
    | (inr _, s1) => reload a s1
    | (inl e, s1) => (inl e, s1)
    end.
Proof.
  unfold main_ETM, through_loop, train_branch. rewrite Hmode. simpl.
  unfold bind.
  destruct (define_checkpoint a (init a existing)) as [[e | u] s0];
    [reflexivity|].
  destruct (train_loop a val_ppl_of s0) as [[e | u'] s1]; reflexivity.
Qed.

Lemma none_main :
  let r := main_ETM a val_ppl_of (init a existing) in
  List.filter is_save (trace (snd r)) = []
  /\ (ckpt_path a ∉ existing ->
      fst r = match fst (through_loop a val_ppl_of existing) with
              | inl e => inl e
              | inr _ => inl FileNotFoundError
              end)
  /\ (ckpt_path a ∈ existing ->
      fst r = fst (through_loop a val_ppl_of existing)).
Proof.
  intros r. subst r. rewrite main_after_loop.
  pose proof none_loop as (H1 & H2 & H3).
  destruct (through_loop a val_ppl_of existing) as [[e | []] s1];
    simpl in *; [auto|].
  unfold reload, bind, load_ckpt.
  destruct (decide (ckpt_path a ∈ fs s1)) as [Hin | Hout]; simpl.
  - split; [apply filter_save_app; [|reflexivity];
            apply filter_save_app; auto |].
    split; [intros Hne; tauto | reflexivity].
  - split; [exact H2|]. split; [reflexivity | intros Hin; tauto].
Qed.
End NoGoodEpoch.

Lemma loop_without_epochs (a : args) (val_ppl_of : Z -> pyfloat)
    (existing : gset string) :
  epochs a <= 0 ->
  fst (through_loop a val_ppl_of existing) = inr tt
  /\ best_val_ppl (snd (through_loop a val_ppl_of existing)) = sentinel.
Proof.
  intros H. unfold through_loop, train_loop, py_range.
  replace (Z.to_nat (epochs a)) with 0%nat by lia.
  unfold define_checkpoint, get, bind. simpl.
  destruct (decide (save_path a ∈ existing)); split; reflexivity.
Qed.


Lemma ppl_never_good_bad (e : Z) : not_below_sentinel (ppl_never_good e).
Proof.
  unfold ppl_never_good. destruct (e =? 0); [left | right]; reflexivity.
Defined.


End DriverFacts.

(** ** Facts about [preprocessing] *)
Module CorpusFacts.
Import Py Preprocessing EffectFacts.
Local Open Scope nat_scope.

(** *** The two halves of a document *)

Lemma first_half_test (i n : nat) :
  Qle_bool (inject_Z (Z.of_nat i)) (inject_Z (Z.of_nat n) / 2 - 1)
  = (i <? n / 2).
Proof.
  pose proof (Nat.div_mod_eq n 2) as Hd.
  pose proof (Nat.mod_upper_bound n 2 ltac:(lia)) as Hm.
  destruct (i <? n / 2) eqn:E.
  - apply Nat.ltb_lt in E. apply Qle_bool_iff.
    unfold Qle, Qminus, Qdiv, Qplus, Qmult, Qinv, Qopp, inject_Z. simpl.
    rewrite ?Pos.mul_1_l, ?Pos.mul_1_r. lia.
  - apply Nat.ltb_ge in E.
    destruct (Qle_bool _ _) eqn:F; [|reflexivity].
    apply Qle_bool_iff in F.
    unfold Qle, Qminus, Qdiv, Qplus, Qmult, Qinv, Qopp, inject_Z in F.
    simpl in F. rewrite ?Pos.mul_1_l, ?Pos.mul_1_r in F. lia.
Qed.

Lemma second_half_test (i n : nat) :
  Qltb (inject_Z (Z.of_nat n) / 2 - 1) (inject_Z (Z.of_nat i))
  = negb (i <? n / 2).
Proof. unfold Qltb. now rewrite first_half_test. Qed.

Lemma enumerate_filter_lt {A} (l : list A) (n k : nat) :
  map snd (List.filter (fun iw : nat * A => iw.1 <? k)
             (imap (fun i w => (n + i, w)) l))
  = firstn (k - n) l.
Proof.
  revert n. induction l as [|x l IH]; intros n; simpl.
  - now rewrite firstn_nil.
  - rewrite Nat.add_0_r.
    destruct (n <? k) eqn:E; simpl;
      rewrite (imap_ext _ (fun i w => (S n + i, w)))
        by (intros; simpl; f_equal; lia);
      rewrite IH.
    + apply Nat.ltb_lt in E.
      replace (k - n) with (S (k - S n)) by lia. reflexivity.
    + apply Nat.ltb_ge in E.
      replace (k - n) with 0 by lia. replace (k - S n) with 0 by lia.
      reflexivity.
Qed.

Lemma enumerate_filter_ge {A} (l : list A) (n k : nat) :
  map snd (List.filter (fun iw : nat * A => negb (iw.1 <? k))
             (imap (fun i w => (n + i, w)) l))
  = skipn (k - n) l.
Proof.
  revert n. induction l as [|x l IH]; intros n; simpl.
  - now rewrite skipn_nil.
  - rewrite Nat.add_0_r.
    destruct (n <? k) eqn:E; simpl;
      rewrite (imap_ext _ (fun i w => (S n + i, w)))
        by (intros; simpl; f_equal; lia);
      rewrite IH.
    + apply Nat.ltb_lt in E.
      replace (k - n) with (S (k - S n)) by lia. reflexivity.
    + apply Nat.ltb_ge in E.
      replace (k - n) with 0 by lia. replace (k - S n) with 0 by lia.
      reflexivity.
Qed.

Lemma first_half_firstn (doc : list nat) :
  first_half doc = firstn (length doc / 2) doc.
Proof.
  unfold first_half, half_bound, enumerate.
  rewrite <- (Nat.sub_0_r (length doc / 2)).
  rewrite <- (enumerate_filter_lt doc 0). f_equal.
  apply List.filter_ext. intros [i w]. simpl. apply first_half_test.
Qed.

Lemma second_half_skipn (doc : list nat) :
  second_half doc = skipn (length doc / 2) doc.
Proof.
  unfold second_half, half_bound, enumerate.
  rewrite <- (Nat.sub_0_r (length doc / 2)).
  rewrite <- (enumerate_filter_ge doc 0). f_equal.
  apply List.filter_ext. intros [i w]. simpl. apply second_half_test.
Qed.

Lemma halves_partition (doc : list nat) :
  first_half doc ++ second_half doc = doc.
Proof.
  rewrite first_half_firstn, second_half_skipn. apply firstn_skipn.
Qed.

Lemma first_half_length (doc : list nat) :
  length (first_half doc) = length doc / 2.
Proof.
  rewrite first_half_firstn, length_firstn.
  pose proof (Nat.div_mod_eq (length doc) 2). lia.
Qed.

Lemma second_half_length (doc : list nat) :
  length (second_half doc) = length doc - length doc / 2.
Proof. rewrite second_half_skipn. apply length_skipn. Qed.


(** *** Results of fallible comprehensions *)

Lemma and_then_inr {A B} (r : exn + A) (k : A -> exn + B) (y : B) :
  and_then r k = inr y -> exists x, r = inr x /\ k x = inr y.
Proof. destruct r as [e | x]; simpl; [discriminate | eauto]. Qed.

Lemma map_sum_inr {A B} (f : A -> B) (r : exn + A) (y : B) :
  map_sum f r = inr y -> exists x, r = inr x /\ y = f x.
Proof.
  destruct r as [e | x]; simpl; [discriminate|].
  intros H. injection H as <-. eauto.
Qed.

Ltac invert_sum H :=
  cbv zeta in H;
  repeat match type of H with
  | and_then _ _ = inr _ =>
      let x := fresh "x" in let Hx := fresh "Hx" in
      apply and_then_inr in H; destruct H as (x & Hx & H)
  | map_sum _ _ = inr _ =>
      let x := fresh "x" in let Hx := fresh "Hx" in
      apply map_sum_inr in H; destruct H as (x & Hx & H)
  end.

Lemma mapE_inr {A B} (f : A -> exn + B) (l : list A) (ys : list B) :
  mapE f l = inr ys -> Forall2 (fun x y => f x = inr y) l ys.
Proof.
  revert ys. induction l as [|x l IH]; intros ys; simpl.
  - intros H. injection H as <-. constructor.
  - destruct (f x) as [e | y] eqn:Hf; [discriminate|].
    destruct (mapE f l) as [e | ys'] eqn:Hm; [discriminate|].
    intros H. injection H as <-. constructor; auto.
Qed.

Lemma mapE_Forall {A B} (f : A -> exn + B) (Q : B -> Prop) (l : list A)
    (ys : list B) :
  (forall x y, f x = inr y -> Q y) -> mapE f l = inr ys -> Forall Q ys.
Proof.
  intros Hf Hm. apply mapE_inr in Hm.
  induction Hm; constructor; eauto.
Qed.

Lemma gather_Forall {A B} (x : list A) (idx : list nat) (f : A -> exn + B)
    (Q : B -> Prop) (offset size : Z) (ys : list B) :
  (forall t y, f t = inr y -> Q y) ->
  gather x idx f offset size = inr ys -> Forall Q ys.
Proof.
  intros Hf. unfold gather. apply mapE_Forall.
  intros i y H. invert_sum H. eauto.
Qed.

(** *** Word ids *)

Lemma py_dict_from `{Countable K} {V} (pairs : list (K * V))
    (m : gmap K V) (k : K) (v : V) :
  fold_left (fun m kv => <[kv.1 := kv.2]> m) pairs m !! k = Some v ->
  m !! k = Some v \/ In (k, v) pairs.
Proof.
  revert m. induction pairs as [|[k' v'] pairs IH]; intros m; simpl.
  - auto.
  - intros Hl. apply IH in Hl as [Hl | Hl]; [|auto].
    destruct (decide (k' = k)) as [-> | Hne].
    + rewrite lookup_insert_eq in Hl. injection Hl as ->. auto.
    + rewrite lookup_insert_ne in Hl by assumption. auto.
Qed.

Lemma word2id_bound (vocab : list pystr) (w : pystr) (j : nat) :
  make_word2id vocab !! w = Some j -> j < length vocab.
Proof.
  unfold make_word2id, py_dict. intros Hl.
  apply py_dict_from in Hl as [Hl | Hl].
  - rewrite lookup_empty in Hl. discriminate.
  - apply in_map_iff in Hl as ([j' w'] & Heq & Hin).
    simpl in Heq. injection Heq as -> ->.
    rewrite <- list_elem_of_In in Hin. unfold enumerate in Hin.
    apply elem_of_lookup_imap in Hin as (i & y & Heq & Hi).
    injection Heq as -> ->. eapply lookup_lt_Some; eauto.
Qed.

Lemma doc_ids_bound (vocab : list pystr) (text : pystr) :
  Forall (fun w => w < length vocab) (doc_ids (make_word2id vocab) text).
Proof.
  apply Forall_forall. intros j Hj.
  unfold doc_ids in Hj. apply list_elem_of_omap in Hj as (w & _ & Hw).
  eapply word2id_bound; eauto.
Qed.

(** Every id of every document that [tokenize] returns is an index of
    the vocabulary it returns. *)
Lemma tokenize_ids (a : args) (x : extern) (timestamps cv : list pystr)
    (vocab : list pystr) (tr ts va : part) :
  tokenize a x timestamps cv = inr (vocab, tr, ts, va) ->
  let ok := Forall (Forall (fun w => w < length vocab)) in
  ok tr.1.1 /\ ok ts.1.1 /\ ok va.1.1.
Proof.
  unfold tokenize. intros H. invert_sum H.
  injection H as <- <- <- <-. simpl.
  repeat split;
    match goal with
    | Hg : gather _ _ _ _ _ = inr ?l |- Forall _ ?l =>
        eapply gather_Forall; [| exact Hg];
        intros t y Hy; injection Hy as <-; apply doc_ids_bound
    end.
Qed.

(** *** Removal of short documents *)

Lemma remove_empty_from_docs (ii : nat) (in_docs : list (list nat))
    (in_timestamps in_indices : list nat) (out : part) :
  remove_empty_from ii in_docs in_timestamps in_indices = inr out ->
  out.1.1 = List.filter nonempty in_docs.
Proof.
  revert ii out. induction in_docs as [|doc rest IH]; intros ii out; simpl.
  - intros H. now injection H as <-.
  - destruct doc as [|w doc]; simpl.
    + apply IH.
    + intros H. invert_sum H. subst out. simpl. f_equal. eapply IH; eauto.
Qed.

Lemma remove_by_threshold_from_docs (ii : nat) (in_docs : list (list nat))
    (in_timestamps in_indices : list nat) (thr : Z) (out : part) :
  remove_by_threshold_from ii in_docs in_timestamps in_indices thr = inr out ->
  out.1.1 = List.filter (fun doc => (thr <? Z.of_nat (length doc))%Z) in_docs.
Proof.
  revert ii out. induction in_docs as [|doc rest IH]; intros ii out; simpl.
  - intros H. now injection H as <-.
  - destruct (thr <? Z.of_nat (length doc))%Z.
    + intros H. invert_sum H. subst out. simpl. f_equal. eapply IH; eauto.
    + apply IH.
Qed.

Lemma filter_Forall_keep {A} (f : A -> bool) (Q : A -> Prop) (l : list A) :
  Forall Q l -> Forall Q (List.filter f l).
Proof.
  intros H. apply List.Forall_forall. intros x Hx.
  apply List.filter_In in Hx as [Hx _].
  eapply List.Forall_forall in H; eauto.
Qed.

Lemma filter_Forall_test {A} (f : A -> bool) (l : list A) :
  Forall (fun x => f x = true) (List.filter f l).
Proof.
  apply List.Forall_forall. intros x Hx. now apply List.filter_In in Hx.
Qed.

(** What [clean] keeps: non-empty train and validation documents, test
    documents with more than one word, nothing new. *)
Lemma clean_docs (tr ts va tr' ts' va' : part) :
  clean tr ts va = inr (tr', ts', va') ->
  tr'.1.1 = List.filter nonempty tr.1.1
  /\ ts'.1.1 = List.filter (fun doc => (1 <? Z.of_nat (length doc))%Z)
                 (List.filter nonempty ts.1.1)
  /\ va'.1.1 = List.filter nonempty va.1.1.
Proof.
  unfold clean, remove_empty, remove_by_threshold. intros H. invert_sum H.
  injection H as <- <- <-.
  repeat match goal with
  | Hr : remove_empty_from _ _ _ _ = inr _ |- _ =>
      apply remove_empty_from_docs in Hr
  | Hr : remove_by_threshold_from _ _ _ _ _ = inr _ |- _ =>
      apply remove_by_threshold_from_docs in Hr
  end.
  repeat split; congruence.
Qed.


(** *** Rows of the bag-of-words matrix *)

Lemma bump_weight (w : nat) (row : list (nat * nat)) (t : nat) :
  weight (bump w row) t = weight row t + (if t =? w then 1 else 0).
Proof.
  unfold weight. induction row as [|[c k] r IH]; simpl.
  - rewrite (Nat.eqb_sym w t). destruct (t =? w); reflexivity.
  - destruct (w <? c) eqn:Hlt; [|destruct (w =? c) eqn:Heq]; simpl.
    + rewrite (Nat.eqb_sym w t). destruct (t =? w), (c =? t); simpl; lia.
    + apply Nat.eqb_eq in Heq. subst c.
      rewrite (Nat.eqb_sym w t). destruct (t =? w); simpl; lia.
    + destruct (c =? t) eqn:Hct; simpl; rewrite IH; [|reflexivity].
      apply Nat.eqb_eq in Hct. subst c. lia.
Qed.

Lemma bump_keys (w : nat) (row : list (nat * nat)) (x : nat) :
  In x (map fst (bump w row)) <-> x = w \/ In x (map fst row).
Proof.
  induction row as [|[c k] r IH]; simpl.
  - intuition.
  - destruct (w <? c) eqn:Hlt; [|destruct (w =? c) eqn:Heq]; simpl.
    + intuition.
    + apply Nat.eqb_eq in Heq. subst c. intuition.
    + rewrite IH. intuition.
Qed.

Lemma bump_sorted (w : nat) (row : list (nat * nat)) :
  StronglySorted lt (map fst row) -> StronglySorted lt (map fst (bump w row)).
Proof.
  induction row as [|[c k] r IH]; simpl; intros Hs.
  - repeat constructor.
  - inversion Hs as [|? ? Hr Hall]; subst.
    destruct (w <? c) eqn:Hlt; [|destruct (w =? c) eqn:Heq]; simpl.
    + apply Nat.ltb_lt in Hlt. constructor; [exact Hs|].
      constructor; [exact Hlt|].
      eapply List.Forall_impl; [|exact Hall]. simpl. lia.
    + exact Hs.
    + apply Nat.ltb_ge in Hlt. apply Nat.eqb_neq in Heq.
      constructor; [now apply IH|].
      apply List.Forall_forall. intros x Hx.
      apply bump_keys in Hx as [-> | Hx]; [lia|].
      eapply List.Forall_forall in Hall; eauto.
Qed.

Lemma bump_positive (w : nat) (row : list (nat * nat)) :
  Forall (fun p : nat * nat => 1 <= p.2) row ->
  Forall (fun p : nat * nat => 1 <= p.2) (bump w row).
Proof.
  induction row as [|[c k] r IH]; simpl; intros Hp.
  - repeat constructor.
  - inversion Hp; subst.
    destruct (w <? c); [|destruct (w =? c)];
      repeat constructor; simpl in *; auto; lia.
Qed.

Lemma bump_total (w : nat) (row : list (nat * nat)) :
  list_sum (map snd (bump w row)) = S (list_sum (map snd row)).
Proof.
  induction row as [|[c k] r IH]; simpl.
  - reflexivity.
  - destruct (w <? c); [|destruct (w =? c)]; simpl; lia.
Qed.

Lemma fold_bump (more doc : list nat) (row : list (nat * nat)) :
  row_of doc row ->
  row_of (doc ++ more) (fold_left (fun r w => bump w r) more row).
Proof.
  revert doc row. induction more as [|w more IH]; intros doc row Hr; simpl.
  - now rewrite app_nil_r.
  - replace (doc ++ w :: more) with ((doc ++ [w]) ++ more)
      by now rewrite <- app_assoc.
    apply IH. destruct Hr as [Hw Hk Hs Hp Ht]. constructor.
    + intros t. rewrite bump_weight, Hw, count_occ_app. simpl.
      destruct (Nat.eq_dec w t) as [-> | Hne].
      * now rewrite Nat.eqb_refl.
      * assert ((t =? w) = false) as -> by (apply Nat.eqb_neq; congruence).
        reflexivity.
    + intros t Ht'. apply bump_keys in Ht' as [-> | Ht'];
        apply in_or_app; simpl; auto.
    + now apply bump_sorted.
    + now apply bump_positive.
    + rewrite bump_total, Ht, length_app. simpl. lia.
Qed.

Lemma sum_duplicates_row (doc : list nat) : row_of doc (sum_duplicates doc).
Proof.
  unfold sum_duplicates. apply (fold_bump doc [] []).
  constructor; simpl; auto; constructor.
Qed.

Lemma filter_none {A} (f : A -> bool) (l : list A) :
  (forall x, In x l -> f x = false) -> List.filter f l = [].
Proof.
  induction l as [|x l IH]; simpl; intros H; [reflexivity|].
  rewrite (H x) by auto. apply IH. auto.
Qed.

Lemma sorted_keys_weight (row : list (nat * nat)) (t c : nat) :
  StronglySorted lt (map fst row) -> In (t, c) row -> weight row t = c.
Proof.
  unfold weight. induction row as [|[t' c'] r IH]; simpl; intros Hs Hin.
  - contradiction.
  - inversion Hs as [|? ? Hr Hall]; subst.
    destruct Hin as [Heq | Hin].
    + injection Heq as -> ->. rewrite Nat.eqb_refl. simpl.
      rewrite filter_none; [simpl; lia|].
      intros [x k] Hx. simpl. apply Nat.eqb_neq.
      eapply List.Forall_forall in Hall; [|apply in_map_iff; eexists; eauto].
      simpl in Hall. lia.
    + assert (t' < t) as Hlt.
      { eapply List.Forall_forall in Hall;
          [|apply in_map_iff; exists (t, c); eauto]. exact Hall. }
      assert ((t' =? t) = false) as -> by (apply Nat.eqb_neq; lia).
      now apply IH.
Qed.

(** An entry of the row of a document: the word occurs in the document
    and the value is the number of its occurrences. *)
Lemma sum_duplicates_entry (doc : list nat) (t c : nat) :
  In (t, c) (sum_duplicates doc) ->
  In t doc /\ 1 <= c /\ c = count_occ Nat.eq_dec doc t.
Proof.
  intros Hin. destruct (sum_duplicates_row doc) as [Hw Hk Hs Hp _].
  split; [|split].
  - apply Hk. apply in_map_iff. exists (t, c). auto.
  - eapply List.Forall_forall in Hp; eauto. exact Hp.
  - rewrite <- Hw. symmetry. now apply sorted_keys_weight.
Qed.


(** *** From the documents to the matrix and back *)

Lemma doc_indices_from_cons (n : nat) (doc : list nat)
    (rest : list (list nat)) :
  doc_indices_from n (doc :: rest)
  = repeat n (length doc) ++ doc_indices_from (S n) rest.
Proof.
  unfold doc_indices_from. simpl. rewrite Nat.add_0_r. f_equal. f_equal.
  apply imap_ext. intros. simpl. f_equal. lia.
Qed.

Lemma doc_indices_from_length (n : nat) (in_docs : list (list nat)) :
  length (doc_indices_from n in_docs) = length (concat in_docs).
Proof.
  revert n. induction in_docs as [|doc rest IH]; intros n.
  - reflexivity.
  - rewrite doc_indices_from_cons. simpl.
    rewrite !length_app, repeat_length, IH. reflexivity.
Qed.

Lemma row_cols_app (d : nat) (i1 i2 w1 w2 : list nat) :
  length i1 = length w1 ->
  row_cols d (i1 ++ i2) (w1 ++ w2) = row_cols d i1 w1 ++ row_cols d i2 w2.
Proof.
  intros Hl. unfold row_cols.
  revert w1 Hl. induction i1 as [|i i1 IH]; intros [|w w1] Hl;
    simpl in *; try discriminate; [reflexivity|].
  destruct (i =? d); simpl; rewrite IH by lia; reflexivity.
Qed.

Lemma row_cols_repeat (d n : nat) (doc : list nat) :
  row_cols d (repeat n (length doc)) doc = if n =? d then doc else [].
Proof.
  unfold row_cols. induction doc as [|w doc IH]; simpl.
  - now destruct (n =? d).
  - destruct (n =? d) eqn:E; simpl; rewrite IH; reflexivity.
Qed.

Lemma row_cols_below (d n : nat) (in_docs : list (list nat)) :
  d < n -> row_cols d (doc_indices_from n in_docs) (concat in_docs) = [].
Proof.
  revert n. induction in_docs as [|doc rest IH]; intros n Hd.
  - reflexivity.
  - rewrite doc_indices_from_cons. simpl.
    rewrite row_cols_app by apply repeat_length.
    rewrite row_cols_repeat, IH by lia.
    assert ((n =? d) = false) as -> by (apply Nat.eqb_neq; lia).
    reflexivity.
Qed.

Lemma rows_of_docs {B} (f : list nat -> B) (n : nat)
    (in_docs : list (list nat)) :
  map (fun d => f (row_cols d (doc_indices_from n in_docs) (concat in_docs)))
      (seq n (length in_docs))
  = map f in_docs.
Proof.
  revert n. induction in_docs as [|doc rest IH]; intros n.
  - reflexivity.
  - simpl. f_equal.
    + rewrite doc_indices_from_cons.
      rewrite row_cols_app by apply repeat_length.
      rewrite row_cols_repeat, Nat.eqb_refl, row_cols_below by lia.
      now rewrite app_nil_r.
    + rewrite <- (IH (S n)). apply map_ext_in. intros d Hd. apply in_seq in Hd.
      rewrite doc_indices_from_cons.
      rewrite row_cols_app by apply repeat_length.
      rewrite row_cols_repeat.
      assert ((n =? d) = false) as -> by (apply Nat.eqb_neq; lia).
      reflexivity.
Qed.

Lemma create_bow_rows (in_docs : list (list nat)) (vocab_size : nat)
    (bow : csr) :
  create_bow (create_doc_indices in_docs) (create_list_words in_docs)
    (length in_docs) vocab_size = inr bow ->
  bow = map sum_duplicates in_docs.
Proof.
  unfold create_bow. destruct (negb _); [discriminate|].
  destruct (_ && _); [|discriminate].
  intros H. injection H as <-.
  apply (rows_of_docs sum_duplicates 0).
Qed.

Lemma py_index_nat {A} (l : list A) (i : nat) (x : A) :
  py_index l (Z.of_nat i) = inr x -> l !! i = Some x.
Proof.
  unfold py_index.
  assert ((Z.of_nat i <? 0)%Z = false) as -> by (apply Z.ltb_ge; lia).
  destruct (_ && _); [|discriminate].
  rewrite Nat2Z.id. destruct (l !! i); [|discriminate].
  intros H. now injection H as <-.
Qed.

Lemma mapE_rows {A B} (f : A -> B) (l : list A) (n : nat) (ys : list B) :
  mapE (fun d => map_sum f (py_index l (Z.of_nat d))) (seq n (length l - n))
  = inr ys ->
  ys = map f (skipn n l).
Proof.
  remember (length l - n) as k eqn:Hk. revert n ys Hk.
  induction k as [|k IH]; intros n ys Hk; simpl.
  - intros H. injection H as <-. rewrite skipn_all2 by lia. reflexivity.
  - destruct (map_sum f (py_index l (Z.of_nat n))) as [e | y] eqn:Hy;
      [discriminate|].
    destruct (mapE _ (seq (S n) k)) as [e | ys'] eqn:Hm; [discriminate|].
    intros H. injection H as <-.
    apply map_sum_inr in Hy as (row & Hrow & ->).
    apply py_index_nat in Hrow.
    apply IH in Hm; [|lia]. subst ys'.
    rewrite (drop_S l row n Hrow). reflexivity.
Qed.

Lemma split_bow_rows (bow : csr) (tokens counts : list (list nat)) :
  split_bow bow (length bow) = inr (tokens, counts) ->
  tokens = map (map fst) bow /\ counts = map (map snd) bow.
Proof.
  unfold split_bow. intros H. invert_sum H. injection H as <- <-.
  rewrite <- (Nat.sub_0_r (length bow)) in Hx, Hx0.
  apply mapE_rows in Hx, Hx0. now subst.
Qed.

Lemma bow_of_docs (in_docs : list (list nat)) (vocab_size : nat)
    (bow : csr) (b : list (list nat) * list (list nat)) :
  create_bow (create_doc_indices in_docs) (create_list_words in_docs)
    (length in_docs) vocab_size = inr bow ->
  split_bow bow (length in_docs) = inr b ->
  bow_of in_docs b.1 b.2.
Proof.
  intros Hc Hs. apply create_bow_rows in Hc. subst bow.
  destruct b as [tokens counts].
  rewrite <- (length_map sum_duplicates) in Hs.
  apply split_bow_rows in Hs as [-> ->].
  unfold bow_of. simpl. now rewrite !map_map.
Qed.


(** *** Reading a successful run backwards *)

Ltac invert_bind H :=
  cbv zeta in H;
  repeat match type of H with
  | bind _ _ _ = (inr _, _) =>
      let x := fresh "x" in let s1 := fresh "s" in let Hx := fresh "Hx" in
      apply bind_inr in H; destruct H as (x & s1 & Hx & H);
      try apply lift_inr in Hx; cbv zeta in H
  end.

Lemma save_result (ext : extern) (ps : string) (V : list pystr)
    (tr ts va : part) (d d' : disk) (r : result) :
  save ext ps V tr ts va d = (inr r, d') ->
  vocab r = V
  /\ docs_tr r = tr.1.1 /\ docs_ts r = ts.1.1 /\ docs_va r = va.1.1
  /\ docs_ts_h1 r = map first_half (docs_ts r)
  /\ docs_ts_h2 r = map second_half (docs_ts r)
  /\ n_docs_ts r = length (docs_ts r)
  /\ n_docs_ts_h1 r = length (docs_ts_h1 r)
  /\ n_docs_ts_h2 r = length (docs_ts_h2 r)
  /\ bow_of (docs_tr r) (bow_tr_tokens r) (bow_tr_counts r)
  /\ bow_of (docs_ts r) (bow_ts_tokens r) (bow_ts_counts r)
  /\ bow_of (docs_ts_h1 r) (bow_ts_h1_tokens r) (bow_ts_h1_counts r)
  /\ bow_of (docs_ts_h2 r) (bow_ts_h2_tokens r) (bow_ts_h2_counts r)
  /\ bow_of (docs_va r) (bow_va_tokens r) (bow_va_counts r).
Proof.
  unfold save. intros H. invert_bind H.
  unfold ret in H. injection H as <- _. simpl.
  repeat split; eauto using bow_of_docs;
    eapply bow_of_docs; eauto.
Qed.

Lemma preprocessing_stages (a : args) (x : extern) (d : disk) (r : result) :
  (preprocessing a x d).1 = inr r ->
  (path_save a ∉ fs d)
  /\ exists timestamps cv c k d1 d2,
       check_timestamps a = inr timestamps
       /\ cv_words x = inr cv
       /\ tokenize a x timestamps cv = inr c
       /\ clean c.1.1.2 c.1.2 c.2 = inr k
       /\ save x (path_save a) c.1.1.1 k.1.1 k.1.2 k.2 d1 = (inr r, d2).
Proof.
  intros H.
  destruct (preprocessing a x d) as [res d2] eqn:Hp. simpl in H. subst res.
  unfold preprocessing in Hp. invert_bind Hp.
  injection Hx as <-.
  destruct (decide (path_save a ∈ fs d)) as [Hin | Hout];
    [discriminate|].
  split; [exact Hout|]. do 6 eexists. repeat split; eassumption.
Qed.

(** Everything later statements need to know about a run that
    returned. *)
Lemma preprocessing_shape (a : args) (x : extern) (d : disk) (r : result) :
  (preprocessing a x d).1 = inr r ->
  let ok := Forall (Forall (fun w => w < length (vocab r))) in
  (ok (docs_tr r) /\ ok (docs_ts r) /\ ok (docs_va r))
  /\ (Forall (fun doc => nonempty doc = true) (docs_tr r)
      /\ Forall (fun doc => (1 <? Z.of_nat (length doc))%Z = true) (docs_ts r)
      /\ Forall (fun doc => nonempty doc = true) (docs_va r))
  /\ docs_ts_h1 r = map first_half (docs_ts r)
  /\ docs_ts_h2 r = map second_half (docs_ts r)
  /\ n_docs_ts r = length (docs_ts r)
  /\ n_docs_ts_h1 r = length (docs_ts_h1 r)
  /\ n_docs_ts_h2 r = length (docs_ts_h2 r)
  /\ bow_of (docs_tr r) (bow_tr_tokens r) (bow_tr_counts r)
  /\ bow_of (docs_ts r) (bow_ts_tokens r) (bow_ts_counts r)
  /\ bow_of (docs_ts_h1 r) (bow_ts_h1_tokens r) (bow_ts_h1_counts r)
  /\ bow_of (docs_ts_h2 r) (bow_ts_h2_tokens r) (bow_ts_h2_counts r)
  /\ bow_of (docs_va r) (bow_va_tokens r) (bow_va_counts r).
Proof.
  intros H ok.
  apply preprocessing_stages in H
    as (_ & timestamps & cv & c & k & d1 & d2 & _ & _ & Htok & Hclean & Hsave).
  destruct c as [[[V tr] ts] va]. destruct k as [[tr' ts'] va'].
  simpl in *.
  apply tokenize_ids in Htok as (Htr & Hts & Hva).
  apply clean_docs in Hclean as (Etr & Ets & Eva).
  apply save_result in Hsave
    as (EV & Etr' & Ets' & Eva' & Hrest).
  subst ok. rewrite EV, Etr', Ets', Eva', Etr, Ets, Eva.
  split; [|split].
  - repeat split; repeat apply filter_Forall_keep; assumption.
  - repeat split; apply filter_Forall_test.
  - rewrite <- Etr, <- Ets, <- Eva, <- Etr', <- Ets', <- Eva'. exact Hrest.
Qed.



(** *** The statements about [preprocessing] *)

(** C9. When the output folder already exists the call raises
    [ValueError] and the disk is as before: nothing created, nothing
    written. *)
Theorem existing_folder_raises (a : args) (x : extern) (d : disk)
    (Hexists : path_save a ∈ fs d) :
  preprocessing a x d = (inl ValueError, d).
Proof.
  unfold preprocessing, bind, get.
  destruct (decide (path_save a ∈ fs d)); [reflexivity | contradiction].
Qed.

Lemma existing_folder_raises_witness :
  preprocessing (example_args well_formed_split) example_extern
    {| fs := {[ "./out/"%string ]}; ops := [] |}
  = (inl ValueError, {| fs := {[ "./out/"%string ]}; ops := [] |}).
Proof.
  apply existing_folder_raises. vm_compute. set_solver.
Defined.

(** C3, as the code has it. A [data_split] with a negative entry, and
    one whose entries sum to 3/4, are accepted: the run returns and
    writes every file. *)
Lemma malformed_split_runs :
  let run ds := preprocessing (example_args ds) example_extern (start ∅) in
  returned (run negative_split).1 = true
  /\ ops (run negative_split).2 = all_files
  /\ returned (run short_split).1 = true
  /\ ops (run short_split).2 = all_files.
Proof. vm_compute. repeat split; reflexivity. Qed.

(** *** The sizes of the three sets *)

Lemma py_range_length (n : Z) : length (py_range n) = Z.to_nat n.
Proof. unfold py_range. now rewrite length_map, length_seq. Qed.

Lemma gather_length {A B} (x : list A) (idx : list nat) (f : A -> exn + B)
    (offset size : Z) (ys : list B) :
  gather x idx f offset size = inr ys -> length ys = Z.to_nat size.
Proof.
  unfold gather. intros H. apply mapE_inr, Forall2_length in H.
  now rewrite <- H, py_range_length.
Qed.

Lemma int_floor_inr (f : pyfloat) (z : Z) :
  int_floor f = inr z ->
  exists q, f = Fin q /\ (inject_Z z <= q < inject_Z z + 1)%Q.
Proof.
  destruct f as [q | | |]; simpl; try discriminate.
  intros H. injection H as <-. exists q. split; [reflexivity|].
  split; [apply Qfloor_le|].
  pose proof (Qlt_floor q) as Hlt. rewrite inject_Z_plus in Hlt. exact Hlt.
Qed.

Lemma int_floor_inl (f : pyfloat) (e : exn) :
  int_floor f = inl e -> e = ValueError \/ e = OverflowError.
Proof. destruct f; simpl; intros H; inversion H; auto. Qed.

Lemma float_times_finite (x : extern) (p : pyfloat) (n : Z) (q : Q) :
  float_times x p n = Fin q ->
  exists p0, p = Fin p0 /\ to_double x (p0 * inject_Z n) = Fin q.
Proof.
  destruct p as [p0 | | |]; simpl; [eauto | | | discriminate];
    destruct (n =? 0)%Z, (0 <? n)%Z; discriminate.
Qed.

(** What [split_sizes] returns: the first two entries of [data_split]
    are finite, and each of the first two sizes is the floor of the
    double the product with the number of documents is rounded to. *)
Lemma split_sizes_inr (a : args) (x : extern) (trSize tsSize vaSize : Z) :
  split_sizes a x = inr (trSize, tsSize, vaSize) ->
  let n := Z.of_nat (length (docs a)) in
  exists p0 p1 q0 q1,
    data_split a !! 0 = Some (Fin p0) /\ data_split a !! 1 = Some (Fin p1)
    /\ to_double x (p0 * inject_Z n) = Fin q0
    /\ to_double x (p1 * inject_Z n) = Fin q1
    /\ (inject_Z trSize <= q0 < inject_Z trSize + 1)%Q
    /\ (inject_Z tsSize <= q1 < inject_Z tsSize + 1)%Q
    /\ vaSize = (n - trSize - tsSize)%Z.
Proof.
  intros H n. subst n. unfold split_sizes in H. invert_sum H.
  injection H as <- <- <-.
  apply (py_index_nat _ 0) in Hx. apply (py_index_nat _ 1) in Hx1.
  apply int_floor_inr in Hx0 as (q0 & F0 & B0).
  apply int_floor_inr in Hx2 as (q1 & F1 & B1).
  apply float_times_finite in F0 as (p0 & -> & T0).
  apply float_times_finite in F1 as (p1 & -> & T1).
  exists p0, p1, q0, q1. auto 10.
Qed.

(** When it raises: [IndexError] for a [data_split] of fewer than two
    entries, [ValueError] for a product that is not a number,
    [OverflowError] for an infinite one. *)
Lemma split_sizes_inl (a : args) (x : extern) (e : exn) :
  split_sizes a x = inl e ->
  e = IndexError \/ e = ValueError \/ e = OverflowError.
Proof.
  unfold split_sizes. cbv zeta.
  destruct (py_index (data_split a) 0) as [e1 | ds0] eqn:E0;
    cbn [and_then].
  { intros H. injection H as <-. left.
    unfold py_index in E0. destruct (_ && _) in E0; [|congruence].
    destruct (_ !! _) in E0; congruence. }
  destruct (int_floor (float_times x ds0 _)) as [e1 | trSize] eqn:F0;
    cbn [and_then].
  { intros H. injection H as <-. right. now apply int_floor_inl in F0. }
  destruct (py_index (data_split a) 1) as [e1 | ds1] eqn:E1;
    cbn [and_then].
  { intros H. injection H as <-. left.
    unfold py_index in E1. destruct (_ && _) in E1; [|congruence].
    destruct (_ !! _) in E1; congruence. }
  destruct (int_floor (float_times x ds1 _)) as [e1 | tsSize] eqn:F1;
    cbn [and_then].
  { intros H. injection H as <-. right. now apply int_floor_inl in F1. }
  discriminate.
Qed.

(** The three sets [tokenize] returns have the sizes of lines 83 to
    85, a negative size counting as zero. *)
Lemma tokenize_sizes (a : args) (x : extern) (tms cv : list pystr)
    (V : list pystr) (tr ts va : part) :
  tokenize a x tms cv = inr (V, tr, ts, va) ->
  exists trSize tsSize vaSize,
    split_sizes a x = inr (trSize, tsSize, vaSize)
    /\ length tr.1.1 = Z.to_nat trSize
    /\ length ts.1.1 = Z.to_nat tsSize
    /\ length va.1.1 = Z.to_nat vaSize.
Proof.
  unfold tokenize. intros H. invert_sum H.
  injection H as <- <- <- <-. destruct x0 as [[trSize tsSize] vaSize].
  exists trSize, tsSize, vaSize. simpl in *.
  split; [assumption|].
  repeat split; eapply gather_length; eassumption.
Qed.

(** Nothing but the first two entries of [data_split] is read. *)
Lemma split_sizes_reads_two (a a' : args) (x : extern) :
  docs a = docs a' ->
  py_index (data_split a) 0 = py_index (data_split a') 0 ->
  py_index (data_split a) 1 = py_index (data_split a') 1 ->
  split_sizes a x = split_sizes a' x.
Proof.
  intros Hdocs H0 H1. unfold split_sizes. now rewrite Hdocs, H0, H1.
Qed.

Lemma tokenize_split_raises (a : args) (x : extern) (tms cv : list pystr)
    (e : exn) :
  split_sizes a x = inl e -> tokenize a x tms cv = inl e.
Proof. intros H. unfold tokenize. now rewrite H. Qed.

(** C3, amended. [preprocessing] does not validate [data_split]. It
    reads the first two entries only, so two calls that agree on them
    and on the other arguments do the same, whatever the entries sum
    to and whatever follows them. A run that returns has cut, before
    the removal of short documents, a train set of [trSize] documents,
    a test set of [tsSize] and a validation set of
    [num_docs - trSize - tsSize] (none when the number is negative),
    where [trSize] and [tsSize] are the floors of the doubles that
    [data_split[0] * num_docs] and [data_split[1] * num_docs] are
    rounded to. And a [data_split] from which the sizes cannot be
    computed does not stop the call at its start: once the folder has
    been created and the vectorizer has run, the call raises
    [IndexError], [ValueError] or [OverflowError], leaving the empty
    folder behind. *)
Theorem data_split_not_validated (a : args) (x : extern) (d : disk) :
  let n := Z.of_nat (length (docs a)) in
  (forall a',
     data_path a = data_path a' -> docs a = docs a' ->
     timestamps a = timestamps a' -> stopwords a = stopwords a' ->
     py_index (data_split a) 0 = py_index (data_split a') 0 ->
     py_index (data_split a) 1 = py_index (data_split a') 1 ->
     preprocessing a x d = preprocessing a' x d)
  /\ (forall r,
        (preprocessing a x d).1 = inr r ->
        exists p0 p1 q0 q1 trSize tsSize tms cv V tr ts va,
          data_split a !! 0 = Some (Fin p0)
          /\ data_split a !! 1 = Some (Fin p1)
          /\ to_double x (p0 * inject_Z n) = Fin q0
          /\ to_double x (p1 * inject_Z n) = Fin q1
          /\ (inject_Z trSize <= q0 < inject_Z trSize + 1)%Q
          /\ (inject_Z tsSize <= q1 < inject_Z tsSize + 1)%Q
          /\ check_timestamps a = inr tms /\ cv_words x = inr cv
          /\ tokenize a x tms cv = inr (V, tr, ts, va)
          /\ length tr.1.1 = Z.to_nat trSize
          /\ length ts.1.1 = Z.to_nat tsSize
          /\ length va.1.1 = Z.to_nat (n - trSize - tsSize)
          /\ docs_tr r = List.filter nonempty tr.1.1
          /\ docs_ts r
             = List.filter (fun doc => (1 <? Z.of_nat (length doc))%Z)
                 (List.filter nonempty ts.1.1)
          /\ docs_va r = List.filter nonempty va.1.1)
  /\ (forall e tms cv,
        path_save a ∉ fs d -> makedirs_error x = None ->
        check_timestamps a = inr tms -> cv_words x = inr cv ->
        split_sizes a x = inl e ->
        (e = IndexError \/ e = ValueError \/ e = OverflowError)
        /\ preprocessing a x d
           = (inl e, {| fs := {[ path_save a ]} ∪ (makedirs_also x ∪ fs d);
                        ops := ops d ++ [OpMakeDirs (path_save a)] |})).
Proof.
  intros n. subst n. split; [|split].
  - intros a' Hpath Hdocs Htimes Hstop Hfirst Hsecond.
    pose proof (split_sizes_reads_two a a' x Hdocs Hfirst Hsecond) as Hsz.
    unfold preprocessing, tokenize, check_timestamps, path_save.
    rewrite Hsz, Hpath, Hdocs, Htimes, Hstop. reflexivity.
  - intros r Hrun.
    apply preprocessing_stages in Hrun
      as (_ & tms & cv & c & k & d1 & d2 & Hct & Hcv & Htok & Hclean
          & Hsave).
    destruct c as [[[V tr] ts] va]. destruct k as [[tr' ts'] va'].
    simpl in *.
    destruct (tokenize_sizes _ _ _ _ _ _ _ _ Htok)
      as (trSize & tsSize & vaSize & Hsz & Ltr & Lts & Lva).
    destruct (split_sizes_inr _ _ _ _ _ Hsz)
      as (p0 & p1 & q0 & q1 & E0 & E1 & T0 & T1 & B0 & B1 & ->).
    apply clean_docs in Hclean as (Etr & Ets & Eva).
    apply save_result in Hsave as (_ & Etr' & Ets' & Eva' & _).
    simpl in *.
    exists p0, p1, q0, q1, trSize, tsSize, tms, cv, V, tr, ts, va.
    rewrite Etr', Ets', Eva', Etr, Ets, Eva. auto 20.
  - intros e tms cv Hnew Hmk Hct Hcv Hsz.
    split; [now apply split_sizes_inl in Hsz|].
    unfold preprocessing.
    rewrite (bind_of_inr get _ d d d eq_refl). cbv beta.
    destruct (decide (path_save a ∈ fs d)); [contradiction|].
    rewrite (bind_of_inr (makedirs x (path_save a)) _ d
               {| fs := {[ path_save a ]} ∪ (makedirs_also x ∪ fs d);
                  ops := ops d ++ [OpMakeDirs (path_save a)] |} tt)
      by (unfold makedirs; now rewrite Hmk).
    cbv beta.
    rewrite (bind_of_inr (lift (check_timestamps a)) _ _ _ tms)
      by (unfold lift; now rewrite Hct).
    cbv beta.
    rewrite (bind_of_inr (lift (cv_words x)) _ _ _ cv)
      by (unfold lift; now rewrite Hcv).
    cbv beta.
    apply bind_of_inl. unfold lift.
    now rewrite (tokenize_split_raises a x tms cv e Hsz).
Qed.

Lemma data_split_not_validated_witness :
  preprocessing (example_args negative_split) example_extern (start ∅)
  = preprocessing (example_args well_formed_split) example_extern (start ∅).
Proof.
  apply (data_split_not_validated (example_args negative_split)
           example_extern (start ∅)); reflexivity.
Defined.

(** C4. In a run that returns, the lists of first halves and of second
    halves have as many documents as the test set, in memory and in the
    saved artifacts, and at every position the first half followed by
    the second half is the test document. *)
Theorem test_halves_partition (a : args) (x : extern) (d : disk)
    (r : result) (Hrun : (preprocessing a x d).1 = inr r) :
  (n_docs_ts_h1 r = n_docs_ts r /\ n_docs_ts_h2 r = n_docs_ts r)
  /\ (length (docs_ts_h1 r) = length (docs_ts r)
      /\ length (docs_ts_h2 r) = length (docs_ts r))
  /\ (length (bow_ts_h1_tokens r) = length (bow_ts_tokens r)
      /\ length (bow_ts_h2_tokens r) = length (bow_ts_tokens r)
      /\ length (bow_ts_h1_counts r) = length (bow_ts_counts r)
      /\ length (bow_ts_h2_counts r) = length (bow_ts_counts r))
  /\ forall i doc,
       docs_ts r !! i = Some doc ->
       exists h1 h2,
         docs_ts_h1 r !! i = Some h1 /\ docs_ts_h2 r !! i = Some h2
         /\ h1 ++ h2 = doc.
Proof.
  apply preprocessing_shape in Hrun
    as (_ & _ & E1 & E2 & N & N1 & N2 & _ & [T C] & [T1 C1] & [T2 C2] & _).
  rewrite N, N1, N2, T, C, T1, C1, T2, C2, E1, E2.
  rewrite !length_map. repeat split.
  intros i doc Hi. exists (first_half doc), (second_half doc).
  rewrite !list_lookup_fmap, Hi. simpl.
  repeat split. apply halves_partition.
Qed.

Lemma test_halves_partition_witness :
  exists r, example_run.1 = inr r
            /\ length (docs_ts_h1 r) = length (docs_ts r).
Proof.
  eexists. split; [vm_compute; reflexivity|].
  eapply (test_halves_partition (example_args well_formed_split)
            example_extern (start ∅)).
  vm_compute. reflexivity.
Defined.

Lemma nonempty_length (doc : list nat) : nonempty doc = true -> 1 <= length doc.
Proof. destruct doc; simpl; [discriminate | lia]. Qed.

Lemma bow_of_totals (n : nat) (in_docs tokens counts : list (list nat)) :
  Forall (fun doc => n <= length doc) in_docs ->
  bow_of in_docs tokens counts ->
  Forall (fun row => n <= list_sum row) counts.
Proof.
  intros Hd [_ ->]. apply Forall_fmap.
  eapply List.Forall_impl; [|exact Hd]. intros doc Hdoc. simpl.
  now rewrite (row_total _ _ (sum_duplicates_row doc)).
Qed.

(** C5. In a run that returns, every train and validation document has
    at least one word, every test document has at least two, both halves
    of every test document have at least one, and the counts saved for
    each of these documents add up to as much. *)
Theorem saved_documents_nonempty (a : args) (x : extern) (d : disk)
    (r : result) (Hrun : (preprocessing a x d).1 = inr r) :
  (Forall (fun doc => 1 <= length doc) (docs_tr r)
   /\ Forall (fun doc => 1 <= length doc) (docs_va r)
   /\ Forall (fun doc => 2 <= length doc) (docs_ts r)
   /\ Forall (fun doc => 1 <= length doc) (docs_ts_h1 r)
   /\ Forall (fun doc => 1 <= length doc) (docs_ts_h2 r))
  /\ (Forall (fun row => 1 <= list_sum row) (bow_tr_counts r)
      /\ Forall (fun row => 1 <= list_sum row) (bow_va_counts r)
      /\ Forall (fun row => 2 <= list_sum row) (bow_ts_counts r)
      /\ Forall (fun row => 1 <= list_sum row) (bow_ts_h1_counts r)
      /\ Forall (fun row => 1 <= list_sum row) (bow_ts_h2_counts r)).
Proof.
  apply preprocessing_shape in Hrun
    as (_ & (Ntr & Nts & Nva) & E1 & E2 & _ & _ & _
        & Btr & Bts & Bh1 & Bh2 & Bva).
  assert (Forall (fun doc => 1 <= length doc) (docs_tr r)) as Htr.
  { eapply List.Forall_impl; [|exact Ntr]. apply nonempty_length. }
  assert (Forall (fun doc => 1 <= length doc) (docs_va r)) as Hva.
  { eapply List.Forall_impl; [|exact Nva]. apply nonempty_length. }
  assert (Forall (fun doc => 2 <= length doc) (docs_ts r)) as Hts.
  { eapply List.Forall_impl; [|exact Nts]. simpl. intros doc H.
    apply Z.ltb_lt in H. lia. }
  assert (Forall (fun doc => 1 <= length doc) (docs_ts_h1 r)) as Hh1.
  { rewrite E1. apply Forall_fmap.
    eapply List.Forall_impl; [|exact Hts]. simpl. intros doc H.
    rewrite first_half_length.
    pose proof (Nat.div_mod_eq (length doc) 2).
    pose proof (Nat.mod_upper_bound (length doc) 2). lia. }
  assert (Forall (fun doc => 1 <= length doc) (docs_ts_h2 r)) as Hh2.
  { rewrite E2. apply Forall_fmap.
    eapply List.Forall_impl; [|exact Hts]. simpl. intros doc H.
    rewrite second_half_length.
    pose proof (Nat.div_mod_eq (length doc) 2).
    pose proof (Nat.mod_upper_bound (length doc) 2). lia. }
  split; [repeat split; assumption|].
  repeat split.
  - exact (bow_of_totals 1 _ _ _ Htr Btr).
  - exact (bow_of_totals 1 _ _ _ Hva Bva).
  - exact (bow_of_totals 2 _ _ _ Hts Bts).
  - exact (bow_of_totals 1 _ _ _ Hh1 Bh1).
  - exact (bow_of_totals 1 _ _ _ Hh2 Bh2).
Qed.

Lemma saved_documents_nonempty_witness :
  exists r, example_run.1 = inr r
            /\ Forall (fun doc => 2 <= length doc) (docs_ts r).
Proof.
  eexists. split; [vm_compute; reflexivity|].
  eapply (saved_documents_nonempty (example_args well_formed_split)
            example_extern (start ∅)).
  vm_compute. reflexivity.
Defined.

Lemma lookup_fst_snd {A B} (l : list (A * B)) (j : nat) (x : A) (y : B) :
  map fst l !! j = Some x -> map snd l !! j = Some y -> In (x, y) l.
Proof.
  rewrite !list_lookup_fmap.
  destruct (l !! j) as [[x' y']|] eqn:E; simpl; [|discriminate].
  intros Hx Hy. injection Hx as <-. injection Hy as <-.
  apply list_elem_of_In. eapply list_elem_of_lookup_2; eauto.
Qed.

Lemma bow_of_ok (V : nat) (in_docs tokens counts : list (list nat)) :
  Forall (Forall (fun w => w < V)) in_docs ->
  bow_of in_docs tokens counts ->
  artifact_ok V in_docs tokens counts.
Proof.
  intros Hids [-> ->]. unfold artifact_ok. rewrite !length_map.
  split; [reflexivity|]. split; [reflexivity|].
  intros i doc tk ct Hdoc. rewrite !list_lookup_fmap, Hdoc. simpl.
  intros Htk Hct. injection Htk as <-. injection Hct as <-.
  split; [now rewrite !length_map|].
  intros j t c Ht Hc.
  pose proof (lookup_fst_snd _ _ _ _ Ht Hc) as Hin.
  apply sum_duplicates_entry in Hin as (Hdoc' & Hpos & Hcount).
  repeat split; auto.
  rewrite List.Forall_forall in Hids.
  assert (In doc in_docs) as Hd.
  { apply list_elem_of_In. eapply list_elem_of_lookup_2; eauto. }
  specialize (Hids doc Hd). rewrite List.Forall_forall in Hids. auto.
Qed.

Lemma halves_ids (V : nat) (in_docs : list (list nat)) :
  Forall (Forall (fun w => w < V)) in_docs ->
  Forall (Forall (fun w => w < V)) (map first_half in_docs)
  /\ Forall (Forall (fun w => w < V)) (map second_half in_docs).
Proof.
  intros H. split; apply Forall_fmap;
    (eapply List.Forall_impl; [|exact H]); intros doc Hdoc; simpl.
  - rewrite first_half_firstn. now apply Forall_take.
  - rewrite second_half_skipn. now apply Forall_drop.
Qed.

(** C6. In a run that returns, each of the five saved tokens/counts
    pairs has one row per document of its set; in every row the tokens
    and the counts have the same length, every token is an index of the
    final vocabulary, and the count next to it is at least one and is
    the number of times the token occurs in the document. *)
Theorem saved_bows_well_formed (a : args) (x : extern) (d : disk)
    (r : result) (Hrun : (preprocessing a x d).1 = inr r) :
  let V := length (vocab r) in
  artifact_ok V (docs_tr r) (bow_tr_tokens r) (bow_tr_counts r)
  /\ artifact_ok V (docs_ts r) (bow_ts_tokens r) (bow_ts_counts r)
  /\ artifact_ok V (docs_ts_h1 r) (bow_ts_h1_tokens r) (bow_ts_h1_counts r)
  /\ artifact_ok V (docs_ts_h2 r) (bow_ts_h2_tokens r) (bow_ts_h2_counts r)
  /\ artifact_ok V (docs_va r) (bow_va_tokens r) (bow_va_counts r).
Proof.
  intros V. subst V.
  apply preprocessing_shape in Hrun
    as ((Itr & Its & Iva) & _ & E1 & E2 & _ & _ & _
        & Btr & Bts & Bh1 & Bh2 & Bva).
  destruct (halves_ids _ _ Its) as [Ih1 Ih2].
  rewrite <- E1 in Ih1. rewrite <- E2 in Ih2.
  split; [|split; [|split; [|split]]]; apply bow_of_ok; assumption.
Qed.

Lemma saved_bows_well_formed_witness :
  exists r, example_run.1 = inr r
            /\ artifact_ok (length (vocab r)) (docs_tr r) (bow_tr_tokens r)
                 (bow_tr_counts r).
Proof.
  eexists. split; [vm_compute; reflexivity|].
  eapply (saved_bows_well_formed (example_args well_formed_split)
            example_extern (start ∅)).
  vm_compute. reflexivity.
Defined.

End CorpusFacts.

(** ** Further properties of the driver *)
Module DriverMore.
Import Py MainETM EffectFacts DriverFacts.

Lemma fdiv_raises (x f : pyfloat) (e : exn) :
  fdiv x f = inl e -> e = ZeroDivisionError /\ is_zero f = true.
Proof.
  unfold fdiv, is_zero. destruct f as [q| | |].
  - destruct (Qeq_bool q 0).
    + intros H. injection H as <-. auto.
    + destruct x; discriminate.
  - destruct x; discriminate.
  - destruct x; discriminate.
  - discriminate.
Qed.

Lemma visualize_test_raises (a : args) (epoch : Z) (e : exn) :
  visualize_test a epoch = inl e ->
  e = ZeroDivisionError /\ visualize_every a = 0 /\ 0 < epoch.
Proof.
  unfold visualize_test. destruct (0 <? epoch) eqn:H0; [|discriminate].
  destruct (visualize_every a =? 0) eqn:Hv; [|discriminate].
  intros H. injection H as <-. repeat split; lia.
Qed.

Lemma firstn_is_nil {A} (k : nat) (l : list A) :
  firstn k l = [] <-> k = 0%nat \/ l = [].
Proof.
  destruct k, l; simpl; split; intros H; auto; try discriminate;
    destruct H; discriminate.
Qed.

(** The slice [history[:-nonmono]] the test takes the minimum of is
    empty in two cases only: a patience of zero, or a negative patience
    with no history yet. *)
Lemma slice_empty (nonmono : Z) (history : list pyfloat) :
  nonmono < Z.of_nat (length history) ->
  py_slice_to history (- nonmono) = []
  <-> (nonmono = 0 /\ history <> []) \/ (nonmono < 0 /\ history = []).
Proof.
  intros Hlen. unfold py_slice_to. rewrite firstn_is_nil.
  rewrite <- (length_zero_iff_nil history).
  destruct (- nonmono <? 0) eqn:Hneg; lia.
Qed.

Lemma py_min_raises (l : list pyfloat) (e : exn) :
  py_min l = inl e <-> e = ValueError /\ l = [].
Proof.
  destruct l as [|x r]; simpl; split.
  - intros H. injection H as <-. auto.
  - intros (-> & _). reflexivity.
  - discriminate.
  - intros (_ & H). discriminate.
Qed.

(** X1. The three tests of an iteration of the epoch loop raise in
    these cases and no others. The annealing test raises [ValueError],
    from [min] of an empty slice, exactly when annealing is on and
    either the patience is zero and the history is not empty or the
    patience is negative and the history is empty. The division of the
    learning rate raises [ZeroDivisionError] exactly when [lr_factor]
    is zero. The visualisation test raises [ZeroDivisionError] exactly
    when [visualize_every] is zero and the epoch is not the first. *)
Theorem epoch_arithmetic_errors (a : args) (v cur : pyfloat)
    (history : list pyfloat) (epoch : Z) (e : exn) :
  (anneal_test a v history cur = inl e
   <-> e = ValueError /\ anneal_lr a <> 0
       /\ ((nonmono a = 0 /\ history <> [])
           \/ (nonmono a < 0 /\ history = [])))
  /\ (fdiv cur (lr_factor a) = inl e
      <-> e = ZeroDivisionError /\ is_zero (lr_factor a) = true)
  /\ (visualize_test a epoch = inl e
      <-> e = ZeroDivisionError /\ visualize_every a = 0 /\ 0 < epoch).
Proof.
  split; [|split].
  - unfold anneal_test.
    destruct (anneal_lr a =? 0) eqn:Ha.
    { split; [discriminate | intros (_ & H & _); lia]. }
    destruct (nonmono a <? Z.of_nat (length history)) eqn:Hl; simpl.
    + assert (nonmono a < Z.of_nat (length history)) as Hlt by lia.
      pose proof (slice_empty (nonmono a) history Hlt) as Hs.
      destruct (py_min (py_slice_to history (- nonmono a))) as [e' | m]
        eqn:Hpm.
      * destruct (proj1 (py_min_raises _ _) Hpm) as (-> & Hnil).
        split.
        -- intros H. injection H as <-.
           split; [reflexivity|]. split; [lia|]. now apply Hs.
        -- intros (-> & _). reflexivity.
      * split; [discriminate|].
        intros (-> & _ & H). apply Hs in H. rewrite H in Hpm.
        discriminate.
    + split; [discriminate|].
      apply Z.ltb_ge in Hl.
      intros (_ & _ & [(H0 & Hne) | (Hn & ->)]).
      * destruct history as [|x r]; [congruence|].
        rewrite length_cons in Hl. lia.
      * simpl in Hl. lia.
  - split; [apply fdiv_raises|].
    intros (-> & Hz). unfold fdiv, is_zero in *.
    destruct (lr_factor a) as [q| | |]; try discriminate.
    now rewrite Hz.
  - split; [apply visualize_test_raises|].
    intros (-> & Hv & He). unfold visualize_test.
    assert ((0 <? epoch) = true) as -> by lia.
    now rewrite Hv.
Qed.

Lemma define_checkpoint_returns (a : args) (s : state) :
  exists s1,
    define_checkpoint a s = (inr tt, s1)
    /\ best_epoch s1 = best_epoch s /\ best_val_ppl s1 = best_val_ppl s
    /\ all_val_ppls s1 = all_val_ppls s /\ opt_lr s1 = opt_lr s
    /\ fs s ⊆ fs s1
    /\ List.filter is_save (trace s1) = List.filter is_save (trace s)
    /\ List.filter is_set_lr (trace s1) = List.filter is_set_lr (trace s)
    /\ List.filter is_train (trace s1) = List.filter is_train (trace s).
Proof.
  unfold define_checkpoint, bind, get.
  destruct (decide (save_path a ∈ fs s)); eexists;
    (split; [reflexivity|]); simpl; rewrite ?List.filter_app; simpl;
    rewrite ?app_nil_r; repeat split; auto; set_solver.
Qed.

Lemma through_loop_unfold (a : args) (val_ppl_of : Z -> pyfloat)
    (existing : gset string) :
  exists s1,
    define_checkpoint a (init a existing) = (inr tt, s1)
    /\ through_loop a val_ppl_of existing
       = for_each (py_range (epochs a)) (epoch_body a val_ppl_of)
           (snd (start_training s1)).
Proof.
  destruct (define_checkpoint_returns a (init a existing)) as (s1 & Hd & _).
  exists s1. split; [exact Hd|].
  unfold through_loop, train_loop.
  rewrite (bind_of_inr _ _ _ _ _ Hd).
  now rewrite (bind_of_inr start_training _ s1 (snd (start_training s1)) tt).
Qed.

(** *** The history of validation perplexities *)

Lemma epoch_history (a : args) (val_ppl_of : Z -> pyfloat) (epoch : Z)
    (s : state) :
  all_val_ppls (snd (epoch_body a val_ppl_of epoch s))
  = match fst (epoch_body a val_ppl_of epoch s) with
    | inr _ => all_val_ppls s ++ [val_ppl_of epoch]
    | inl _ => all_val_ppls s
    end.
Proof. split_body a val_ppl_of epoch s; reflexivity. Qed.

Lemma loop_history (a : args) (val_ppl_of : Z -> pyfloat) (todo : list Z)
    (s : state) :
  let r := for_each todo (epoch_body a val_ppl_of) s in
  exists k,
    (k <= length todo)%nat
    /\ all_val_ppls (snd r)
       = all_val_ppls s ++ map val_ppl_of (firstn k todo)
    /\ (fst r = inr tt -> k = length todo).
Proof.
  revert s. induction todo as [|epoch todo IH]; intros s; simpl.
  - exists 0%nat. simpl. rewrite app_nil_r. auto.
  - pose proof (epoch_history a val_ppl_of epoch s) as Hh.
    unfold bind.
    destruct (epoch_body a val_ppl_of epoch s) as [[e | u] s1]; simpl in *.
    + exists 0%nat. simpl. rewrite app_nil_r.
      repeat split; [lia | assumption | discriminate].
    + destruct (IH s1) as (k & Hk & Hall & Hret).
      exists (S k). simpl. rewrite Hall, Hh, <- app_assoc. simpl.
      repeat split; [lia | auto].
Qed.

Lemma history_of_loop (a : args) (val_ppl_of : Z -> pyfloat)
    (existing : gset string) :
  let r := through_loop a val_ppl_of existing in
  (exists k, all_val_ppls (snd r)
             = map val_ppl_of (firstn k (py_range (epochs a))))
  /\ (fst r = inr tt ->
      all_val_ppls (snd r) = map val_ppl_of (py_range (epochs a))).
Proof.
  intros r. subst r.
  destruct (through_loop_unfold a val_ppl_of existing) as (s1 & _ & ->).
  destruct (loop_history a val_ppl_of (py_range (epochs a))
              (snd (start_training s1))) as (k & Hk & Hall & Hret).
  split.
  - exists k. rewrite Hall. reflexivity.
  - intros Hr. specialize (Hret Hr). subst k.
    rewrite Hall, firstn_all. reflexivity.
Qed.

(** X2. The history holds the validation perplexities of the epochs
    that ran to their end, in order, and nothing else: after the epoch
    loop it is [val_ppl] of a prefix of [range(epochs)], and of the
    whole range when the loop did not raise. *)
Theorem history_retained (a : args) (val_ppl_of : Z -> pyfloat)
    (existing : gset string) :
  let r := through_loop a val_ppl_of existing in
  (exists k, all_val_ppls (snd r)
             = map val_ppl_of (firstn k (py_range (epochs a))))
  /\ (fst r = inr tt ->
      all_val_ppls (snd r) = map val_ppl_of (py_range (epochs a))).
Proof. apply history_of_loop. Qed.

Lemma history_retained_witness :
  fst (through_loop args_default ppl_rising ∅) = inr tt
  /\ all_val_ppls (snd (through_loop args_default ppl_rising ∅))
     = map ppl_rising (py_range (epochs args_default)).
Proof.
  split; [vm_compute; reflexivity|].
  apply (history_retained args_default ppl_rising ∅).
  vm_compute. reflexivity.
Defined.

(** *** The best value *)

Lemma flt_between (v v' b : pyfloat) :
  flt v' b = true -> flt v b = false -> flt v v' = false.
Proof.
  destruct v as [x| | |], v' as [y| | |], b as [z| | |]; simpl;
    try congruence.
  rewrite Qltb_lt. unfold Qltb. rewrite !negb_false_iff, !Qle_bool_iff.
  intros H1 H2. lra.
Qed.

Lemma best_epoch_body (a : args) (val_ppl_of : Z -> pyfloat)
    (todo : list Z) (epoch : Z) :
  In epoch todo ->
  preserves (best_is_least val_ppl_of todo) (epoch_body a val_ppl_of epoch).
Proof.
  intros Hin s (Hleast & Hbest). unfold best_is_least.
  pose proof (flt_irrefl (val_ppl_of epoch)) as Hirr.
  split_body a val_ppl_of epoch s;
    (split; [| solve [auto]]);
    intros v Hv; rewrite ?in_app_iff in Hv; simpl in Hv;
    repeat match goal with
    | H : _ \/ _ |- _ => destruct H as [H | H]
    | H : False |- _ => destruct H
    end; subst; eauto using flt_between.
Qed.

Lemma best_start (val_ppl_of : Z -> pyfloat) (todo : list Z) (s : state) :
  best_is_least val_ppl_of todo (snd (start_training s)).
Proof. split; [intros v [] | now left]. Qed.

(** X4. The best value is a least element of the history: after the
    epoch loop no recorded perplexity is strictly below it; it is the
    sentinel or the perplexity of the best epoch, which is one of the
    epochs of the run; and when the loop did not raise, no epoch at all
    had a perplexity strictly below it. *)
Theorem best_is_minimum (a : args) (val_ppl_of : Z -> pyfloat)
    (existing : gset string) :
  let r := through_loop a val_ppl_of existing in
  best_is_least val_ppl_of (py_range (epochs a)) (snd r)
  /\ (fst r = inr tt ->
      forall e, 0 <= e < epochs a ->
                flt (val_ppl_of e) (best_val_ppl (snd r)) = false).
Proof.
  intros r.
  assert (best_is_least val_ppl_of (py_range (epochs a)) (snd r)) as Hb.
  { subst r.
    destruct (through_loop_unfold a val_ppl_of existing) as (s1 & _ & ->).
    apply preserves_for_each; [|apply best_start].
    intros x Hx. now apply best_epoch_body. }
  split; [exact Hb|].
  intros Hr e He. destruct Hb as (Hleast & _). apply Hleast.
  destruct (history_of_loop a val_ppl_of existing) as (_ & Hh).
  fold r in Hh. rewrite (Hh Hr). apply in_map.
  unfold py_range. apply in_map_iff. exists (Z.to_nat e).
  split; [lia|]. apply in_seq. lia.
Qed.

Lemma best_is_minimum_witness :
  fst (through_loop args_default ppl_rising ∅) = inr tt
  /\ flt (ppl_rising 2)
       (best_val_ppl (snd (through_loop args_default ppl_rising ∅))) = false.
Proof.
  split; [vm_compute; reflexivity|].
  destruct (best_is_minimum args_default ppl_rising ∅) as (_ & H).
  apply H; [vm_compute; reflexivity | simpl; lia].
Defined.

(** *** The checkpoint that is read back *)

Lemma last_save_body (a : args) (val_ppl_of : Z -> pyfloat)
    (todo : list Z) (epoch : Z) :
  In epoch todo ->
  preserves (last_save_is_best a val_ppl_of todo)
    (epoch_body a val_ppl_of epoch).
Proof.
  intros Hin s Hs. unfold last_save_is_best.
  split_body a val_ppl_of epoch s;
    rewrite ?List.filter_app; simpl; rewrite ?app_nil_r;
    first [ exact Hs
          | right; exists (List.filter is_save (trace s)); auto ].
Qed.

Lemma py_range_spec (n e : Z) : In e (py_range n) <-> 0 <= e < n.
Proof.
  unfold py_range. rewrite in_map_iff. split.
  - intros (k & <- & Hk). apply in_seq in Hk. lia.
  - intros He. exists (Z.to_nat e). split; [lia|]. apply in_seq. lia.
Qed.

(** X5. A training run that returns has read back the checkpoint it
    wrote last, and that one is the checkpoint of the best epoch: the
    run ends with the load of the checkpoint and one more evaluation;
    no epoch has a validation perplexity below the best value; and
    either no checkpoint was written at all, the best value still being
    [1e9], or the last checkpoint written before the load is the one of
    [best_epoch], an epoch of the run whose perplexity is the best
    value. *)
Theorem reloaded_checkpoint_is_best (a : args) (val_ppl_of : Z -> pyfloat)
    (existing : gset string)
    (Hmode : mode a = "train"%string)
    (Hret : fst (main_ETM a val_ppl_of (init a existing)) = inr tt) :
  let s' := snd (main_ETM a val_ppl_of (init a existing)) in
  exists before,
    trace s'
    = before ++ [EvLoad (ckpt_path a); EvEvaluate "val" (tc a) (td a)]
    /\ (forall e, 0 <= e < epochs a ->
                  flt (val_ppl_of e) (best_val_ppl s') = false)
    /\ ((List.filter is_save before = [] /\ best_val_ppl s' = sentinel)
        \/ (exists earlier,
              List.filter is_save before
              = earlier ++ [EvSave (ckpt_path a) (best_epoch s')]
              /\ 0 <= best_epoch s' < epochs a
              /\ best_val_ppl s' = val_ppl_of (best_epoch s'))).
Proof.
  intros s'. subst s'. revert Hret.
  rewrite (main_after_loop a val_ppl_of existing Hmode).
  destruct (through_loop_unfold a val_ppl_of existing) as (s1 & Hd & Hloop).
  destruct (define_checkpoint_returns a (init a existing))
    as (s1' & Hd' & _ & _ & _ & _ & _ & Hsaves & _).
  rewrite Hd in Hd'. injection Hd' as <-.
  assert (last_save_is_best a val_ppl_of (py_range (epochs a))
            (snd (through_loop a val_ppl_of existing))) as Hlast.
  { rewrite Hloop. apply preserves_for_each.
    - intros x Hx. now apply last_save_body.
    - left. split; [exact Hsaves | reflexivity]. }
  assert (best_is_least val_ppl_of (py_range (epochs a))
            (snd (through_loop a val_ppl_of existing))) as (Hleast & _).
  { rewrite Hloop. apply preserves_for_each; [|apply best_start].
    intros x Hx. now apply best_epoch_body. }
  destruct (history_of_loop a val_ppl_of existing) as (_ & Hh).
  destruct (through_loop a val_ppl_of existing) as [[e | []] s2];
    simpl in *; [discriminate|].
  unfold reload, bind, load_ckpt.
  destruct (decide (ckpt_path a ∈ fs s2)); simpl; [|discriminate].
  intros _. exists (trace s2).
  split; [now rewrite <- app_assoc|]. split.
  - intros e0 He. apply Hleast. rewrite (Hh eq_refl).
    apply in_map. now apply py_range_spec.
  - destruct Hlast as [Hnone | (earlier & Hsv & Hin & Hbest)].
    + now left.
    + right. exists earlier. split; [exact Hsv|].
      split; [now apply py_range_spec | exact Hbest].
Qed.

Lemma reloaded_checkpoint_is_best_witness :
  fst (main_ETM args_default ppl_rising (init args_default ∅)) = inr tt
  /\ flt (ppl_rising 2)
       (best_val_ppl
          (snd (main_ETM args_default ppl_rising (init args_default ∅))))
     = false.
Proof.
  split; [vm_compute; reflexivity|].
  destruct (reloaded_checkpoint_is_best args_default ppl_rising ∅)
    as (before & _ & H & _);
    [reflexivity | vm_compute; reflexivity |].
  apply H. simpl. lia.
Defined.

(** *** When the learning rate stays put *)

Lemma anneal_test_off (a : args) (v : pyfloat) (history : list pyfloat)
    (cur : pyfloat) :
  anneal_lr a = 0 \/ fgt cur lr_floor = false ->
  anneal_test a v history cur <> inr true.
Proof.
  unfold anneal_test. intros [Ha | Hf].
  - rewrite Ha. discriminate.
  - destruct (anneal_lr a =? 0); [discriminate|].
    destruct (negb _); [discriminate|].
    destruct (py_min _); [discriminate|].
    rewrite Hf, andb_false_r. discriminate.
Qed.

Lemma filter_set_lr_app (t1 t2 : list event) :
  List.filter is_set_lr t1 = [] -> List.filter is_set_lr t2 = [] ->
  List.filter is_set_lr (t1 ++ t2) = [].
Proof. intros H1 H2. now rewrite List.filter_app, H1, H2. Qed.

Section Untouched.
Variables (a : args) (val_ppl_of : Z -> pyfloat) (lr0 : pyfloat).

Lemma untouched_emit (ev : event) :
  is_set_lr ev = false -> preserves (lr_untouched lr0) (emit ev).
Proof.
  intros Hev s (H1 & H2). split; [exact H1|]. simpl.
  apply filter_set_lr_app; [exact H2|]. simpl. now rewrite Hev.
Qed.

Lemma untouched_write (ev : event) (p : string) :
  is_set_lr ev = false -> preserves (lr_untouched lr0) (write_file ev p).
Proof.
  intros Hev s (H1 & H2). split; [exact H1|]. simpl.
  apply filter_set_lr_app; [exact H2|]. simpl. now rewrite Hev.
Qed.

Lemma untouched_start : preserves (lr_untouched lr0) start_training.
Proof. intros s H. exact H. Qed.

Lemma untouched_body_when (epoch : Z) (s : state) :
  anneal_test a (val_ppl_of epoch) (all_val_ppls s) (opt_lr s) <> inr true ->
  lr_untouched lr0 s ->
  lr_untouched lr0 (snd (epoch_body a val_ppl_of epoch s)).
Proof.
  intros Hoff (H1 & H2). unfold lr_untouched.
  split_body a val_ppl_of epoch s; try congruence;
    (split; [exact H1|]); rewrite <- ?app_assoc;
    apply filter_set_lr_app; auto.
Qed.

Lemma untouched_body (epoch : Z) :
  anneal_lr a = 0 \/ fgt lr0 lr_floor = false ->
  preserves (lr_untouched lr0) (epoch_body a val_ppl_of epoch).
Proof.
  intros Hoff s Hs. apply untouched_body_when; [|exact Hs].
  apply anneal_test_off. destruct Hs as (-> & _). exact Hoff.
Qed.

Lemma untouched_main :
  anneal_lr a = 0 \/ fgt lr0 lr_floor = false ->
  preserves (lr_untouched lr0) (main_ETM a val_ppl_of).
Proof.
  intros Hoff. unfold_main.
  preserve ltac:(first
    [ apply untouched_body; assumption | apply untouched_start
    | apply preserves_load
    | apply untouched_emit; reflexivity
    | apply untouched_write; reflexivity ]).
Qed.
End Untouched.

(** X6. With annealing off, or with an initial learning rate that is
    not above the floor [1e-5], a run never sets the learning rate: it
    ends with the rate it started with. *)
Theorem lr_constant_without_annealing (a : args)
    (val_ppl_of : Z -> pyfloat) (existing : gset string)
    (Hoff : anneal_lr a = 0 \/ fgt (lr a) lr_floor = false) :
  let s' := snd (main_ETM a val_ppl_of (init a existing)) in
  opt_lr s' = lr a /\ List.filter is_set_lr (trace s') = [].
Proof.
  apply (untouched_main a val_ppl_of (lr a) Hoff (init a existing)).
  split; reflexivity.
Qed.

Lemma lr_constant_without_annealing_witness :
  opt_lr (snd (main_ETM args_no_anneal ppl_rising (init args_no_anneal ∅)))
  = lr args_no_anneal.
Proof.
  apply (lr_constant_without_annealing args_no_anneal ppl_rising ∅).
  left. reflexivity.
Defined.

Lemma anneal_test_early (a : args) (v : pyfloat) (history : list pyfloat)
    (cur : pyfloat) :
  Z.of_nat (length history) <= nonmono a ->
  anneal_test a v history cur = inr false.
Proof.
  intros H. unfold anneal_test.
  destruct (anneal_lr a =? 0); [reflexivity|].
  assert ((nonmono a <? Z.of_nat (length history)) = false) as ->
    by (apply Z.ltb_ge; lia).
  reflexivity.
Qed.

Lemma patient_loop (a : args) (val_ppl_of : Z -> pyfloat) (lr0 : pyfloat)
    (m k : nat) (s : state) :
  length (all_val_ppls s) = k ->
  Z.of_nat (k + m) <= nonmono a + 1 ->
  lr_untouched lr0 s ->
  lr_untouched lr0
    (snd (for_each (map Z.of_nat (seq k m)) (epoch_body a val_ppl_of) s)).
Proof.
  revert k s. induction m as [|m IH]; intros k s Hlen Hk Hs; simpl.
  - exact Hs.
  - pose proof (untouched_body_when a val_ppl_of lr0 (Z.of_nat k) s) as Hb.
    pose proof (epoch_history a val_ppl_of (Z.of_nat k) s) as Hh.
    unfold bind.
    destruct (epoch_body a val_ppl_of (Z.of_nat k) s) as [[e | u] s1];
      simpl in *.
    + apply Hb; [|exact Hs]. rewrite anneal_test_early by lia. discriminate.
    + apply IH.
      * rewrite Hh, length_app. simpl. lia.
      * lia.
      * apply Hb; [|exact Hs].
        rewrite anneal_test_early by lia. discriminate.
Qed.

(** X7. The learning rate is never set during the first [nonmono + 1]
    epochs: a training run of at most that many epochs ends with the
    rate it started with, whatever the perplexities are. *)
Theorem lr_constant_within_patience (a : args) (val_ppl_of : Z -> pyfloat)
    (existing : gset string)
    (Hmode : mode a = "train"%string)
    (Hshort : epochs a <= nonmono a + 1) :
  let s' := snd (main_ETM a val_ppl_of (init a existing)) in
  opt_lr s' = lr a /\ List.filter is_set_lr (trace s') = [].
Proof.
  intros s'. subst s'.
  rewrite (main_after_loop a val_ppl_of existing Hmode).
  destruct (through_loop_unfold a val_ppl_of existing) as (s1 & Hd & Hloop).
  destruct (define_checkpoint_returns a (init a existing))
    as (s1' & Hd' & _ & _ & _ & Hlr & _ & _ & Hset & _).
  rewrite Hd in Hd'. injection Hd' as <-.
  assert (lr_untouched (lr a) (snd (through_loop a val_ppl_of existing)))
    as Hu.
  { rewrite Hloop. unfold py_range.
    destruct (Z_le_gt_dec (epochs a) 0) as [Hneg | Hpos].
    - replace (Z.to_nat (epochs a)) with 0%nat by lia. simpl.
      split; [exact Hlr | exact Hset].
    - apply patient_loop; [reflexivity | lia |].
      split; [exact Hlr | exact Hset]. }
  destruct (through_loop a val_ppl_of existing) as [[e | []] s2];
    simpl in *; [exact Hu|].
  unfold reload.
  apply preserves_bind; [| intros _ | exact Hu].
  - apply preserves_load. now apply untouched_emit.
  - now apply untouched_emit.
Qed.

Lemma lr_constant_within_patience_witness :
  opt_lr (snd (main_ETM args_patient ppl_rising (init args_patient ∅)))
  = lr args_patient.
Proof.
  apply (lr_constant_within_patience args_patient ppl_rising ∅).
  - reflexivity.
  - simpl. lia.
Defined.

(** *** How far the learning rate can fall *)

Lemma fdiv_above (x y : pyfloat) (f : Q) :
  (0 < f)%Q -> fgt x lr_floor = true -> fdiv x (Fin f) = inr y ->
  flt (Fin ((1 # 100000) / f)) y = true.
Proof.
  intros Hf Hx. unfold fdiv.
  destruct (Qeq_bool f 0) eqn:Hz; [discriminate|].
  unfold fgt, lr_floor in Hx.
  destruct x as [p| | |]; simpl in Hx; try discriminate;
    intros H; injection H as <-.
  - simpl. apply Qltb_lt in Hx. apply Qltb_lt.
    unfold Qdiv. apply Qmult_lt_compat_r; [|exact Hx].
    now apply Qinv_lt_0_compat.
  - assert (Qltb 0 f = true) as -> by now apply Qltb_lt.
    reflexivity.
Qed.

Section Above.
Variables (a : args) (val_ppl_of : Z -> pyfloat) (f : Q).
Hypothesis Hfactor : lr_factor a = Fin f.
Hypothesis Hpos : (0 < f)%Q.

Lemma above_body (epoch : Z) :
  preserves (lr_above (Fin ((1 # 100000) / f)))
    (epoch_body a val_ppl_of epoch).
Proof.
  intros s Hs. unfold lr_above in *.
  destruct (epoch_lr_step a val_ppl_of epoch s) as (rest & _ & _ & H).
  destruct H as [-> | (Hd & Hfl & _)]; [exact Hs|].
  rewrite Hfactor in Hd. eapply fdiv_above; eauto.
Qed.

Lemma above_main :
  preserves (lr_above (Fin ((1 # 100000) / f))) (main_ETM a val_ppl_of).
Proof.
  unfold_main.
  preserve ltac:(first
    [ apply above_body | apply preserves_load
    | match goal with
      | |- preserves _ start_training => intros ? H; exact H
      | |- preserves _ (emit _) => intros ? H; exact H
      | |- preserves _ (write_file _ _) => intros ? H; exact H
      end ]).
Qed.
End Above.



(** *** The other modes *)

Lemma filter_training_app (t1 t2 : list event) :
  List.filter is_training_event t1 = [] ->
  List.filter is_training_event t2 = [] ->
  List.filter is_training_event (t1 ++ t2) = [].
Proof. intros H1 H2. now rewrite List.filter_app, H1, H2. Qed.

Lemma idle_emit (lr0 : pyfloat) (ev : event) :
  is_training_event ev = false -> preserves (idle lr0) (emit ev).
Proof.
  intros Hev s (H1 & H2). split; [exact H1|]. simpl.
  apply filter_training_app; [exact H2|]. simpl. now rewrite Hev.
Qed.

Lemma idle_write (lr0 : pyfloat) (ev : event) (p : string) :
  is_training_event ev = false -> preserves (idle lr0) (write_file ev p).
Proof.
  intros Hev s (H1 & H2). split; [exact H1|]. simpl.
  apply filter_training_app; [exact H2|]. simpl. now rewrite Hev.
Qed.

Lemma idle_not_train (lr0 : pyfloat) (a : args)
    (val_ppl_of : Z -> pyfloat) :
  mode a <> "train"%string ->
  preserves (idle lr0) (main_ETM a val_ppl_of).
Proof.
  intros Hmode. unfold main_ETM.
  assert (String.eqb (mode a) "train" = false) as ->
    by now apply String.eqb_neq.
  unfold define_checkpoint, eval_branch.
  preserve ltac:(first
    [ apply preserves_load
    | apply idle_emit; reflexivity
    | apply idle_write; reflexivity ]).
Qed.

(** X9. With any mode other than ['train'] the run does nothing of the
    train branch: no training pass, no checkpoint write, no change of
    the learning rate. *)
Theorem other_modes_never_train (a : args) (val_ppl_of : Z -> pyfloat)
    (existing : gset string) (Hmode : mode a <> "train"%string) :
  let s' := snd (main_ETM a val_ppl_of (init a existing)) in
  opt_lr s' = lr a
  /\ List.filter is_training_event (trace s') = [].
Proof.
  apply (idle_not_train (lr a) a val_ppl_of Hmode (init a existing)).
  split; reflexivity.
Qed.

Lemma other_modes_never_train_witness :
  List.filter is_training_event
    (trace (snd (main_ETM args_eval ppl_rising
                   (init args_eval disk_after_training)))) = [].
Proof.
  apply (other_modes_never_train args_eval ppl_rising disk_after_training).
  discriminate.
Defined.

Lemma main_not_train (a : args) (val_ppl_of : Z -> pyfloat) (s : state) :
  mode a <> "train"%string ->
  exists s1,
    define_checkpoint a s = (inr tt, s1)
    /\ main_ETM a val_ppl_of s = eval_branch a s1.
Proof.
  intros Hmode.
  destruct (define_checkpoint_returns a s) as (s1 & Hd & _).
  exists s1. split; [exact Hd|].
  unfold main_ETM. rewrite (bind_of_inr _ _ _ _ _ Hd).
  assert (String.eqb (mode a) "train" = false) as ->
    by now apply String.eqb_neq.
  reflexivity.
Qed.

(** X10. A mode that is neither ['train'] nor ['eval'] never returns
    and never writes the parameters file: the run ends in an exception,
    at the latest at [ckpt + "_parameters.pt"], where [ckpt] is a
    [Path]. *)
Theorem unknown_mode_raises (a : args) (val_ppl_of : Z -> pyfloat)
    (existing : gset string)
    (Htrain : mode a <> "train"%string)
    (Heval : mode a <> "eval"%string) :
  let r := main_ETM a val_ppl_of (init a existing) in
  (exists e, fst r = inl e)
  /\ forall p, ~ In (EvSaveParameters p) (trace (snd r)).
Proof.
  intros r. subst r.
  destruct (main_not_train a val_ppl_of (init a existing) Htrain)
    as (s1 & Hd & ->).
  assert (forall p, ~ In (EvSaveParameters p) (trace s1)) as Hno.
  { intros p. revert Hd. unfold define_checkpoint, bind, get. simpl.
    destruct (decide (save_path a ∈ existing)); intros H;
      injection H as <-; simpl; intuition discriminate. }
  unfold eval_branch.
  assert (String.eqb (mode a) "eval" = false) as Hne
    by now apply String.eqb_neq.
  rewrite Hne.
  destruct (decide (ckpt_path a ∈ fs s1)) as [Hin | Hout].
  - rewrite (bind_of_inr (load_ckpt (ckpt_path a)) _ s1
               (snd (emit (EvLoad (ckpt_path a)) s1)) tt)
      by (unfold load_ckpt; destruct (decide (ckpt_path a ∈ fs s1));
          [reflexivity | contradiction]).
    unfold bind, emit, raise, ret. simpl.
    destruct (tc a =? 0), (td a =? 0); simpl;
      (split; [eexists; reflexivity |]);
      intros p; rewrite !in_app_iff; simpl; specialize (Hno p);
      intuition discriminate.
  - rewrite (bind_of_inl (load_ckpt (ckpt_path a)) _ s1 s1
               FileNotFoundError)
      by (unfold load_ckpt; destruct (decide (ckpt_path a ∈ fs s1));
          [contradiction | reflexivity]).
    split; [eexists; reflexivity | exact Hno].
Qed.

Lemma unknown_mode_raises_witness :
  exists e,
    fst (main_ETM args_unknown_mode ppl_rising
           (init args_unknown_mode disk_after_training)) = inl e.
Proof.
  apply (unknown_mode_raises args_unknown_mode ppl_rising
           disk_after_training); discriminate.
Defined.

(** *** A zero [visualize_every] *)

Lemma visualize0_epoch (a : args) (val_ppl_of : Z -> pyfloat) (epoch : Z)
    (s : state) :
  visualize_every a = 0 -> 0 < epoch ->
  exists e, fst (epoch_body a val_ppl_of epoch s) = inl e.
Proof.
  intros Hv He.
  assert (visualize_test a epoch = inl ZeroDivisionError) as Hvt.
  { unfold visualize_test.
    assert ((0 <? epoch) = true) as -> by lia.
    now rewrite Hv. }
  split_body a val_ppl_of epoch s; try congruence; eauto.
Qed.

Lemma visualize0_loop (a : args) (val_ppl_of : Z -> pyfloat)
    (todo : list Z) (s : state) :
  visualize_every a = 0 ->
  exists e,
    fst (for_each (0 :: 1 :: todo) (epoch_body a val_ppl_of) s) = inl e
    /\ (length (all_val_ppls
                  (snd (for_each (0%Z :: 1%Z :: todo)
                          (epoch_body a val_ppl_of) s)))
        <= S (length (all_val_ppls s)))%nat.
Proof.
  intros Hv. simpl.
  pose proof (epoch_history a val_ppl_of 0 s) as Hh0.
  unfold bind.
  destruct (epoch_body a val_ppl_of 0 s) as [[e | u] s1]; simpl in *.
  - exists e. split; [reflexivity|]. rewrite Hh0. lia.
  - destruct (visualize0_epoch a val_ppl_of 1 s1 Hv) as (e & He); [lia|].
    pose proof (epoch_history a val_ppl_of 1 s1) as Hh1.
    destruct (epoch_body a val_ppl_of 1 s1) as [[e' | u'] s2]; simpl in *;
      [|discriminate].
    exists e'. split; [reflexivity|].
    rewrite Hh1, Hh0, length_app. simpl. lia.
Qed.

Lemma no_load_body (a : args) (val_ppl_of : Z -> pyfloat) (epoch : Z)
    (p : string) :
  preserves (fun s => ~ In (EvLoad p) (trace s))
    (epoch_body a val_ppl_of epoch).
Proof.
  intros s Hs.
  split_body a val_ppl_of epoch s;
    rewrite <- ?app_assoc; rewrite in_app_iff; simpl;
    intuition discriminate.
Qed.

(** X11. With [visualize_every = 0] a training run of two epochs or
    more never gets past epoch 1: [epoch % visualize_every] raises
    there at the latest, so the run raises, at most one perplexity is
    ever recorded and the final reload is not reached. *)
Theorem visualize_every_zero_raises (a : args) (val_ppl_of : Z -> pyfloat)
    (existing : gset string)
    (Hmode : mode a = "train"%string)
    (Hzero : visualize_every a = 0)
    (Hepochs : 2 <= epochs a) :
  let r := main_ETM a val_ppl_of (init a existing) in
  (exists e, fst r = inl e)
  /\ (length (all_val_ppls (snd r)) <= 1)%nat
  /\ ~ In (EvLoad (ckpt_path a)) (trace (snd r)).
Proof.
  intros r. subst r. rewrite (main_after_loop a val_ppl_of existing Hmode).
  destruct (through_loop_unfold a val_ppl_of existing) as (s1 & Hd & ->).
  assert (exists todo, py_range (epochs a) = 0 :: 1 :: todo) as [todo ->].
  { unfold py_range.
    replace (Z.to_nat (epochs a)) with (S (S (Z.to_nat (epochs a - 2))))
      by lia.
    simpl. eauto. }
  destruct (visualize0_loop a val_ppl_of todo (snd (start_training s1)) Hzero)
    as (e & He & Hlen).
  assert (~ In (EvLoad (ckpt_path a)) (trace (snd (start_training s1))))
    as Hnoload.
  { revert Hd. unfold define_checkpoint, bind, get. simpl.
    destruct (decide (save_path a ∈ existing)); intros H;
      injection H as <-; simpl; intuition discriminate. }
  assert (preserves (fun s => ~ In (EvLoad (ckpt_path a)) (trace s))
            (for_each (0 :: 1 :: todo) (epoch_body a val_ppl_of))) as Hp.
  { apply preserves_for_each. intros x _. apply no_load_body. }
  specialize (Hp _ Hnoload).
  destruct (for_each (0 :: 1 :: todo) (epoch_body a val_ppl_of)
              (snd (start_training s1))) as [[e' | []] s2];
    simpl in *; [|discriminate].
  split; [eauto|]. split; [exact Hlen | exact Hp].
Qed.

Lemma visualize_every_zero_raises_witness :
  exists e,
    fst (main_ETM args_visualize0 ppl_rising (init args_visualize0 ∅))
    = inl e.
Proof.
  apply (visualize_every_zero_raises args_visualize0 ppl_rising ∅).
  - reflexivity.
  - reflexivity.
  - simpl. lia.
Defined.

(** *** The eval mode *)

Lemma define_checkpoint_disk (a : args) (s s1 : state) (p : string) :
  define_checkpoint a s = (inr tt, s1) -> p <> save_path a ->
  (p ∈ fs s1 <-> p ∈ fs s)
  /\ List.filter is_evaluate (trace s1) = List.filter is_evaluate (trace s).
Proof.
  unfold define_checkpoint, bind, get.
  destruct (decide (save_path a ∈ fs s)); intros H Hne;
    injection H as <-; simpl.
  - tauto.
  - rewrite List.filter_app, app_nil_r. split; [|reflexivity].
    rewrite elem_of_union, elem_of_singleton. tauto.
Qed.

(** X12. In eval mode, with a checkpoint [load_from] other than
    [save_path]: when the checkpoint does not exist the run raises
    before any evaluation; and a run that returns found the checkpoint
    there, evaluated exactly once, on the validation set without topic
    coherence or diversity, and left [load_from + "_parameters.pt"] on
    disk. *)
Theorem eval_mode_outcome (a : args) (val_ppl_of : Z -> pyfloat)
    (existing : gset string)
    (Hmode : mode a = "eval"%string)
    (Hpath : load_from a <> save_path a) :
  let r := main_ETM a val_ppl_of (init a existing) in
  (load_from a ∉ existing ->
   (exists e, fst r = inl e)
   /\ List.filter is_evaluate (trace (snd r)) = [])
  /\ (fst r = inr tt ->
      load_from a ∈ existing
      /\ List.filter is_evaluate (trace (snd r)) = [EvEvaluate "val" 0 0]
      /\ (load_from a ++ "_parameters.pt")%string ∈ fs (snd r)).
Proof.
  intros r. subst r.
  assert (mode a <> "train"%string) as Htrain by (rewrite Hmode; discriminate).
  destruct (main_not_train a val_ppl_of (init a existing) Htrain)
    as (s1 & Hd & ->).
  assert (ckpt_path a = load_from a) as Hck
    by (unfold ckpt_path; now rewrite Hmode).
  destruct (define_checkpoint_disk a _ _ (load_from a) Hd Hpath)
    as (Hdisk & Hev). simpl in Hdisk, Hev.
  unfold eval_branch. rewrite Hmode, Hck. simpl String.eqb.
  destruct (decide (load_from a ∈ fs s1)) as [Hin | Hout].
  - rewrite (bind_of_inr (load_ckpt (load_from a)) _ s1
               (snd (emit (EvLoad (load_from a)) s1)) tt)
      by (unfold load_ckpt; destruct (decide (load_from a ∈ fs s1));
          [reflexivity | tauto]).
    split; [tauto|]. intros _. split; [tauto|].
    unfold bind, emit, write_file, ret. simpl.
    destruct (tc a =? 0), (td a =? 0), (train_embeddings a =? 0); simpl;
      (split; [| apply elem_of_union; left; now apply elem_of_singleton]);
      rewrite !List.filter_app, Hev; reflexivity.
  - rewrite (bind_of_inl (load_ckpt (load_from a)) _ s1 s1
               FileNotFoundError)
      by (unfold load_ckpt; destruct (decide (load_from a ∈ fs s1));
          [tauto | reflexivity]).
    simpl. split; [|discriminate].
    intros _. split; [eexists; reflexivity | exact Hev].
Qed.

Lemma eval_mode_outcome_witness :
  List.filter is_evaluate
    (trace (snd (main_ETM args_eval ppl_rising
                   (init args_eval disk_after_training))))
  = [EvEvaluate "val" 0 0].
Proof.
  destruct (eval_mode_outcome args_eval ppl_rising disk_after_training)
    as (_ & H); [reflexivity | discriminate |].
  apply H. vm_compute. reflexivity.
Defined.

End DriverMore.

(** ** Further properties of [preprocessing] *)
Module CorpusMore.
Import Py Preprocessing EffectFacts CorpusFacts.
Local Open Scope nat_scope.

(** *** The halves of a test document *)

(** X13. The first half of a document of [n] words is its first
    [n / 2] words (integer division) and the second half is the rest,
    so the second half is as long as the first or one word longer. *)
Theorem halves_sizes (doc : list nat) :
  first_half doc = firstn (length doc / 2) doc
  /\ second_half doc = skipn (length doc / 2) doc
  /\ length (first_half doc) = length doc / 2
  /\ length (second_half doc) = length doc - length doc / 2
  /\ length (first_half doc) <= length (second_half doc)
     <= S (length (first_half doc)).
Proof.
  pose proof (first_half_length doc) as H1.
  pose proof (second_half_length doc) as H2.
  pose proof (Nat.div_mod_eq (length doc) 2) as Hd.
  pose proof (Nat.mod_upper_bound (length doc) 2) as Hm.
  repeat split;
    [apply first_half_firstn | apply second_half_skipn | | | lia | lia];
    assumption.
Qed.

Lemma combine_fst_snd {A B} (l : list (A * B)) :
  combine (map fst l) (map snd l) = l.
Proof.
  induction l as [|[x y] l IH]; simpl; [reflexivity | now rewrite IH].
Qed.

Lemma entry_of_row (doc : list nat) (t : nat) :
  entry (map fst (sum_duplicates doc)) (map snd (sum_duplicates doc)) t
  = count_occ Nat.eq_dec doc t.
Proof.
  unfold entry. rewrite combine_fst_snd.
  apply (row_weight _ _ (sum_duplicates_row doc)).
Qed.

Lemma bow_of_entry (in_docs tokens counts : list (list nat)) (i : nat)
    (doc tk ct : list nat) (t : nat) :
  bow_of in_docs tokens counts ->
  in_docs !! i = Some doc -> tokens !! i = Some tk -> counts !! i = Some ct ->
  entry tk ct t = count_occ Nat.eq_dec doc t.
Proof.
  intros [-> ->] Hd. rewrite !list_lookup_fmap, Hd. simpl.
  intros H1 H2. injection H1 as <-. injection H2 as <-.
  apply entry_of_row.
Qed.

(** X14. In a run that returns, the matrix of the test documents is the
    sum of the matrices of their halves: for every test document and
    every token, the value saved for the document is the number of
    occurrences of the token in it and is the sum of the values saved
    for its first and second half. *)
Theorem halves_add_up (a : args) (x : extern) (d : disk) (r : result)
    (Hrun : (preprocessing a x d).1 = inr r) :
  forall i doc tk ct tk1 ct1 tk2 ct2 t,
    docs_ts r !! i = Some doc ->
    bow_ts_tokens r !! i = Some tk -> bow_ts_counts r !! i = Some ct ->
    bow_ts_h1_tokens r !! i = Some tk1 -> bow_ts_h1_counts r !! i = Some ct1 ->
    bow_ts_h2_tokens r !! i = Some tk2 -> bow_ts_h2_counts r !! i = Some ct2 ->
    entry tk ct t = count_occ Nat.eq_dec doc t
    /\ entry tk ct t = entry tk1 ct1 t + entry tk2 ct2 t.
Proof.
  apply preprocessing_shape in Hrun
    as (_ & _ & E1 & E2 & _ & _ & _ & _ & Bts & Bh1 & Bh2 & _).
  intros i doc tk ct tk1 ct1 tk2 ct2 t Hd Htk Hct Htk1 Hct1 Htk2 Hct2.
  assert (docs_ts_h1 r !! i = Some (first_half doc)) as Hh1
    by (rewrite E1, list_lookup_fmap, Hd; reflexivity).
  assert (docs_ts_h2 r !! i = Some (second_half doc)) as Hh2
    by (rewrite E2, list_lookup_fmap, Hd; reflexivity).
  rewrite (bow_of_entry _ _ _ _ _ _ _ t Bts Hd Htk Hct).
  rewrite (bow_of_entry _ _ _ _ _ _ _ t Bh1 Hh1 Htk1 Hct1).
  rewrite (bow_of_entry _ _ _ _ _ _ _ t Bh2 Hh2 Htk2 Hct2).
  split; [reflexivity|].
  rewrite <- count_occ_app, halves_partition. reflexivity.
Qed.

Lemma halves_add_up_witness :
  exists r,
    example_run.1 = inr r
    /\ forall tk ct tk1 ct1 tk2 ct2 t,
         bow_ts_tokens r !! 0 = Some tk -> bow_ts_counts r !! 0 = Some ct ->
         bow_ts_h1_tokens r !! 0 = Some tk1 ->
         bow_ts_h1_counts r !! 0 = Some ct1 ->
         bow_ts_h2_tokens r !! 0 = Some tk2 ->
         bow_ts_h2_counts r !! 0 = Some ct2 ->
         entry tk ct t = entry tk1 ct1 t + entry tk2 ct2 t.
Proof.
  eexists. split; [vm_compute; reflexivity|].
  intros tk ct tk1 ct1 tk2 ct2 t H1 H2 H3 H4 H5 H6.
  match type of H1 with
  | bow_ts_tokens ?r !! _ = _ =>
      assert ((preprocessing (example_args well_formed_split) example_extern
                 (start ∅)).1 = inr r) as Hrun
        by (vm_compute; reflexivity);
      destruct (halves_add_up (example_args well_formed_split)
                  example_extern (start ∅) _ Hrun 0 [4; 5; 4; 5]
                  tk ct tk1 ct1 tk2 ct2 t) as [_ H]; auto
  end.
Defined.

(** *** The rows of the saved matrices *)

Lemma weight_positive_key (row : list (nat * nat)) (t : nat) :
  0 < weight row t -> In t (map fst row).
Proof.
  unfold weight. induction row as [|[c k] row IH]; simpl.
  - lia.
  - destruct (c =? t) eqn:E; simpl.
    + apply Nat.eqb_eq in E. auto.
    + auto.
Qed.

Lemma sum_duplicates_keys (doc : list nat) (t : nat) :
  In t (map fst (sum_duplicates doc)) <-> In t doc.
Proof.
  destruct (sum_duplicates_row doc) as [Hw Hk _ _ _]. split; [apply Hk|].
  intros Hin. apply weight_positive_key. rewrite Hw.
  now apply count_occ_In.
Qed.

Lemma bow_of_canonical (in_docs tokens counts : list (list nat)) :
  bow_of in_docs tokens counts -> canonical_rows in_docs tokens.
Proof.
  intros [-> _] i doc tk Hd. rewrite list_lookup_fmap, Hd. simpl.
  intros H. injection H as <-. split.
  - apply (row_sorted _ _ (sum_duplicates_row doc)).
  - apply sum_duplicates_keys.
Qed.

(** X15. In a run that returns, every row of every saved tokens
    artifact is strictly increasing, hence without repetition, and
    holds exactly the ids that occur in its document. *)
Theorem saved_tokens_canonical (a : args) (x : extern) (d : disk)
    (r : result) (Hrun : (preprocessing a x d).1 = inr r) :
  canonical_rows (docs_tr r) (bow_tr_tokens r)
  /\ canonical_rows (docs_ts r) (bow_ts_tokens r)
  /\ canonical_rows (docs_ts_h1 r) (bow_ts_h1_tokens r)
  /\ canonical_rows (docs_ts_h2 r) (bow_ts_h2_tokens r)
  /\ canonical_rows (docs_va r) (bow_va_tokens r).
Proof.
  apply preprocessing_shape in Hrun
    as (_ & _ & _ & _ & _ & _ & _ & Btr & Bts & Bh1 & Bh2 & Bva).
  split; [|split; [|split; [|split]]]; eapply bow_of_canonical; eauto.
Qed.

Lemma saved_tokens_canonical_witness :
  exists r, example_run.1 = inr r
            /\ canonical_rows (docs_tr r) (bow_tr_tokens r).
Proof.
  eexists. split; [vm_compute; reflexivity|].
  eapply (saved_tokens_canonical (example_args well_formed_split)
            example_extern (start ∅)).
  vm_compute. reflexivity.
Defined.

(** *** [create_doc_indices] *)

Lemma doc_indices_from_In (n : nat) (in_docs : list (list nat)) (j : nat) :
  In j (doc_indices_from n in_docs)
  <-> exists doc, in_docs !! (j - n) = Some doc /\ doc <> [] /\ n <= j.
Proof.
  revert n. induction in_docs as [|doc rest IH]; intros n.
  - simpl. split; [intros [] | intros (doc & H & _); discriminate].
  - rewrite doc_indices_from_cons, in_app_iff, IH. split.
    + intros [Hin | (doc' & Hl & Hne & Hle)].
      * apply repeat_spec in Hin as Heq. subst j.
        exists doc. rewrite Nat.sub_diag. repeat split; [|lia].
        intros ->. simpl in Hin. contradiction.
      * exists doc'. replace (j - n) with (S (j - S n)) by lia.
        repeat split; [assumption | assumption | lia].
    + intros (doc' & Hl & Hne & Hle).
      destruct (Nat.eq_dec j n) as [-> | Hjn].
      * left. rewrite Nat.sub_diag in Hl. injection Hl as ->.
        destruct doc' as [|w doc']; [congruence|]. simpl. now left.
      * right. exists doc'.
        replace (j - n) with (S (j - S n)) in Hl by lia.
        repeat split; [assumption | assumption | lia].
Qed.

Lemma create_doc_indices_from (in_docs : list (list nat)) :
  create_doc_indices in_docs = doc_indices_from 0 in_docs.
Proof. reflexivity. Qed.

(** X16. [create_doc_indices] has one entry per word of
    [create_list_words]; a document number occurs in it exactly when
    the document at that position is not empty, so that without empty
    documents its distinct values are the numbers below [len(docs)]. *)
Theorem doc_indices_cover (in_docs : list (list nat)) :
  length (create_doc_indices in_docs) = length (create_list_words in_docs)
  /\ (forall j, In j (create_doc_indices in_docs)
                <-> exists doc, in_docs !! j = Some doc /\ doc <> [])
  /\ (Forall (fun doc => doc <> []) in_docs ->
      forall j, In j (create_doc_indices in_docs) <-> j < length in_docs).
Proof.
  rewrite create_doc_indices_from.
  split; [apply doc_indices_from_length|].
  assert (forall j, In j (doc_indices_from 0 in_docs)
                    <-> exists doc, in_docs !! j = Some doc /\ doc <> [])
    as Hin.
  { intros j. rewrite doc_indices_from_In, Nat.sub_0_r.
    split; intros (doc & H1 & H2); exists doc; intuition lia. }
  split; [exact Hin|].
  intros Hne j. rewrite Hin. split.
  - intros (doc & Hl & _). eapply lookup_lt_Some; eauto.
  - intros Hlt. destruct (lookup_lt_is_Some_2 in_docs j Hlt) as [doc Hl].
    exists doc. split; [exact Hl|].
    rewrite List.Forall_forall in Hne. apply Hne.
    apply list_elem_of_In. eapply list_elem_of_lookup_2; eauto.
Qed.

Lemma doc_indices_cover_witness :
  In 1 (create_doc_indices [[5; 1]; [2]]) <-> 1 < 2.
Proof.
  destruct (doc_indices_cover [[5; 1]; [2]]) as (_ & _ & H).
  apply H. repeat constructor; discriminate.
Defined.

(** *** [remove_empty] and [remove_by_threshold] *)

Lemma py_index_in_range {A} (l : list A) (i : nat) :
  i < length l -> exists x, py_index l (Z.of_nat i) = inr x /\ l !! i = Some x.
Proof.
  intros Hi. unfold py_index.
  assert ((Z.of_nat i <? 0)%Z = false) as -> by (apply Z.ltb_ge; lia).
  assert (((0 <=? Z.of_nat i)%Z && (Z.of_nat i <? Z.of_nat (length l))%Z)
          = true) as ->.
  { apply andb_true_iff. split; [apply Z.leb_le | apply Z.ltb_lt]; lia. }
  rewrite Nat2Z.id.
  destruct (lookup_lt_is_Some_2 l i Hi) as [x Hx]. rewrite Hx. eauto.
Qed.

Lemma py_index_error {A} (l : list A) (i : Z) (e : exn) :
  py_index l i = inl e -> e = IndexError.
Proof.
  unfold py_index. destruct (_ && _); [|congruence].
  destruct (l !! _); congruence.
Qed.

Section Keep.
Variable keep : list nat -> bool.
Variable loop : nat -> list (list nat) -> list nat -> list nat
                -> exn + part.
Hypothesis loop_nil : forall ii tm ix, loop ii [] tm ix = inr ([], [], []).
Hypothesis loop_cons : forall ii doc rest tm ix,
  loop ii (doc :: rest) tm ix
  = if keep doc then
      and_then (py_index tm (Z.of_nat ii)) (fun t =>
      and_then (py_index ix (Z.of_nat ii)) (fun i =>
      map_sum (fun out : part => (doc :: out.1.1, t :: out.1.2, i :: out.2))
              (loop (S ii) rest tm ix)))
    else loop (S ii) rest tm ix.

Lemma keep_aligned (R : list nat -> nat -> nat -> Prop) (ii : nat)
    (in_docs : list (list nat)) (tm ix : list nat) (out : part) :
  (forall k doc t i,
     in_docs !! k = Some doc -> tm !! (ii + k) = Some t ->
     ix !! (ii + k) = Some i -> R doc t i) ->
  loop ii in_docs tm ix = inr out ->
  aligned (fun doc t i => R doc t i /\ keep doc = true) out.
Proof.
  revert ii out. induction in_docs as [|doc rest IH]; intros ii out HR.
  - rewrite loop_nil. intros H. injection H as <-.
    repeat split; intros; simpl in *; discriminate.
  - rewrite loop_cons.
    assert (forall k doc t i,
              rest !! k = Some doc -> tm !! (S ii + k) = Some t ->
              ix !! (S ii + k) = Some i -> R doc t i) as HR'.
    { intros k doc' t i H1 H2 H3. apply (HR (S k)); [exact H1| |];
        rewrite <- Nat.add_succ_comm; assumption. }
    destruct (keep doc) eqn:Hk; [|now apply IH].
    intros H. invert_sum H. subst out. simpl.
    apply py_index_nat in Hx, Hx0.
    specialize (IH (S ii) x1 HR' Hx1) as (L1 & L2 & Hall).
    split; [simpl; now rewrite L1|]. split; [simpl; now rewrite L2|].
    intros [|k] doc' t i; simpl.
    + intros H1 H2 H3. injection H1 as <-. injection H2 as <-.
      injection H3 as <-. split; [|exact Hk].
      apply (HR 0); [reflexivity | |]; now rewrite Nat.add_0_r.
    + apply Hall.
Qed.

Lemma keep_docs (ii : nat) (in_docs : list (list nat)) (tm ix : list nat)
    (out : part) :
  loop ii in_docs tm ix = inr out -> out.1.1 = List.filter keep in_docs.
Proof.
  revert ii out. induction in_docs as [|doc rest IH]; intros ii out.
  - rewrite loop_nil. intros H. now injection H as <-.
  - rewrite loop_cons. simpl. destruct (keep doc); [|apply IH].
    intros H. invert_sum H. subst out. simpl. f_equal. eapply IH; eauto.
Qed.

Lemma keep_sublist (ii : nat) (in_docs : list (list nat)) (tm ix : list nat)
    (out : part) :
  loop ii in_docs tm ix = inr out ->
  out.1.2 `sublist_of` drop ii tm /\ out.2 `sublist_of` drop ii ix.
Proof.
  revert ii out. induction in_docs as [|doc rest IH]; intros ii out.
  - rewrite loop_nil. intros H. injection H as <-.
    split; apply sublist_nil_l.
  - rewrite loop_cons.
    assert (forall l : list nat, drop (S ii) l `sublist_of` drop ii l) as Hd.
    { intros l. destruct (l !! ii) as [y|] eqn:Hy.
      - rewrite (drop_S l y ii Hy). apply sublist_cons. reflexivity.
      - apply lookup_ge_None in Hy. rewrite !drop_ge by lia. reflexivity. }
    destruct (keep doc).
    + intros H. invert_sum H. subst out. simpl.
      apply py_index_nat in Hx, Hx0.
      destruct (IH (S ii) x1 Hx1) as (S1 & S2).
      rewrite (drop_S tm x ii Hx), (drop_S ix x0 ii Hx0).
      split; now apply sublist_skip.
    + intros H. destruct (IH (S ii) out H) as (S1 & S2).
      split; etransitivity; eauto.
Qed.

Lemma keep_returns (ii : nat) (in_docs : list (list nat)) (tm ix : list nat) :
  ii + length in_docs <= length tm -> ii + length in_docs <= length ix ->
  exists out, loop ii in_docs tm ix = inr out.
Proof.
  revert ii. induction in_docs as [|doc rest IH]; intros ii H1 H2.
  - rewrite loop_nil. eauto.
  - rewrite loop_cons. simpl in H1, H2.
    destruct (IH (S ii)) as (out & Hout); [lia | lia |].
    destruct (keep doc); [|eauto].
    destruct (py_index_in_range tm ii) as (t & -> & _); [lia|].
    destruct (py_index_in_range ix ii) as (i & -> & _); [lia|].
    simpl. rewrite Hout. simpl. eauto.
Qed.

Lemma keep_raises (ii : nat) (in_docs : list (list nat)) (tm ix : list nat)
    (e : exn) :
  loop ii in_docs tm ix = inl e -> e = IndexError.
Proof.
  revert ii. induction in_docs as [|doc rest IH]; intros ii.
  - rewrite loop_nil. discriminate.
  - rewrite loop_cons. destruct (keep doc); [|apply IH].
    destruct (py_index tm (Z.of_nat ii)) as [e1 | t] eqn:Ht; simpl.
    + intros H. injection H as <-. eapply py_index_error; eauto.
    + destruct (py_index ix (Z.of_nat ii)) as [e2 | i] eqn:Hi; simpl.
      * intros H. injection H as <-. eapply py_index_error; eauto.
      * destruct (loop (S ii) rest tm ix) as [e3 | out] eqn:Hl; simpl;
          [|discriminate].
        intros H. injection H as <-. eapply IH; eauto.
Qed.

Lemma keep_complete (ii : nat) (in_docs : list (list nat)) (tm ix : list nat)
    (out : part) :
  loop ii in_docs tm ix = inr out ->
  forall k doc t i,
    in_docs !! k = Some doc -> tm !! (ii + k) = Some t ->
    ix !! (ii + k) = Some i -> keep doc = true ->
    exists k',
      out.1.1 !! k' = Some doc /\ out.1.2 !! k' = Some t
      /\ out.2 !! k' = Some i.
Proof.
  revert ii out. induction in_docs as [|d0 rest IH];
    intros ii out Hout k doc t i Hd Ht Hi Hk; [discriminate|].
  rewrite loop_cons in Hout. destruct k as [|k]; simpl in Hd.
  - injection Hd as ->. rewrite Hk in Hout. invert_sum Hout. subst out.
    apply py_index_nat in Hx, Hx0. rewrite Nat.add_0_r in Ht, Hi.
    exists 0. simpl. split; [reflexivity|]. split; congruence.
  - rewrite <- Nat.add_succ_comm in Ht, Hi. destruct (keep d0).
    + invert_sum Hout. subst out.
      destruct (IH _ _ Hx1 k doc t i Hd Ht Hi Hk) as (k' & Hk').
      exists (S k'). simpl. exact Hk'.
    + eapply IH; eauto.
Qed.
End Keep.

Lemma remove_empty_loop :
  (forall ii tm ix, remove_empty_from ii [] tm ix = inr ([], [], []))
  /\ forall ii doc rest tm ix,
       remove_empty_from ii (doc :: rest) tm ix
       = if nonempty doc then
           and_then (py_index tm (Z.of_nat ii)) (fun t =>
           and_then (py_index ix (Z.of_nat ii)) (fun i =>
           map_sum (fun out : part =>
                      (doc :: out.1.1, t :: out.1.2, i :: out.2))
                   (remove_empty_from (S ii) rest tm ix)))
         else remove_empty_from (S ii) rest tm ix.
Proof. split; [reflexivity|]. intros ii [|w doc] rest tm ix; reflexivity. Qed.

Lemma remove_by_threshold_loop (thr : Z) :
  (forall ii tm ix,
     remove_by_threshold_from ii [] tm ix thr = inr ([], [], []))
  /\ forall ii doc rest tm ix,
       remove_by_threshold_from ii (doc :: rest) tm ix thr
       = if (thr <? Z.of_nat (length doc))%Z then
           and_then (py_index tm (Z.of_nat ii)) (fun t =>
           and_then (py_index ix (Z.of_nat ii)) (fun i =>
           map_sum (fun out : part =>
                      (doc :: out.1.1, t :: out.1.2, i :: out.2))
                   (remove_by_threshold_from (S ii) rest tm ix thr)))
         else remove_by_threshold_from (S ii) rest tm ix thr.
Proof. split; reflexivity. Qed.

Lemma threshold_zero_from (ii : nat) (in_docs : list (list nat))
    (tm ix : list nat) :
  remove_by_threshold_from ii in_docs tm ix 0
  = remove_empty_from ii in_docs tm ix.
Proof.
  revert ii. induction in_docs as [|doc rest IH]; intros ii.
  - reflexivity.
  - destruct doc as [|w doc]; simpl; rewrite IH; reflexivity.
Qed.

Lemma taken_from_start (in_docs : list (list nat)) (tm ix : list nat) :
  forall k doc t i,
    in_docs !! k = Some doc -> tm !! (0 + k) = Some t ->
    ix !! (0 + k) = Some i -> taken_from in_docs tm ix doc t i.
Proof. intros k doc t i H1 H2 H3. exists k. auto. Qed.

(** X17. Given a timestamp and an index for every document,
    [remove_empty] returns the non-empty documents in their order,
    each still next to its own timestamp and index;
    [remove_by_threshold] does the same for the documents longer than
    the threshold, and with threshold 0 it is [remove_empty]. The only
    exception either can raise is [IndexError]. *)
Theorem removal_keeps_triples (in_docs : list (list nat)) (tm ix : list nat)
    (thr : Z)
    (Htm : length in_docs <= length tm)
    (Hix : length in_docs <= length ix) :
  (exists out,
     remove_empty in_docs tm ix = inr out
     /\ out.1.1 = List.filter nonempty in_docs
     /\ aligned (fun doc t i => taken_from in_docs tm ix doc t i
                                /\ nonempty doc = true) out)
  /\ (exists out,
        remove_by_threshold in_docs tm ix thr = inr out
        /\ out.1.1
           = List.filter (fun doc => (thr <? Z.of_nat (length doc))%Z) in_docs
        /\ aligned (fun doc t i =>
                      taken_from in_docs tm ix doc t i
                      /\ (thr <? Z.of_nat (length doc))%Z = true) out)
  /\ remove_by_threshold in_docs tm ix 0 = remove_empty in_docs tm ix
  /\ (forall tm' ix' e,
        remove_empty in_docs tm' ix' = inl e
        \/ remove_by_threshold in_docs tm' ix' thr = inl e ->
        e = IndexError).
Proof.
  destruct remove_empty_loop as (En & Ec).
  destruct (remove_by_threshold_loop thr) as (Tn & Tc).
  split; [|split; [|split]].
  - destruct (keep_returns nonempty remove_empty_from En Ec 0 in_docs tm ix)
      as (out & Hout); [simpl; lia | simpl; lia |].
    exists out. split; [exact Hout|]. split.
    + exact (keep_docs nonempty remove_empty_from En Ec 0 _ _ _ _ Hout).
    + exact (keep_aligned nonempty remove_empty_from En Ec _ 0 _ _ _ _
               (taken_from_start in_docs tm ix) Hout).
  - destruct (keep_returns _ (fun ii l t i =>
                                remove_by_threshold_from ii l t i thr)
                Tn Tc 0 in_docs tm ix) as (out & Hout);
      [simpl; lia | simpl; lia |].
    exists out. split; [exact Hout|]. split.
    + exact (keep_docs _ (fun ii l t i =>
                            remove_by_threshold_from ii l t i thr)
               Tn Tc 0 _ _ _ _ Hout).
    + exact (keep_aligned _ (fun ii l t i =>
                               remove_by_threshold_from ii l t i thr)
               Tn Tc _ 0 _ _ _ _ (taken_from_start in_docs tm ix) Hout).
  - apply threshold_zero_from.
  - intros tm' ix' e [H | H].
    + exact (keep_raises nonempty remove_empty_from En Ec 0 _ _ _ _ H).
    + exact (keep_raises _ (fun ii l t i =>
                              remove_by_threshold_from ii l t i thr)
               Tn Tc 0 _ _ _ _ H).
Qed.

Lemma removal_keeps_triples_witness :
  exists out,
    remove_empty [[1; 2]; []; [3]] [7; 8; 9] [4; 5; 6] = inr out
    /\ out.1.1 = [[1; 2]; [3]].
Proof.
  destruct (removal_keeps_triples [[1; 2]; []; [3]] [7; 8; 9] [4; 5; 6] 1)
    as ((out & H1 & H2 & _) & _); [simpl; lia | simpl; lia |].
  exists out. split; [exact H1 | exact H2].
Defined.

(** *** Where the saved documents come from *)

Lemma permuted_inr {A} (x : list A) (idx : list nat) (i : Z) (t : A) :
  permuted x idx i = inr t ->
  exists j, py_index idx i = inr j /\ x !! j = Some t.
Proof.
  unfold permuted. destruct (py_index idx i) as [e | j]; [discriminate|].
  intros H. apply py_index_nat in H. eauto.
Qed.

Lemma gather_positions {A B} (x : list A) (idx : list nat)
    (f : A -> exn + B) (offset size : Z) (ys : list B) :
  gather x idx f offset size = inr ys ->
  Forall2 (fun i y => exists j t,
             py_index idx (i + offset) = inr j /\ x !! j = Some t
             /\ f t = inr y)
          (py_range size) ys.
Proof.
  unfold gather. intros H. apply mapE_inr in H.
  eapply Forall2_impl; [exact H|]. simpl. intros i y Hy.
  invert_sum Hy. apply permuted_inr in Hx as (j & Hj & Ht). eauto.
Qed.

Lemma positions_aligned {A} (a : args) (V : list pystr) (x : list A)
    (idx : list nat) (g : A -> exn + nat) (pos : Z -> Z)
    (offset size : Z) (ds : list (list nat)) (tm ix : list nat) :
  (forall i, pos i = (i + offset)%Z) ->
  gather (docs a) idx (fun t => inr (doc_ids (make_word2id V) t))
    offset size = inr ds ->
  gather x idx g offset size = inr tm ->
  mapE (fun i => py_index idx (pos i)) (py_range size) = inr ix ->
  aligned (fun doc t i => comes_from a V doc i) (ds, tm, ix).
Proof.
  intros Hpos Hd Ht Hi.
  apply gather_positions in Hd. apply gather_positions in Ht.
  apply mapE_inr in Hi.
  pose proof (Forall2_length _ _ _ Hd) as L1.
  pose proof (Forall2_length _ _ _ Ht) as L2.
  pose proof (Forall2_length _ _ _ Hi) as L3.
  split; [simpl; congruence|]. split; [simpl; congruence|].
  simpl. intros k doc t i Hdoc _ Hix.
  destruct (Forall2_lookup_r _ _ _ _ _ Hd Hdoc)
    as (p & Hp & j & text & Hj & Htext & Hids).
  destruct (Forall2_lookup_r _ _ _ _ _ Hi Hix) as (p' & Hp' & Hj').
  rewrite Hp in Hp'. injection Hp' as <-.
  rewrite Hpos, Hj in Hj'. injection Hj' as <-.
  injection Hids as <-. exists text. auto.
Qed.

Lemma tokenize_provenance (a : args) (x : extern) (tms cv : list pystr)
    (V : list pystr) (tr ts va : part) :
  tokenize a x tms cv = inr (V, tr, ts, va) ->
  aligned (fun doc t i => comes_from a V doc i) tr
  /\ aligned (fun doc t i => comes_from a V doc i) ts
  /\ aligned (fun doc t i => comes_from a V doc i) va.
Proof.
  unfold tokenize. intros H. invert_sum H.
  injection H as <- <- <- <-.
  split; [|split].
  - eapply (positions_aligned a _ tms _ _ (fun i => i)); eauto.
    intros i. lia.
  - eapply (positions_aligned a _ tms _ _ (fun i => (i + _)%Z)); eauto.
  - eapply (positions_aligned a _ tms _ _ (fun i => (i + _ + _)%Z)); eauto.
    intros i. simpl. lia.
Qed.

Lemma aligned_keep (keep : list nat -> bool)
    (loop : nat -> list (list nat) -> list nat -> list nat -> exn + part)
    (R : list nat -> nat -> nat -> Prop) (p out : part) :
  (forall ii tm ix, loop ii [] tm ix = inr ([], [], [])) ->
  (forall ii doc rest tm ix,
     loop ii (doc :: rest) tm ix
     = if keep doc then
         and_then (py_index tm (Z.of_nat ii)) (fun t =>
         and_then (py_index ix (Z.of_nat ii)) (fun i =>
         map_sum (fun out : part =>
                    (doc :: out.1.1, t :: out.1.2, i :: out.2))
                 (loop (S ii) rest tm ix)))
       else loop (S ii) rest tm ix) ->
  aligned R p -> loop 0 p.1.1 p.1.2 p.2 = inr out ->
  aligned (fun doc t i => R doc t i /\ keep doc = true) out.
Proof.
  intros Hn Hc (_ & _ & HR) Hout.
  eapply (keep_aligned keep loop Hn Hc R 0); [|exact Hout].
  intros k doc t i. simpl. apply HR.
Qed.

Lemma aligned_weaken (R R' : list nat -> nat -> nat -> Prop) (p : part) :
  (forall doc t i, R doc t i -> R' doc t i) -> aligned R p -> aligned R' p.
Proof. intros Himp (L1 & L2 & H). repeat split; eauto. Qed.

Lemma clean_provenance (R : list nat -> nat -> nat -> Prop)
    (tr ts va tr' ts' va' : part) :
  clean tr ts va = inr (tr', ts', va') ->
  aligned R tr -> aligned R ts -> aligned R va ->
  aligned R tr' /\ aligned R ts' /\ aligned R va'.
Proof.
  unfold clean, remove_empty, remove_by_threshold. intros H Htr Hts Hva.
  invert_sum H. injection H as <- <- <-.
  destruct remove_empty_loop as (En & Ec).
  destruct (remove_by_threshold_loop 1) as (Tn & Tc).
  pose proof (aligned_keep _ _ R _ _ En Ec Htr Hx) as A1.
  pose proof (aligned_keep _ _ R _ _ En Ec Hts Hx0) as A2.
  pose proof (aligned_keep _ _ R _ _ En Ec Hva Hx1) as A3.
  pose proof (aligned_keep _ (fun ii l t i =>
                                remove_by_threshold_from ii l t i 1)
                _ _ _ Tn Tc A2 Hx2) as A4.
  split; [|split].
  - eapply aligned_weaken; [|exact A1]. simpl. tauto.
  - eapply aligned_weaken; [|exact A4]. simpl. tauto.
  - eapply aligned_weaken; [|exact A3]. simpl. tauto.
Qed.

Lemma save_fields (ext : extern) (ps : string) (V : list pystr)
    (tr ts va : part) (d d' : disk) (r : result) :
  save ext ps V tr ts va d = (inr r, d') ->
  (docs_tr r, timestamps_tr r, indices_tr r) = tr
  /\ (docs_ts r, timestamps_ts r, indices_ts r) = ts
  /\ (docs_va r, timestamps_va r, indices_va r) = va
  /\ vocab r = V
  /\ mapE (text_line (make_id2word V)) tr.1.1 = inr (text_tr r)
  /\ mapE (text_line (make_id2word V)) ts.1.1 = inr (text_ts r)
  /\ mapE (text_line (make_id2word V)) va.1.1 = inr (text_va r)
  /\ n_docs_tr r = length tr.1.1 /\ n_docs_ts r = length ts.1.1
  /\ n_docs_va r = length va.1.1.
Proof.
  unfold save. intros H. invert_bind H.
  unfold ret in H. injection H as <- _. simpl.
  destruct tr as [[? ?] ?], ts as [[? ?] ?], va as [[? ?] ?].
  repeat split; assumption.
Qed.

Lemma run_provenance (a : args) (x : extern) (d : disk) (r : result) :
  (preprocessing a x d).1 = inr r ->
  aligned (fun doc (t i : nat) => comes_from a (vocab r) doc i)
    (docs_tr r, timestamps_tr r, indices_tr r)
  /\ aligned (fun doc (t i : nat) => comes_from a (vocab r) doc i)
       (docs_ts r, timestamps_ts r, indices_ts r)
  /\ aligned (fun doc (t i : nat) => comes_from a (vocab r) doc i)
       (docs_va r, timestamps_va r, indices_va r).
Proof.
  intros Hrun.
  apply preprocessing_stages in Hrun
    as (_ & tms & cv & c & k & d1 & d2 & _ & _ & Htok & Hclean & Hsave).
  destruct c as [[[V tr] ts] va]. destruct k as [[tr' ts'] va'].
  simpl in *.
  apply tokenize_provenance in Htok as (Atr & Ats & Ava).
  destruct (clean_provenance _ _ _ _ _ _ _ Hclean Atr Ats Ava)
    as (Atr' & Ats' & Ava').
  apply save_fields in Hsave as (-> & -> & -> & -> & _).
  auto.
Qed.

(** X18. In a run that returns, the documents, timestamps and indices
    saved for each set have the same length, and the document at each
    position is made of the ids, in the final vocabulary, of the words
    of the input document whose number is the index saved at that
    position. *)
Theorem saved_documents_provenance (a : args) (x : extern) (d : disk)
    (r : result) (Hrun : (preprocessing a x d).1 = inr r) :
  let from := fun doc (t i : nat) => comes_from a (vocab r) doc i in
  aligned from (docs_tr r, timestamps_tr r, indices_tr r)
  /\ aligned from (docs_ts r, timestamps_ts r, indices_ts r)
  /\ aligned from (docs_va r, timestamps_va r, indices_va r).
Proof. exact (run_provenance a x d r Hrun). Qed.

Lemma saved_documents_provenance_witness :
  exists r,
    example_run.1 = inr r
    /\ aligned (fun doc (t i : nat) =>
                  comes_from (example_args well_formed_split) (vocab r) doc i)
         (docs_tr r, timestamps_tr r, indices_tr r).
Proof.
  eexists. split; [vm_compute; reflexivity|].
  eapply (saved_documents_provenance (example_args well_formed_split)
            example_extern (start ∅)).
  vm_compute. reflexivity.
Defined.

(** *** Dictionaries built by [enumerate] *)

Lemma py_dict_skip `{Countable K} {V} (pairs : list (K * V))
    (m : gmap K V) (k : K) :
  ~ In k (map fst pairs) ->
  fold_left (fun m kv => <[kv.1 := kv.2]> m) pairs m !! k = m !! k.
Proof.
  revert m. induction pairs as [|[k' v'] pairs IH]; intros m Hk; simpl.
  - reflexivity.
  - simpl in Hk. rewrite IH by tauto. simpl.
    apply lookup_insert_ne. intros ->. tauto.
Qed.

Lemma py_dict_to `{Countable K} {V} (pairs : list (K * V))
    (m : gmap K V) (k : K) (v : V) :
  In (k, v) pairs ->
  (forall v', In (k, v') pairs -> v' = v) ->
  fold_left (fun m kv => <[kv.1 := kv.2]> m) pairs m !! k = Some v.
Proof.
  revert m. induction pairs as [|[k' v'] pairs IH]; intros m Hin Hfun;
    simpl in *; [tauto|].
  destruct (in_dec (fun a b : K => decide (a = b)) k (map fst pairs))
    as [Hk | Hk].
  - apply in_map_iff in Hk as ([k2 v2] & Heq & Hk). simpl in Heq. subst k2.
    assert (v2 = v) as -> by (apply Hfun; auto).
    apply IH; auto.
  - rewrite py_dict_skip by assumption. simpl.
    destruct Hin as [Heq | Hin].
    + injection Heq as -> ->. apply lookup_insert_eq.
    + exfalso. apply Hk. apply in_map_iff. exists (k, v). auto.
Qed.

Lemma py_dict_keys `{Countable K} {V} (pairs : list (K * V))
    (m : gmap K V) (k : K) :
  is_Some (fold_left (fun m kv => <[kv.1 := kv.2]> m) pairs m !! k)
  <-> In k (map fst pairs) \/ is_Some (m !! k).
Proof.
  revert m. induction pairs as [|[k' v'] pairs IH]; intros m; simpl.
  - tauto.
  - rewrite IH. simpl. rewrite lookup_insert_is_Some.
    destruct (decide (k' = k)); tauto.
Qed.

Lemma enumerate_In {A} (l : list A) (j : nat) (w : A) :
  In (j, w) (enumerate l) <-> l !! j = Some w.
Proof.
  rewrite <- list_elem_of_In. unfold enumerate.
  rewrite elem_of_lookup_imap. split.
  - intros (i & y & Heq & Hi). now injection Heq as -> ->.
  - intros Hj. eauto.
Qed.

Lemma enumerate_swap_In {A} (l : list A) (j : nat) (w : A) :
  In (w, j) (map (fun jw : nat * A => (jw.2, jw.1)) (enumerate l))
  <-> l !! j = Some w.
Proof.
  rewrite in_map_iff. split.
  - intros ([j' w'] & Heq & Hin). simpl in Heq. injection Heq as -> ->.
    now apply enumerate_In.
  - intros Hj. exists (j, w). split; [reflexivity | now apply enumerate_In].
Qed.

Lemma word2id_lookup (V : list pystr) (w : pystr) (j : nat) :
  NoDup V -> make_word2id V !! w = Some j <-> V !! j = Some w.
Proof.
  intros Hnd. unfold make_word2id, py_dict. split.
  - intros Hl. apply py_dict_from in Hl as [Hl | Hl].
    + rewrite lookup_empty in Hl. discriminate.
    + now apply enumerate_swap_In.
  - intros Hj. apply py_dict_to.
    + now apply enumerate_swap_In.
    + intros j' Hj'. apply enumerate_swap_In in Hj'.
      eapply NoDup_lookup; eauto.
Qed.

Lemma id2word_lookup (V : list pystr) (w : pystr) (j : nat) :
  make_id2word V !! j = Some w <-> V !! j = Some w.
Proof.
  unfold make_id2word, py_dict. split.
  - intros Hl. apply py_dict_from in Hl as [Hl | Hl].
    + rewrite lookup_empty in Hl. discriminate.
    + now apply enumerate_In.
  - intros Hj. apply py_dict_to.
    + now apply enumerate_In.
    + intros w' Hw'. apply enumerate_In in Hw'. congruence.
Qed.

Lemma known_iff (V : list pystr) (w : pystr) :
  known (make_word2id V) w = true <-> w ∈ V.
Proof.
  unfold known. rewrite bool_decide_eq_true.
  unfold make_word2id, py_dict. rewrite py_dict_keys.
  rewrite lookup_empty. rewrite list_elem_of_In. split.
  - intros [Hin | Hs]; [|destruct Hs; discriminate].
    apply in_map_iff in Hin as ([w' j] & Heq & Hin). simpl in Heq. subst w'.
    apply in_map_iff in Hin as ([j' w'] & Heq & Hin).
    simpl in Heq. injection Heq as -> ->.
    apply enumerate_In in Hin. apply list_elem_of_In.
    eapply list_elem_of_lookup_2; eauto.
  - intros Hin. left. apply list_elem_of_In in Hin.
    apply list_elem_of_lookup_1 in Hin as (j & Hj).
    apply in_map_iff. exists (w, j). split; [reflexivity|].
    now apply enumerate_swap_In.
Qed.

Lemma list_set_elem (l : list pystr) (w : pystr) :
  w ∈ list_set l <-> w ∈ l.
Proof.
  unfold list_set. rewrite elem_of_elements. apply elem_of_list_to_set.
Qed.

Lemma list_set_NoDup (l : list pystr) : NoDup (list_set l).
Proof. unfold list_set. apply NoDup_elements. Qed.

(** *** The vocabulary *)

Lemma gather_at {A B} (x : list A) (idx : list nat) (f : A -> exn + B)
    (pos : Z -> Z) (offset size : Z) (ys : list B) (ix : list nat) :
  (forall i, pos i = (i + offset)%Z) ->
  gather x idx f offset size = inr ys ->
  mapE (fun i => py_index idx (pos i)) (py_range size) = inr ix ->
  length ix = length ys
  /\ (forall k i, ix !! k = Some i ->
        exists t y, ys !! k = Some y /\ x !! i = Some t /\ f t = inr y).
Proof.
  intros Hpos Hd Hi.
  apply gather_positions in Hd. apply mapE_inr in Hi.
  pose proof (Forall2_length _ _ _ Hd) as L1.
  pose proof (Forall2_length _ _ _ Hi) as L2.
  split; [congruence|].
  intros k i Hix.
  destruct (Forall2_lookup_r _ _ _ _ _ Hi Hix) as (p & Hp & Hj).
  destruct (Forall2_lookup_l _ _ _ _ _ Hd Hp)
    as (y & Hy & j & t & Hj' & Ht & Hf).
  rewrite Hpos, Hj' in Hj. injection Hj as ->. eauto.
Qed.

Lemma filter_stopwords (a : args) (cv : list pystr) (w : pystr) :
  w ∈ List.filter (fun w => negb (bool_decide (w ∈ stopwords a))) cv
  <-> w ∈ cv /\ w ∉ stopwords a.
Proof.
  rewrite list_elem_of_In, filter_In, <- list_elem_of_In.
  rewrite negb_true_iff, bool_decide_eq_false. tauto.
Qed.

Lemma known_filter (V : list pystr) (ws : list pystr) (w : pystr) :
  w ∈ List.filter (known (make_word2id V)) ws <-> w ∈ ws /\ w ∈ V.
Proof.
  rewrite list_elem_of_In, filter_In, <- list_elem_of_In, known_iff. tauto.
Qed.

Lemma tokenize_vocabulary (a : args) (x : extern) (tms cv : list pystr)
    (V : list pystr) (tr ts va : part) :
  tokenize a x tms cv = inr (V, tr, ts, va) -> vocabulary_of a cv V tr.
Proof.
  unfold tokenize. intros H. invert_sum H.
  injection H as <- <- <- <-.
  rename x1 into train_words. rename Hx0 into Hwords.
  destruct (gather_at _ _ _ (fun i => i) _ _ _ _
              (fun i => eq_sym (Z.add_0_r i)) Hwords Hx7) as (Lw & Hw).
  destruct (gather_at _ _ _ (fun i => i) _ _ _ _
              (fun i => eq_sym (Z.add_0_r i)) Hx1 Hx7) as (Ld & Hd).
  destruct (gather_at _ _ _ (fun i => i) _ _ _ _
              (fun i => eq_sym (Z.add_0_r i)) Hx4 Hx7) as (Lt & Ht).
  split; [apply list_set_NoDup|]. split.
  - intros w Hin. apply (proj1 (list_set_elem _ _)) in Hin.
    apply (proj1 (list_elem_of_In _ _)) in Hin.
    apply in_concat in Hin as (ws & Hws & Hin).
    apply (proj2 (list_elem_of_In _ _)) in Hws.
    apply list_elem_of_lookup_1 in Hws as (k & Hk).
    assert (is_Some (x8 !! k)) as (i & Hi).
    { apply lookup_lt_is_Some. rewrite Lw. eapply lookup_lt_Some; eauto. }
    destruct (Hw k i Hi) as (text & ws' & Hk' & Htext & Heq).
    rewrite Hk in Hk'. injection Hk' as <-. injection Heq as <-.
    apply (proj2 (list_elem_of_In _ _)) in Hin.
    apply (proj1 (known_filter _ _ _)) in Hin as (Hin & Hcv).
    assert (w ∈ list_set (concat train_words)) as Hcv0.
    { apply (proj2 (list_set_elem _ _)).
      apply (proj2 (list_elem_of_In _ _)). apply in_concat.
      exists (List.filter
                (known (make_word2id
                          (List.filter
                             (fun w => negb (bool_decide (w ∈ stopwords a)))
                             cv)))
                (split text)).
      split.
      - apply (proj1 (list_elem_of_In _ _)).
        eapply list_elem_of_lookup_2; eauto.
      - apply (proj1 (list_elem_of_In _ _)).
        apply (proj2 (known_filter _ _ _)). auto. }
    apply (proj1 (filter_stopwords _ _ _)) in Hcv as (Hcv & Hstop).
    split; [exact Hcv|]. split; [exact Hstop|].
    destruct (Hd k i Hi) as (text' & doc & Hdoc & Htext' & Hids).
    destruct (Ht k i Hi) as (_ & t & Htm & _ & _).
    rewrite Htext in Htext'. injection Htext' as <-.
    exists k, doc, t, i, text. simpl.
    do 5 (split; [assumption|]).
    destruct (list_elem_of_lookup_1 _ _ Hcv0) as (j & Hj).
    exists j. split; [exact Hj|].
    match goal with H : inr _ = inr doc |- _ => injection H as <- end.
    unfold doc_ids. apply list_elem_of_omap. exists w. split; [exact Hin|].
    apply word2id_lookup; [apply list_set_NoDup | exact Hj].
  - split; [simpl; congruence|]. split; [simpl; congruence|].
    simpl. intros k doc t i _ _ Hi text w Htext Hin Hcv Hstop.
    destruct (Hw k i Hi) as (text' & ws & Hk & Htext' & Heq).
    rewrite Htext in Htext'. injection Htext' as <-. injection Heq as <-.
    apply (proj2 (list_set_elem _ _)).
    apply (proj2 (list_elem_of_In _ _)). apply in_concat.
    exists (List.filter
              (known (make_word2id
                        (List.filter
                           (fun w => negb (bool_decide (w ∈ stopwords a)))
                           cv)))
              (split text)).
    split.
    + apply (proj1 (list_elem_of_In _ _)).
      eapply list_elem_of_lookup_2; eauto.
    + apply (proj1 (list_elem_of_In _ _)).
      apply (proj2 (known_filter _ _ _)). split; [exact Hin|].
      apply (proj2 (filter_stopwords _ _ _)). auto.
Qed.

Lemma clean_vocabulary (a : args) (cv V : list pystr)
    (tr ts va tr' ts' va' : part) :
  clean tr ts va = inr (tr', ts', va') ->
  vocabulary_of a cv V tr -> vocabulary_of a cv V tr'.
Proof.
  unfold clean, remove_empty. intros H (Hnd & Hex & Hal).
  invert_sum H. injection H as <- <- <-.
  destruct remove_empty_loop as (En & Ec).
  split; [exact Hnd|]. split.
  - intros w Hw.
    destruct (Hex w Hw)
      as (Hcv & Hstop & k & doc & t & i & text & Hd & Ht & Hi & Htext
          & Hin & j & Hj & Hjd).
    split; [exact Hcv|]. split; [exact Hstop|].
    assert (nonempty doc = true) as Hne.
    { destruct doc; [|reflexivity]. now apply elem_of_nil in Hjd. }
    destruct (keep_complete nonempty remove_empty_from Ec 0 _ _ _ _ Hx
                k doc t i Hd Ht Hi Hne) as (k' & Hd' & Ht' & Hi').
    exists k', doc, t, i, text. eauto 10.
  - eapply aligned_weaken;
      [|exact (aligned_keep _ _ _ _ _ En Ec Hal Hx)].
    simpl. tauto.
Qed.

Lemma run_vocabulary (a : args) (x : extern) (d : disk) (r : result) :
  (preprocessing a x d).1 = inr r ->
  exists cv,
    cv_words x = inr cv
    /\ vocabulary_of a cv (vocab r)
         (docs_tr r, timestamps_tr r, indices_tr r).
Proof.
  intros Hrun.
  apply preprocessing_stages in Hrun
    as (_ & tms & cv & c & k & d1 & d2 & _ & Hcv & Htok & Hclean & Hsave).
  destruct c as [[[V tr] ts] va]. destruct k as [[tr' ts'] va'].
  simpl in *. exists cv. split; [exact Hcv|].
  apply tokenize_vocabulary in Htok.
  apply (clean_vocabulary a cv V _ _ _ _ _ _ Hclean) in Htok.
  apply save_fields in Hsave as (-> & _ & _ & -> & _).
  exact Htok.
Qed.

(** X19. In a run that returns, the vocabulary has no repeated word,
    so words and ids correspond one to one; a word is in it exactly
    when CountVectorizer kept it, it is not a stopword and it occurs
    in an input document whose index is saved in the train set; and
    the id of every word of the vocabulary occurs in some saved train
    document. *)
Theorem vocabulary_is_train_words (a : args) (x : extern) (d : disk)
    (r : result) (Hrun : (preprocessing a x d).1 = inr r) :
  NoDup (vocab r)
  /\ (forall w j,
        make_word2id (vocab r) !! w = Some j <-> vocab r !! j = Some w)
  /\ (forall w,
        w ∈ vocab r
        <-> (exists cv, cv_words x = inr cv /\ w ∈ cv)
            /\ (w ∉ stopwords a)
            /\ exists k i text,
                 indices_tr r !! k = Some i /\ docs a !! i = Some text
                 /\ w ∈ split text)
  /\ (forall j w,
        vocab r !! j = Some w -> exists doc, doc ∈ docs_tr r /\ j ∈ doc).
Proof.
  destruct (run_vocabulary a x d r Hrun)
    as (cv & Hcv & Hnd & Hex & L1 & L2 & Hal).
  simpl in *.
  split; [exact Hnd|]. split; [intros w j; now apply word2id_lookup|].
  split.
  - intros w. split.
    + intros Hw.
      destruct (Hex w Hw)
        as (Hin & Hstop & k & doc & t & i & text & _ & _ & Hi & Htext
            & Hsp & _).
      split; [exists cv; auto|]. split; [exact Hstop|].
      exists k, i, text. auto.
    + intros ((cv' & Hcv' & Hin) & Hstop & k & i & text & Hi & Htext & Hsp).
      rewrite Hcv in Hcv'. injection Hcv' as <-.
      pose proof (lookup_lt_Some _ _ _ Hi) as Hlt.
      destruct (lookup_lt_is_Some_2 (docs_tr r) k) as (doc & Hd); [lia|].
      destruct (lookup_lt_is_Some_2 (timestamps_tr r) k) as (t & Ht);
        [lia|].
      exact (Hal k doc t i Hd Ht Hi text w Htext Hsp Hin Hstop).
  - intros j w Hj.
    destruct (Hex w (list_elem_of_lookup_2 _ _ _ Hj))
      as (_ & _ & k & doc & _ & _ & _ & Hd & _ & _ & _ & _ & j' & Hj'
          & Hjd).
    assert (j' = j) as -> by (eapply NoDup_lookup; eauto).
    exists doc. split; [|exact Hjd].
    eapply list_elem_of_lookup_2; eauto.
Qed.

Lemma vocabulary_is_train_words_witness :
  exists r, example_run.1 = inr r /\ NoDup (vocab r).
Proof.
  eexists. split; [vm_compute; reflexivity|].
  eapply (vocabulary_is_train_words (example_args well_formed_split)
            example_extern (start ∅)).
  vm_compute. reflexivity.
Defined.

(** *** The text files *)

Lemma text_line_ids (V : list pystr) (text : pystr) :
  NoDup V ->
  text_line (make_id2word V) (doc_ids (make_word2id V) text)
  = inr (join (lit " ")
      (List.filter (fun w => bool_decide (w ∈ V)) (split text))).
Proof.
  intros Hnd. unfold text_line, doc_ids.
  assert (forall ws,
            mapE (py_getitem (make_id2word V))
                 (omap (fun w => make_word2id V !! w) ws)
            = inr (List.filter (fun w => bool_decide (w ∈ V)) ws)) as Hws.
  { induction ws as [|w ws IH]; [reflexivity|]. simpl.
    destruct (make_word2id V !! w) as [j|] eqn:Hw.
    - apply word2id_lookup in Hw; [|exact Hnd].
      simpl. unfold py_getitem at 1.
      rewrite (proj2 (id2word_lookup V w j) Hw).
      change (list_omap pystr nat (fun w0 => make_word2id V !! w0) ws)
        with (omap (fun w0 : pystr => make_word2id V !! w0) ws).
      rewrite IH.
      rewrite bool_decide_eq_true_2; [reflexivity|].
      eapply list_elem_of_lookup_2; eauto.
    - rewrite bool_decide_eq_false_2; [exact IH|].
      intros Hin. apply list_elem_of_lookup_1 in Hin as (j & Hj).
      apply (word2id_lookup V w j Hnd) in Hj. congruence. }
  rewrite Hws. reflexivity.
Qed.

Lemma text_aligned (a : args) (V : list pystr) (ds : list (list nat))
    (tm ix : list nat) (txt : list pystr) :
  NoDup V ->
  aligned (fun doc (t i : nat) => comes_from a V doc i) (ds, tm, ix) ->
  mapE (text_line (make_id2word V)) ds = inr txt ->
  text_of a V ix txt.
Proof.
  intros Hnd (L1 & L2 & Hal) Htxt. simpl in *.
  apply mapE_inr in Htxt.
  pose proof (Forall2_length _ _ _ Htxt) as L3.
  split; [congruence|].
  intros k i Hi.
  pose proof (lookup_lt_Some _ _ _ Hi) as Hlt.
  destruct (lookup_lt_is_Some_2 ds k) as (doc & Hd); [lia|].
  destruct (lookup_lt_is_Some_2 tm k) as (t & Ht); [lia|].
  destruct (Hal k doc t i Hd Ht Hi) as (text & Htext & ->).
  destruct (Forall2_lookup_l _ _ _ _ _ Htxt Hd) as (line & Hline & Heq).
  rewrite text_line_ids in Heq by exact Hnd. injection Heq as <-.
  eauto.
Qed.

(** X20. In a run that returns, each of the three text files has one
    line for every saved index, and the line at a position is the
    words of the input document with that index that are in the
    vocabulary, in their order and separated by single spaces. *)
Theorem saved_text_round_trip (a : args) (x : extern) (d : disk)
    (r : result) (Hrun : (preprocessing a x d).1 = inr r) :
  text_of a (vocab r) (indices_tr r) (text_tr r)
  /\ text_of a (vocab r) (indices_ts r) (text_ts r)
  /\ text_of a (vocab r) (indices_va r) (text_va r).
Proof.
  destruct (run_vocabulary a x d r Hrun) as (cv & _ & Hnd & _).
  destruct (run_provenance a x d r Hrun) as (Atr & Ats & Ava).
  apply preprocessing_stages in Hrun
    as (_ & tms & cv' & c & k & d1 & d2 & _ & _ & _ & _ & Hsave).
  apply save_fields in Hsave
    as (Etr & Ets & Eva & EV & Ttr & Tts & Tva & _).
  rewrite <- Etr in Ttr. rewrite <- Ets in Tts. rewrite <- Eva in Tva.
  rewrite <- EV in Ttr, Tts, Tva. simpl in Ttr, Tts, Tva.
  split; [|split]; eapply text_aligned; eauto.
Qed.

Lemma saved_text_round_trip_witness :
  exists r,
    example_run.1 = inr r
    /\ text_of (example_args well_formed_split) (vocab r) (indices_tr r)
         (text_tr r).
Proof.
  eexists. split; [vm_compute; reflexivity|].
  eapply (saved_text_round_trip (example_args well_formed_split)
            example_extern (start ∅)).
  vm_compute. reflexivity.
Defined.

(** *** The three sets do not overlap *)

Lemma indices_take (idx : list nat) (pos : Z -> Z) (offset size : Z)
    (ix : list nat) :
  (forall i, pos i = (i + offset)%Z) -> (0 <= offset)%Z ->
  mapE (fun i => py_index idx (pos i)) (py_range size) = inr ix ->
  ix = take (Z.to_nat size) (drop (Z.to_nat offset) idx).
Proof.
  intros Hpos Hoff. unfold py_range. generalize (Z.to_nat size) as n.
  assert (forall n s ix,
            mapE (fun i => py_index idx (pos i)) (map Z.of_nat (seq s n))
            = inr ix ->
            ix = take n (drop (s + Z.to_nat offset) idx)) as Hgen.
  { clear ix. induction n as [|n IH]; intros s ix H; simpl in H.
    - injection H as <-. reflexivity.
    - destruct (py_index idx (pos (Z.of_nat s))) as [e | y] eqn:E;
        [discriminate|].
      destruct (mapE _ _) as [e | ys] eqn:E2; [discriminate|].
      injection H as <-. apply IH in E2. rewrite Hpos in E.
      replace (Z.of_nat s + offset)%Z
        with (Z.of_nat (s + Z.to_nat offset)) in E by lia.
      apply py_index_nat in E. rewrite (drop_S _ _ _ E). simpl.
      f_equal. exact E2. }
  intros n H. apply (Hgen n 0 ix H).
Qed.

(** The indices of the three sets before the cleaning are consecutive
    segments of the permutation. *)
Lemma tokenize_indices (a : args) (x : extern) (tms cv : list pystr)
    (trSize tsSize vaSize : Z) (V : list pystr) (tr ts va : part) :
  split_sizes a x = inr (trSize, tsSize, vaSize) ->
  (0 <= trSize)%Z -> (0 <= tsSize)%Z ->
  tokenize a x tms cv = inr (V, tr, ts, va) ->
  let trn := Z.to_nat trSize in
  let tsn := Z.to_nat tsSize in
  tr.2 = take trn (idx_permute x)
  /\ ts.2 = take tsn (drop trn (idx_permute x))
  /\ va.2 = take (Z.to_nat vaSize) (drop (trn + tsn) (idx_permute x)).
Proof.
  intros Hsz N0 N1 H. unfold tokenize in H.
  invert_sum H. rewrite Hsz in Hx. injection Hx as <-.
  injection H as _ <- <- <-. simpl in *.
  split; [|split].
  - rewrite (indices_take _ (fun i => i) 0 _ _
               (fun i => eq_sym (Z.add_0_r i)) (Z.le_refl 0) Hx7).
    reflexivity.
  - rewrite (indices_take _ _ _ _ _ (fun i => eq_refl) N0 Hx8).
    reflexivity.
  - rewrite (indices_take _ (fun i => (i + _ + _)%Z) (_ + _) _ _
               (fun i => eq_sym (Z.add_assoc i _ _))
               (Z.add_nonneg_nonneg _ _ N0 N1) Hx9).
    f_equal. f_equal. lia.
Qed.

Lemma segments_sublist {A} (l : list A) (n1 n2 n3 : nat) :
  take n1 l ++ take n2 (drop n1 l) ++ take n3 (drop (n1 + n2) l)
  `sublist_of` l.
Proof.
  transitivity (take n1 l ++ take n2 (drop n1 l) ++ drop (n1 + n2) l).
  - apply sublist_app; [reflexivity|].
    apply sublist_app; [reflexivity | apply sublist_take].
  - rewrite <- drop_drop, !take_drop. reflexivity.
Qed.

Lemma clean_indices (tr ts va tr' ts' va' : part) :
  clean tr ts va = inr (tr', ts', va') ->
  tr'.2 `sublist_of` tr.2 /\ ts'.2 `sublist_of` ts.2
  /\ va'.2 `sublist_of` va.2.
Proof.
  unfold clean, remove_empty, remove_by_threshold. intros H.
  invert_sum H. injection H as <- <- <-.
  destruct remove_empty_loop as (En & Ec).
  destruct (remove_by_threshold_loop 1) as (Tn & Tc).
  destruct (keep_sublist _ _ En Ec 0 _ _ _ _ Hx) as (_ & S1).
  destruct (keep_sublist _ _ En Ec 0 _ _ _ _ Hx0) as (_ & S2).
  destruct (keep_sublist _ _ En Ec 0 _ _ _ _ Hx1) as (_ & S3).
  destruct (keep_sublist _ (fun ii l t i =>
                              remove_by_threshold_from ii l t i 1)
              Tn Tc 0 _ _ _ _ Hx2) as (_ & S4).
  rewrite drop_0 in S1, S2, S3, S4.
  split; [exact S1|]. split; [|exact S3]. etransitivity; eauto.
Qed.

(** X21. When the sizes [trSize] and [tsSize] the call computes are
    not negative, the indices saved for the train, test and validation
    sets, one after the other, are taken in order from the random
    permutation: so no index is saved twice when the permutation has
    no repetition, and no set has more documents than its size. *)
Theorem sets_do_not_overlap (a : args) (x : extern) (d : disk) (r : result)
    (trSize tsSize vaSize : Z)
    (Hrun : (preprocessing a x d).1 = inr r)
    (Hsz : split_sizes a x = inr (trSize, tsSize, vaSize))
    (H0 : (0 <= trSize)%Z) (H1 : (0 <= tsSize)%Z) :
  (indices_tr r ++ indices_ts r ++ indices_va r) `sublist_of` idx_permute x
  /\ (NoDup (idx_permute x) ->
      NoDup (indices_tr r ++ indices_ts r ++ indices_va r))
  /\ length (indices_tr r) <= Z.to_nat trSize
  /\ length (indices_ts r) <= Z.to_nat tsSize
  /\ length (indices_va r) <= Z.to_nat vaSize.
Proof.
  apply preprocessing_stages in Hrun
    as (_ & tms & cv & c & k & d1 & d2 & _ & _ & Htok & Hclean & Hsave).
  destruct c as [[[V tr] ts] va]. destruct k as [[tr' ts'] va'].
  simpl in *.
  destruct (tokenize_indices _ _ _ _ _ _ _ _ _ _ _ Hsz H0 H1 Htok)
    as (Etr & Ets & Eva).
  destruct (clean_indices _ _ _ _ _ _ Hclean) as (S1 & S2 & S3).
  apply save_fields in Hsave as (Ftr & Fts & Fva & _).
  rewrite <- Ftr in S1. rewrite <- Fts in S2. rewrite <- Fva in S3.
  simpl in S1, S2, S3. rewrite Etr in S1. rewrite Ets in S2.
  rewrite Eva in S3.
  assert ((indices_tr r ++ indices_ts r ++ indices_va r)
          `sublist_of` idx_permute x) as Hsub.
  { etransitivity; [|apply segments_sublist].
    apply sublist_app; [exact S1|]. apply sublist_app; [exact S2|exact S3]. }
  split; [exact Hsub|]. split.
  - intros Hnd. eapply sublist_NoDup; eauto.
  - apply sublist_length in S1, S2, S3.
    rewrite length_take in S1, S2, S3.
    repeat split; lia.
Qed.

Lemma sets_do_not_overlap_witness :
  exists r,
    example_run.1 = inr r
    /\ (indices_tr r ++ indices_ts r ++ indices_va r)
       `sublist_of` [3; 0; 7; 2; 4; 1; 6; 5].
Proof.
  eexists. split; [vm_compute; reflexivity|].
  refine (proj1 (sets_do_not_overlap (example_args well_formed_split)
                   example_extern (start ∅) _ 4 3 1 _ _ _ _)).
  - vm_compute. reflexivity.
  - vm_compute. reflexivity.
  - lia.
  - lia.
Defined.

(** *** Runs that return, runs that raise *)

Lemma and_then_of_inr {A B} (r : exn + A) (k : A -> exn + B) (x : A) :
  r = inr x -> and_then r k = k x.
Proof. now intros ->. Qed.

Lemma bind_write_ok {A} (x : extern) (p : string) (k : unit -> P A)
    (d : disk) :
  write_error x p = None ->
  bind (write x p) k d
  = k tt {| fs := {[ p ]} ∪ fs d; ops := ops d ++ [OpWrite p] |}.
Proof. intros H. unfold bind, write. now rewrite H. Qed.

Lemma bind_write_fail {A} (x : extern) (p : string) (k : unit -> P A)
    (d : disk) (e : exn) (l : bool) :
  write_error x p = Some (e, l) ->
  bind (write x p) k d
  = (inl e,
     if l then {| fs := {[ p ]} ∪ fs d; ops := ops d ++ [OpWrite p] |}
     else d).
Proof. intros H. unfold bind, write. now rewrite H. Qed.

Lemma bind_lift_inr {A B} (r : exn + A) (k : A -> P B) (d : disk) (x : A) :
  r = inr x -> bind (lift r) k d = k x d.
Proof. now intros ->. Qed.

Lemma bind_lift_inl {A B} (r : exn + A) (k : A -> P B) (d : disk)
    (e : exn) :
  r = inl e -> bind (lift r) k d = (inl e, d).
Proof. now intros ->. Qed.

Lemma mapE_returns {A B} (f : A -> exn + B) (l : list A) :
  (forall x, In x l -> exists y, f x = inr y) ->
  exists ys, mapE f l = inr ys.
Proof.
  induction l as [|x l IH]; intros Hf; simpl.
  - eauto.
  - destruct (Hf x) as (y & ->); [now left|].
    destruct IH as (ys & ->); [intros x' Hx'; apply Hf; now right|].
    eauto.
Qed.

Lemma mapE_raises {A B} (f : A -> exn + B) (l : list A) (e : exn) :
  mapE f l = inl e -> exists x, In x l /\ f x = inl e.
Proof.
  induction l as [|x l IH]; simpl; [discriminate|].
  destruct (f x) as [e1 | y] eqn:Hf.
  - intros H. injection H as <-. eauto.
  - destruct (mapE f l) as [e2 | ys]; [|discriminate].
    intros H. injection H as <-.
    destruct IH as (x' & Hin & Hx'); [reflexivity|]. eauto.
Qed.

Lemma text_returns (V : list pystr) (ds : list (list nat)) :
  Forall (Forall (fun w => w < length V)) ds ->
  exists txt, mapE (text_line (make_id2word V)) ds = inr txt.
Proof.
  intros Hok. apply mapE_returns. intros doc Hdoc.
  rewrite List.Forall_forall in Hok. specialize (Hok doc Hdoc).
  unfold text_line.
  destruct (mapE_returns (py_getitem (make_id2word V)) doc) as (ws & ->).
  - intros j Hj. rewrite List.Forall_forall in Hok.
    destruct (lookup_lt_is_Some_2 V j (Hok j Hj)) as (w & Hw).
    exists w. unfold py_getitem.
    now rewrite (proj2 (id2word_lookup V w j) Hw).
  - simpl. eauto.
Qed.

Lemma create_bow_returns (in_docs : list (list nat)) (vocab_size : nat) :
  Forall (Forall (fun w => w < vocab_size)) in_docs ->
  create_bow (create_doc_indices in_docs) (create_list_words in_docs)
    (length in_docs) vocab_size
  = inr (map sum_duplicates in_docs).
Proof.
  intros Hok.
  assert (exists bow,
            create_bow (create_doc_indices in_docs)
              (create_list_words in_docs) (length in_docs) vocab_size
            = inr bow) as (bow & Hbow).
  { unfold create_bow, create_list_words.
    rewrite create_doc_indices_from, doc_indices_from_length.
    rewrite Nat.eqb_refl. simpl.
    assert (forallb (fun d => d <? length in_docs)
              (doc_indices_from 0 in_docs) = true) as ->.
    { apply forallb_forall. intros j Hj.
      apply doc_indices_from_In in Hj as (doc & Hd & _).
      apply Nat.ltb_lt. rewrite Nat.sub_0_r in Hd.
      eapply lookup_lt_Some; eauto. }
    assert (forallb (fun w => w <? vocab_size) (concat in_docs) = true)
      as ->.
    { apply forallb_forall. intros w Hw.
      apply in_concat in Hw as (doc & Hdoc & Hw).
      rewrite List.Forall_forall in Hok. specialize (Hok doc Hdoc).
      rewrite List.Forall_forall in Hok. apply Nat.ltb_lt. auto. }
    simpl. eauto. }
  rewrite Hbow. f_equal. now apply create_bow_rows in Hbow.
Qed.

Lemma split_bow_returns (bow : csr) :
  exists b, split_bow bow (length bow) = inr b.
Proof.
  unfold split_bow.
  assert (forall f : list (nat * nat) -> list nat,
            exists ys,
              mapE (fun doc => map_sum f (py_index bow (Z.of_nat doc)))
                   (seq 0 (length bow)) = inr ys) as Hrows.
  { intros f. apply mapE_returns. intros i Hi. apply in_seq in Hi.
    destruct (py_index_in_range bow i) as (row & -> & _); [lia|].
    simpl. eauto. }
  destruct (Hrows (map fst)) as (tk & ->).
  destruct (Hrows (map snd)) as (ct & ->).
  simpl. eauto.
Qed.

(** One write of [save]: it raises, which ends the call, or the file
    is there and the call goes on. *)
Ltac wr :=
  match goal with
  | |- context [bind (write ?x (?ps ++ ?f)%string) _ _] =>
      let E := fresh "E" in
      destruct (write_error x (ps ++ f)%string) as [[? ?]|] eqn:E;
      [ right; rewrite (bind_write_fail _ _ _ _ _ _ E);
        do 4 eexists; split; [reflexivity|]; split; [|exact E];
        unfold file_names; simpl; tauto
      | rewrite (bind_write_ok _ _ _ _ E); cbv beta; cbn [fs ops] ]
  end.
Ltac lf H := rewrite (bind_lift_inr _ _ _ _ H); cbv beta.

(** On documents whose ids are indices of the vocabulary nothing but
    a write can make [save] raise: it writes its eighteen files in this
    order and returns, or raises what the first failing write
    raises. *)
Lemma save_outcome (x : extern) (ps : string) (V : list pystr)
    (tr ts va : part) (d : disk) :
  Forall (Forall (fun w => w < length V)) tr.1.1 ->
  Forall (Forall (fun w => w < length V)) ts.1.1 ->
  Forall (Forall (fun w => w < length V)) va.1.1 ->
  (exists r d',
     save x ps V tr ts va d = (inr r, d')
     /\ ops d' = ops d ++ map (fun f => OpWrite (ps ++ f)) file_names
     /\ forall f, In f file_names -> write_error x (ps ++ f) = None)
  \/ (exists e d' f l,
        save x ps V tr ts va d = (inl e, d')
        /\ In f file_names /\ write_error x (ps ++ f) = Some (e, l)).
Proof.
  intros Otr Ots Ova.
  destruct (halves_ids _ _ Ots) as (Oh1 & Oh2).
  destruct (text_returns V _ Otr) as (ttr & Ttr).
  destruct (text_returns V _ Ots) as (tts & Tts).
  destruct (text_returns V _ Ova) as (tva & Tva).
  pose proof (create_bow_returns _ _ Otr) as Btr.
  pose proof (create_bow_returns _ _ Ots) as Bts.
  pose proof (create_bow_returns _ _ Oh1) as Bh1.
  pose proof (create_bow_returns _ _ Oh2) as Bh2.
  pose proof (create_bow_returns _ _ Ova) as Bva.
  destruct (split_bow_returns (map sum_duplicates tr.1.1)) as (btr & Str).
  destruct (split_bow_returns (map sum_duplicates ts.1.1)) as (bts & Sts).
  destruct (split_bow_returns (map sum_duplicates (map first_half ts.1.1)))
    as (bh1 & Sh1).
  destruct (split_bow_returns (map sum_duplicates (map second_half ts.1.1)))
    as (bh2 & Sh2).
  destruct (split_bow_returns (map sum_duplicates va.1.1)) as (bva & Sva).
  rewrite !length_map in Str, Sts, Sh1, Sh2, Sva.
  unfold save. cbv zeta.
  wr. wr. lf Ttr. wr. lf Tts. wr. lf Tva.
  lf Btr. lf Bts. lf Bh1. lf Bh2. lf Bva.
  wr. wr. wr. wr.
  lf Str. wr. wr. lf Sts. wr. wr. lf Sh1. wr. wr. lf Sh2. wr. wr.
  lf Sva. wr. wr.
  left. unfold ret. do 2 eexists. split; [reflexivity|]. split.
  - cbn [ops]. unfold file_names. cbn [map].
    rewrite <- !app_assoc. reflexivity.
  - intros f Hf. unfold file_names in Hf. cbn [In] in Hf.
    repeat (destruct Hf as [<- | Hf]; [assumption|]). destruct Hf.
Qed.

Lemma bind_lift_r {A B} (x : A) (k : A -> P B) (d : disk) :
  bind (lift (inr x)) k d = k x d.
Proof. reflexivity. Qed.

Lemma bind_lift_l {A B} (e : exn) (k : A -> P B) (d : disk) :
  bind (lift (inl e : exn + A)) k d = (inl e, d).
Proof. reflexivity. Qed.

Lemma bind_get {A} (k : disk -> P A) (d : disk) : bind get k d = k d d.
Proof. reflexivity. Qed.

Lemma bind_makedirs_ok {A} (x : extern) (p : string) (k : unit -> P A)
    (d : disk) :
  makedirs_error x = None ->
  bind (makedirs x p) k d
  = k tt {| fs := {[ p ]} ∪ (makedirs_also x ∪ fs d);
            ops := ops d ++ [OpMakeDirs p] |}.
Proof. intros H. unfold bind, makedirs. now rewrite H. Qed.

Lemma bind_makedirs_fail {A} (x : extern) (p : string) (k : unit -> P A)
    (d : disk) (e : exn) :
  makedirs_error x = Some e ->
  bind (makedirs x p) k d
  = (inl e, {| fs := makedirs_also x ∪ fs d; ops := ops d |}).
Proof. intros H. unfold bind, makedirs. now rewrite H. Qed.

Lemma check_timestamps_inr (a : args) (tms : list pystr) :
  check_timestamps a = inr tms -> length tms = length (docs a).
Proof.
  unfold check_timestamps. destruct (timestamps a) as [|t l] eqn:E.
  - intros H. injection H as <-. apply repeat_length.
  - destruct (length (docs a) =? length (t :: l)) eqn:Hlen; [|discriminate].
    intros H. injection H as <-. apply Nat.eqb_eq in Hlen. congruence.
Qed.

Lemma check_timestamps_inl (a : args) (e : exn) :
  check_timestamps a = inl e ->
  e = ValueError /\ timestamps a <> []
  /\ length (docs a) <> length (timestamps a).
Proof.
  unfold check_timestamps. destruct (timestamps a) as [|t l] eqn:E;
    [discriminate|].
  destruct (length (docs a) =? length (t :: l)) eqn:Hlen; [discriminate|].
  intros H. injection H as <-. apply Nat.eqb_neq in Hlen.
  split; [reflexivity|]. split; [discriminate | exact Hlen].
Qed.

Lemma check_timestamps_returns (a : args) :
  timestamps a = [] \/ length (docs a) = length (timestamps a) ->
  exists tms, check_timestamps a = inr tms.
Proof.
  unfold check_timestamps. intros [-> | Hlen]; [eauto|].
  destruct (timestamps a) as [|t l]; [eauto|].
  apply Nat.eqb_eq in Hlen. rewrite Hlen. eauto.
Qed.

Lemma insert_sorted_elem (x w : pystr) (l : list pystr) :
  w ∈ insert_sorted x l <-> w = x \/ w ∈ l.
Proof.
  induction l as [|y l IH]; simpl.
  - rewrite list_elem_of_singleton, elem_of_nil. tauto.
  - destruct (str_leb x y).
    + rewrite elem_of_cons. tauto.
    + rewrite !elem_of_cons, IH. tauto.
Qed.

Lemma sorted_elem (w : pystr) (l : list pystr) : w ∈ sorted l <-> w ∈ l.
Proof.
  induction l as [|x l IH]; simpl; [reflexivity|].
  rewrite insert_sorted_elem, elem_of_cons, IH. reflexivity.
Qed.

Lemma time2id_has (tms : list pystr) (t : pystr) :
  In t tms ->
  exists y, py_getitem (make_word2id (sorted (list_set tms))) t = inr y.
Proof.
  intros Hin.
  assert (known (make_word2id (sorted (list_set tms))) t = true) as Hk.
  { apply known_iff, sorted_elem, list_set_elem.
    now apply list_elem_of_In. }
  unfold known in Hk. apply bool_decide_eq_true in Hk as (y & Hy).
  exists y. unfold py_getitem. now rewrite Hy.
Qed.

Lemma permuted_raises {A} (x : list A) (idx : list nat) (i : Z) (e : exn) :
  permuted x idx i = inl e -> e = IndexError.
Proof.
  unfold permuted. destruct (py_index idx i) as [e1 | j] eqn:E.
  - intros H. injection H as <-. eapply py_index_error; eauto.
  - apply py_index_error.
Qed.

Lemma gather_raises {A B} (x : list A) (idx : list nat) (f : A -> exn + B)
    (offset size : Z) (e : exn) :
  (forall t, In t x -> exists y, f t = inr y) ->
  gather x idx f offset size = inl e -> e = IndexError.
Proof.
  intros Hf H. unfold gather in H.
  apply mapE_raises in H as (i & _ & H).
  destruct (permuted x idx (i + offset)) as [e1 | t] eqn:E; simpl in H.
  - injection H as <-. eapply permuted_raises; eauto.
  - apply permuted_inr in E as (j & _ & Ht).
    destruct (Hf t) as (y & Hy); [|congruence].
    apply list_elem_of_In. eapply list_elem_of_lookup_2; eauto.
Qed.

Lemma indices_raise {B} (f : Z -> exn + B) (l : list Z) (e : exn) :
  (forall i e', f i = inl e' -> e' = IndexError) ->
  mapE f l = inl e -> e = IndexError.
Proof.
  intros Hf H. apply mapE_raises in H as (i & _ & H). eauto.
Qed.

Ltac raise_step :=
  match goal with
  | |- and_then ?r _ = inl _ -> _ =>
      let E := fresh "E" in
      destruct r eqn:E; cbn [and_then];
      [ let H := fresh "H" in intros H; injection H as <- | ]
  end.

Lemma tokenize_raises (a : args) (x : extern) (tms cv : list pystr)
    (e : exn) :
  tokenize a x tms cv = inl e -> split_sizes a x = inl e \/ e = IndexError.
Proof.
  unfold tokenize. cbv zeta.
  raise_step; [left; reflexivity|].
  do 4 (raise_step; [right; eapply gather_raises; [|eauto]; eauto|]).
  do 3 (raise_step;
        [right; eapply gather_raises; [|eauto]; apply time2id_has|]).
  do 3 (raise_step;
        [right; eapply indices_raise; [|eauto]; intros i e';
         apply py_index_error|]).
  discriminate.
Qed.

Lemma clean_raises (tr ts va : part) (e : exn) :
  clean tr ts va = inl e -> e = IndexError.
Proof.
  unfold clean, remove_empty, remove_by_threshold.
  destruct remove_empty_loop as (En & Ec).
  destruct (remove_by_threshold_loop 1) as (Tn & Tc).
  do 3 (raise_step; [eapply (keep_raises _ _ En Ec); eauto|]).
  raise_step; [|discriminate].
  eapply (keep_raises _ (fun ii l t i =>
                           remove_by_threshold_from ii l t i 1) Tn Tc).
  eauto.
Qed.

Lemma cleaned_ids (V : list pystr) (tr ts va tr' ts' va' : part) :
  clean tr ts va = inr (tr', ts', va') ->
  Forall (Forall (fun w => w < length V)) tr.1.1 ->
  Forall (Forall (fun w => w < length V)) ts.1.1 ->
  Forall (Forall (fun w => w < length V)) va.1.1 ->
  Forall (Forall (fun w => w < length V)) tr'.1.1
  /\ Forall (Forall (fun w => w < length V)) ts'.1.1
  /\ Forall (Forall (fun w => w < length V)) va'.1.1.
Proof.
  intros Hclean Otr Ots Ova.
  apply clean_docs in Hclean as (-> & -> & ->).
  repeat split; repeat apply filter_Forall_keep; assumption.
Qed.

(** Once [tokenize] and [clean] have returned nothing but a write can
    raise any more. *)
Lemma save_after_clean (a : args) (x : extern) (tms cv : list pystr)
    (c : list pystr * part * part * part) (k : part * part * part)
    (d : disk) :
  tokenize a x tms cv = inr c ->
  clean c.1.1.2 c.1.2 c.2 = inr k ->
  (exists r d',
     save x (path_save a) c.1.1.1 k.1.1 k.1.2 k.2 d = (inr r, d')
     /\ ops d'
        = ops d ++ map (fun f => OpWrite (path_save a ++ f)) file_names
     /\ forall f, In f file_names ->
                  write_error x (path_save a ++ f) = None)
  \/ (exists e d' f l,
        save x (path_save a) c.1.1.1 k.1.1 k.1.2 k.2 d = (inl e, d')
        /\ In f file_names
        /\ write_error x (path_save a ++ f) = Some (e, l)).
Proof.
  destruct c as [[[V tr] ts] va]. destruct k as [[tr' ts'] va'].
  simpl. intros Htok Hclean.
  apply tokenize_ids in Htok as (Otr & Ots & Ova).
  destruct (cleaned_ids V _ _ _ _ _ _ Hclean Otr Ots Ova)
    as (Otr' & Ots' & Ova').
  now apply save_outcome.
Qed.



Lemma gather_returns {A B} (x : list A) (idx : list nat) (f : A -> exn + B)
    (offset size : Z) :
  (0 <= offset)%Z -> Z.to_nat offset + Z.to_nat size <= length idx ->
  Forall (fun j => j < length x) idx ->
  (forall t, In t x -> exists y, f t = inr y) ->
  exists ys, gather x idx f offset size = inr ys.
Proof.
  intros Hoff Hfit Hidx Hf. unfold gather. apply mapE_returns.
  intros i Hi. unfold py_range in Hi.
  apply in_map_iff in Hi as (k & <- & Hk). apply in_seq in Hk.
  replace (Z.of_nat k + offset)%Z
    with (Z.of_nat (k + Z.to_nat offset)) by lia.
  unfold permuted.
  destruct (py_index_in_range idx (k + Z.to_nat offset))
    as (j & -> & Hj); [lia|].
  rewrite List.Forall_forall in Hidx.
  assert (j < length x) as Hlt.
  { apply Hidx. apply list_elem_of_In. eapply list_elem_of_lookup_2; eauto. }
  destruct (py_index_in_range x j Hlt) as (t & -> & Ht).
  cbn [and_then]. apply Hf.
  apply list_elem_of_In. eapply list_elem_of_lookup_2; eauto.
Qed.

Lemma indices_return (idx : list nat) (pos : Z -> Z) (offset size : Z) :
  (forall i, pos i = (i + offset)%Z) -> (0 <= offset)%Z ->
  Z.to_nat offset + Z.to_nat size <= length idx ->
  exists ix, mapE (fun i => py_index idx (pos i)) (py_range size) = inr ix.
Proof.
  intros Hpos Hoff Hfit. apply mapE_returns.
  intros i Hi. unfold py_range in Hi.
  apply in_map_iff in Hi as (k & <- & Hk). apply in_seq in Hk.
  rewrite Hpos.
  replace (Z.of_nat k + offset)%Z
    with (Z.of_nat (k + Z.to_nat offset)) by lia.
  destruct (py_index_in_range idx (k + Z.to_nat offset))
    as (j & -> & Hj); [lia|].
  eauto.
Qed.

Ltac return_step tac :=
  match goal with
  | |- exists c, and_then ?r _ = inr c =>
      let y := fresh "y" in
      let Hy := fresh "Hy" in
      assert (exists y, r = inr y) as (y & Hy);
      [ tac | rewrite (and_then_of_inr _ _ _ Hy); cbv beta ]
  end.

Lemma tokenize_returns (a : args) (x : extern) (tms cv : list pystr)
    (trSize tsSize vaSize : Z) :
  split_sizes a x = inr (trSize, tsSize, vaSize) ->
  (0 <= trSize)%Z -> (0 <= tsSize)%Z -> (0 <= vaSize)%Z ->
  length (idx_permute x) = length (docs a) ->
  Forall (fun j => j < length (docs a)) (idx_permute x) ->
  length tms = length (docs a) ->
  exists c, tokenize a x tms cv = inr c.
Proof.
  intros Hsz N0 N1 N2 Hlen Hidx Htms.
  destruct (split_sizes_inr a x _ _ _ Hsz)
    as (_ & _ & _ & _ & _ & _ & _ & _ & _ & _ & Hva).
  assert (Forall (fun j => j < length tms) (idx_permute x)) as Hidx'
    by now rewrite Htms.
  unfold tokenize. cbv zeta.
  rewrite (and_then_of_inr _ _ _ Hsz). cbv beta. cbn [fst snd].
  do 4 (return_step
          ltac:(apply gather_returns; [lia | lia | exact Hidx | eauto])).
  do 3 (return_step
          ltac:(apply gather_returns;
                [lia | lia | exact Hidx' | apply time2id_has])).
  return_step
    ltac:(apply (indices_return _ (fun i => i) 0);
          [intros; lia | lia | lia]).
  return_step
    ltac:(apply (indices_return _ _ _ _ (fun i => eq_refl)); lia).
  match goal with
  | |- exists c, and_then (mapE (fun i => py_index ?idx (i + ?p + ?q)%Z)
                                (py_range ?sz)) _ = inr c =>
      destruct (indices_return idx (fun i => (i + p + q)%Z) (p + q)%Z sz)
        as (y8 & Hy8); [intros; lia | lia | lia |];
      rewrite (and_then_of_inr _ _ _ Hy8); cbv beta
  end.
  eauto.
Qed.

(** [clean] cannot raise on what [tokenize] returns. *)
Lemma clean_returns (a : args) (x : extern) (tms cv : list pystr)
    (c : list pystr * part * part * part) :
  tokenize a x tms cv = inr c ->
  exists k, clean c.1.1.2 c.1.2 c.2 = inr k.
Proof.
  destruct c as [[[V tr] ts] va]. simpl. intros Htok.
  apply tokenize_provenance in Htok
    as ((L1 & L2 & _) & (L3 & L4 & _) & (L5 & L6 & _)).
  destruct remove_empty_loop as (En & Ec).
  destruct (remove_by_threshold_loop 1) as (Tn & Tc).
  unfold clean, remove_empty, remove_by_threshold.
  return_step ltac:(apply (keep_returns _ _ En Ec 0); simpl; lia).
  return_step ltac:(apply (keep_returns _ _ En Ec 0); simpl; lia).
  return_step ltac:(apply (keep_returns _ _ En Ec 0); simpl; lia).
  destruct (keep_aligned _ _ En Ec (fun _ _ _ => True) 0 _ _ _ _
              (fun _ _ _ _ _ _ _ => I) Hy0) as (L7 & L8 & _).
  return_step
    ltac:(apply (keep_returns _ (fun ii l t i =>
                                   remove_by_threshold_from ii l t i 1)
                   Tn Tc 0); simpl; lia).
  eauto.
Qed.

(** X23. A call returns, after creating the folder and writing the
    eighteen files in a fixed order, whenever the folder is new,
    [os.makedirs], [CountVectorizer] and the writes of the eighteen
    files do not raise, the timestamps are absent or as many as the
    documents, the three sizes the call computes from [data_split] are
    not negative, and the permutation has one entry per document, each
    the number of a document. *)
Theorem well_formed_call_returns (a : args) (x : extern) (d : disk)
    (cv : list pystr) (trSize tsSize vaSize : Z)
    (Hnew : path_save a ∉ fs d)
    (Hmk : makedirs_error x = None)
    (Htimes : timestamps a = [] \/ length (docs a) = length (timestamps a))
    (Hcv : cv_words x = inr cv)
    (Hsz : split_sizes a x = inr (trSize, tsSize, vaSize))
    (H0 : (0 <= trSize)%Z) (H1 : (0 <= tsSize)%Z) (H2 : (0 <= vaSize)%Z)
    (Hlen : length (idx_permute x) = length (docs a))
    (Hidx : Forall (fun j => j < length (docs a)) (idx_permute x))
    (Hw : forall f, In f file_names ->
                    write_error x (path_save a ++ f) = None) :
  exists r,
    (preprocessing a x d).1 = inr r
    /\ ops (preprocessing a x d).2
       = ops d ++ OpMakeDirs (path_save a)
                  :: map (fun f => OpWrite (path_save a ++ f)) file_names.
Proof.
  destruct (check_timestamps_returns a Htimes) as (tms & Ect).
  pose proof (check_timestamps_inr a tms Ect) as Htms.
  destruct (tokenize_returns a x tms cv _ _ _ Hsz H0 H1 H2 Hlen Hidx Htms)
    as (c & Etok).
  destruct (clean_returns a x tms cv c Etok) as (k & Eclean).
  destruct (save_after_clean a x tms cv c k
              {| fs := {[ path_save a ]} ∪ (makedirs_also x ∪ fs d);
                 ops := ops d ++ [OpMakeDirs (path_save a)] |}
              Etok Eclean)
    as [(r & d' & Hs & Hops & _) | (e & d' & f & l & _ & Hf & Hfail)];
    [| rewrite (Hw f Hf) in Hfail; discriminate].
  exists r. unfold preprocessing. rewrite bind_get. cbv beta.
  destruct (decide (path_save a ∈ fs d)) as [Hin | _]; [contradiction|].
  rewrite (bind_makedirs_ok _ _ _ _ Hmk). cbv beta.
  lf Ect. lf Hcv. lf Etok. lf Eclean.
  rewrite Hs. split; [reflexivity|].
  cbn [snd]. rewrite Hops. cbn [ops].
  rewrite <- app_assoc. reflexivity.
Qed.

Lemma well_formed_call_returns_witness :
  exists r, example_run.1 = inr r /\ length (ops example_run.2) = 19.
Proof.
  destruct (well_formed_call_returns (example_args well_formed_split)
              example_extern (start ∅)
              (map lit ["aa"; "bb"; "cc"; "dd"; "ee"; "ff"; "gg"]%string)
              4 3 1)
    as (r & Hr & Hops).
  - simpl. apply not_elem_of_empty.
  - reflexivity.
  - left. reflexivity.
  - reflexivity.
  - vm_compute. reflexivity.
  - lia.
  - lia.
  - lia.
  - reflexivity.
  - simpl. repeat (constructor; [lia|]). constructor.
  - intros f _. reflexivity.
  - exists r. split; [exact Hr|].
    unfold example_run. rewrite Hops. reflexivity.
Defined.

(** *** What a call does to the disk *)

Lemma preserves_write_paths (ok : string -> Prop) (x : extern)
    (p : string) :
  ok p -> preserves (fun d => forall q, q ∈ fs d -> ok q) (write x p).
Proof.
  intros Hp d Hd q Hq. unfold write in Hq.
  destruct (write_error x p) as [[e [|]]|]; cbn [snd fs] in Hq; auto;
    (apply elem_of_union in Hq as [Hq | Hq]; [|auto]);
    apply elem_of_singleton in Hq; now subst q.
Qed.

Lemma preserves_makedirs_paths (ok : string -> Prop) (x : extern)
    (p : string) :
  ok p -> (forall q, q ∈ makedirs_also x -> ok q) ->
  preserves (fun d => forall q, q ∈ fs d -> ok q) (makedirs x p).
Proof.
  intros Hp Halso d Hd q Hq. unfold makedirs in Hq.
  destruct (makedirs_error x); cbn [snd fs] in Hq.
  - apply elem_of_union in Hq as [Hq | Hq]; auto.
  - apply elem_of_union in Hq as [Hq | Hq].
    + apply elem_of_singleton in Hq. now subst q.
    + apply elem_of_union in Hq as [Hq | Hq]; auto.
Qed.

Lemma preserves_write_kept (q : string) (x : extern) (p : string) :
  preserves (fun d => q ∈ fs d) (write x p).
Proof.
  intros d Hd. unfold write.
  destruct (write_error x p) as [[e [|]]|]; cbn [snd fs]; auto;
    apply elem_of_union; now right.
Qed.

Lemma preserves_makedirs_kept (q : string) (x : extern) (p : string) :
  preserves (fun d => q ∈ fs d) (makedirs x p).
Proof.
  intros d Hd. unfold makedirs.
  destruct (makedirs_error x); cbn [snd fs].
  - apply elem_of_union. now right.
  - apply elem_of_union. right. apply elem_of_union. now right.
Qed.

Lemma preprocessing_keeps (a : args) (x : extern) (q : string) :
  preserves (fun d => q ∈ fs d) (preprocessing a x).
Proof.
  unfold preprocessing, save.
  repeat first
    [ apply preserves_write_kept | apply preserves_makedirs_kept
    | apply preserves_lift | apply preserves_ret | apply preserves_get
    | apply preserves_raise
    | apply preserves_bind; [| intros ?]
    | match goal with
      | |- preserves _ (if ?c then _ else _) => destruct c
      end ].
Qed.

Lemma preprocessing_stays_inside (a : args) (x : extern) (d : disk) :
  preserves (fun d' => forall q, q ∈ fs d' -> inside a x d q)
    (preprocessing a x).
Proof.
  unfold preprocessing, save.
  repeat first
    [ apply preserves_write_paths;
      right; right; right; eexists; split; [|reflexivity];
      unfold file_names; repeat (first [left; reflexivity | right])
    | apply preserves_makedirs_paths;
      [ right; right; left; reflexivity
      | intros q' Hq'; right; left; exact Hq' ]
    | apply preserves_lift | apply preserves_ret | apply preserves_get
    | apply preserves_raise
    | apply preserves_bind; [| intros ?]
    | match goal with
      | |- preserves _ (if ?c then _ else _) => destruct c
      end ].
Qed.

Lemma folder_exists_after (a : args) (x : extern) (d : disk) :
  path_save a ∈ fs d \/ makedirs_error x = None ->
  path_save a ∈ fs (preprocessing a x d).2.
Proof.
  intros Hcase.
  destruct (decide (path_save a ∈ fs d)) as [Hin | Hout].
  - now apply preprocessing_keeps.
  - destruct Hcase as [Hin | Hmk]; [contradiction|].
    unfold preprocessing.
    rewrite (snd_bind_inr get _ d d d eq_refl).
    destruct (decide (path_save a ∈ fs d)); [contradiction|].
    rewrite (snd_bind_inr (makedirs x (path_save a)) _ d
               {| fs := {[ path_save a ]} ∪ (makedirs_also x ∪ fs d);
                  ops := ops d ++ [OpMakeDirs (path_save a)] |} tt)
      by (unfold makedirs; now rewrite Hmk).
    match goal with
    | |- ?q ∈ fs (snd (?m ?s)) =>
        assert (preserves (fun d => q ∈ fs d) m) as Hp
    end.
    { unfold save.
      repeat first
        [ apply preserves_write_kept | apply preserves_lift
        | apply preserves_ret | apply preserves_bind; [| intros ?] ]. }
    apply Hp. cbn [fs]. apply elem_of_union. left.
    now apply elem_of_singleton.
Qed.

(** X24. Whatever the arguments and whether it returns or raises, a
    call deletes no path, and the paths it adds are its folder, the
    directories [os.makedirs] had to create above it and the eighteen
    files inside it. When the folder was there, or [os.makedirs] did
    not raise, the folder is on the disk afterwards: so a second call
    with the same [data_path] raises [ValueError] and changes
    nothing. *)
Theorem folder_blocks_second_call (a : args) (x : extern) (d : disk) :
  let after := (preprocessing a x d).2 in
  (forall q, q ∈ fs d -> q ∈ fs after)
  /\ (forall q, q ∈ fs after -> inside a x d q)
  /\ (path_save a ∈ fs d \/ makedirs_error x = None ->
      path_save a ∈ fs after
      /\ forall a' x',
           data_path a' = data_path a ->
           preprocessing a' x' after = (inl ValueError, after)).
Proof.
  intros after. subst after. split; [|split].
  - intros q Hq. now apply preprocessing_keeps.
  - apply preprocessing_stays_inside. intros q Hq. now left.
  - intros Hcase.
    pose proof (folder_exists_after a x d Hcase) as Hfolder.
    split; [exact Hfolder|].
    intros a' x' Hpath.
    assert (path_save a' = path_save a) as Heq
      by (unfold path_save; now rewrite Hpath).
    unfold preprocessing at 1. unfold bind, get. rewrite Heq.
    destruct (decide (path_save a ∈ fs (preprocessing a x d).2));
      [reflexivity | contradiction].
Qed.

(** *** The saved timestamps *)

Lemma insert_sorted_NoDup (x : pystr) (l : list pystr) :
  x ∉ l -> NoDup l -> NoDup (insert_sorted x l).
Proof.
  induction l as [|y l IH]; simpl; intros Hx Hnd.
  - apply NoDup_singleton.
  - destruct (str_leb x y); [now apply NoDup_cons|].
    apply NoDup_cons in Hnd as (Hy & Hnd).
    apply not_elem_of_cons in Hx as (Hxy & Hx).
    apply NoDup_cons. split; [|auto].
    rewrite insert_sorted_elem. intros [-> | Hin]; [congruence | auto].
Qed.

Lemma sorted_NoDup (l : list pystr) : NoDup l -> NoDup (sorted l).
Proof.
  induction l as [|x l IH]; simpl; intros Hnd; [constructor|].
  apply NoDup_cons in Hnd as (Hx & Hnd).
  apply insert_sorted_NoDup; [|auto]. now rewrite sorted_elem.
Qed.

Lemma all_times_NoDup (tms : list pystr) : NoDup (sorted (list_set tms)).
Proof. apply sorted_NoDup, list_set_NoDup. Qed.

Lemma times_aligned (tms : list pystr) (idx : list nat) (pos : Z -> Z)
    (offset size : Z) (ds : list (list nat)) (tm ix : list nat) :
  (forall i, pos i = (i + offset)%Z) ->
  length tm = length ds -> length ix = length ds ->
  gather tms idx (py_getitem (make_word2id (sorted (list_set tms))))
    offset size = inr tm ->
  mapE (fun i => py_index idx (pos i)) (py_range size) = inr ix ->
  aligned (fun doc t i => time_of tms t i) (ds, tm, ix).
Proof.
  intros Hpos L1 L2 Ht Hi.
  destruct (gather_at _ _ _ _ _ _ _ _ Hpos Ht Hi) as (_ & Hat).
  split; [exact L1|]. split; [exact L2|].
  simpl. intros k doc t i _ Htk Hik.
  destruct (Hat k i Hik) as (time & t' & Htk' & Htime & Hget).
  rewrite Htk in Htk'. injection Htk' as <-.
  exists time. split; [exact Htime|].
  unfold py_getitem in Hget.
  destruct (make_word2id (sorted (list_set tms)) !! time) as [j|] eqn:Hj;
    [|discriminate].
  injection Hget as ->.
  now apply (word2id_lookup _ _ _ (all_times_NoDup tms)).
Qed.

Lemma tokenize_times (a : args) (x : extern) (tms cv : list pystr)
    (V : list pystr) (tr ts va : part) :
  tokenize a x tms cv = inr (V, tr, ts, va) ->
  aligned (fun doc t i => time_of tms t i) tr
  /\ aligned (fun doc t i => time_of tms t i) ts
  /\ aligned (fun doc t i => time_of tms t i) va.
Proof.
  intros H.
  destruct (tokenize_provenance _ _ _ _ _ _ _ _ H)
    as ((L1 & L2 & _) & (L3 & L4 & _) & (L5 & L6 & _)).
  unfold tokenize in H. invert_sum H.
  injection H as <- <- <- <-. simpl in *.
  split; [|split].
  - eapply (times_aligned tms _ (fun i => i)); eauto. intros i. lia.
  - eapply (times_aligned tms _ (fun i => (i + _)%Z)); eauto.
  - eapply (times_aligned tms _ (fun i => (i + _ + _)%Z)); eauto.
    intros i. simpl. lia.
Qed.

(** X25. In a run that returns, the timestamp saved next to an index
    is the position, in the sorted list of the distinct timestamps, of
    the timestamp of the input document with that index; that list has
    no repetition and holds exactly the timestamps given. When no
    timestamps are given every saved timestamp is 0. *)
Theorem saved_timestamps_provenance (a : args) (x : extern) (d : disk)
    (r : result) (Hrun : (preprocessing a x d).1 = inr r) :
  exists tms,
    check_timestamps a = inr tms
    /\ NoDup (sorted (list_set tms))
    /\ (forall t, t ∈ sorted (list_set tms) <-> t ∈ tms)
    /\ aligned (fun doc t i => time_of tms t i)
         (docs_tr r, timestamps_tr r, indices_tr r)
    /\ aligned (fun doc t i => time_of tms t i)
         (docs_ts r, timestamps_ts r, indices_ts r)
    /\ aligned (fun doc t i => time_of tms t i)
         (docs_va r, timestamps_va r, indices_va r)
    /\ (timestamps a = [] ->
        Forall (fun t => t = 0)
          (timestamps_tr r ++ timestamps_ts r ++ timestamps_va r)).
Proof.
  apply preprocessing_stages in Hrun
    as (_ & tms & cv & c & k & d1 & d2 & Hct & _ & Htok & Hclean & Hsave).
  destruct c as [[[V tr] ts] va]. destruct k as [[tr' ts'] va'].
  simpl in *.
  apply tokenize_times in Htok as (Atr & Ats & Ava).
  destruct (clean_provenance _ _ _ _ _ _ _ Hclean Atr Ats Ava)
    as (Atr' & Ats' & Ava').
  apply save_fields in Hsave as (<- & <- & <- & _).
  exists tms. split; [exact Hct|]. split; [apply all_times_NoDup|].
  split; [intros t; now rewrite sorted_elem, list_set_elem|].
  do 3 (split; [assumption|]).
  intros Hnone. unfold check_timestamps in Hct. rewrite Hnone in Hct.
  injection Hct as <-.
  assert (forall ds tm ix,
            aligned (fun (doc : list nat) t i =>
                       time_of (repeat (lit "no_timestamps")
                                  (length (docs a))) t i) (ds, tm, ix) ->
            Forall (fun t => t = 0) tm) as Hzero.
  { intros ds tm ix (L1 & L2 & Hal). simpl in *.
    apply List.Forall_forall. intros t Ht.
    apply (proj2 (list_elem_of_In _ _)) in Ht.
    apply list_elem_of_lookup_1 in Ht as (k & Hk).
    pose proof (lookup_lt_Some _ _ _ Hk) as Hlt.
    destruct (lookup_lt_is_Some_2 ds k) as (doc & Hd); [lia|].
    destruct (lookup_lt_is_Some_2 ix k) as (i & Hi); [lia|].
    destruct (Hal k doc t i Hd Hk Hi) as (time & Htime & Hpos).
    pose proof (lookup_lt_Some _ _ _ Hpos) as Hlen.
    destruct (lookup_lt_is_Some_2
                (sorted (list_set (repeat (lit "no_timestamps")
                                     (length (docs a))))) 0)
      as (time0 & Hpos0); [lia|].
    assert (forall w n,
              sorted (list_set (repeat (lit "no_timestamps")
                                  (length (docs a)))) !! n = Some w ->
              w = lit "no_timestamps") as Hall.
    { intros w n Hw. apply list_elem_of_lookup_2 in Hw.
      apply (proj1 (sorted_elem _ _)) in Hw.
      apply (proj1 (list_set_elem _ _)) in Hw.
      apply (proj1 (list_elem_of_In _ _)) in Hw.
      now apply repeat_spec in Hw. }
    rewrite (Hall _ _ Hpos) in Hpos. rewrite (Hall _ _ Hpos0) in Hpos0.
    exact (NoDup_lookup _ _ _ _ (all_times_NoDup _) Hpos Hpos0). }
  rewrite !Forall_app.
  split; [|split]; eapply Hzero; eassumption.
Qed.

Lemma saved_timestamps_provenance_witness :
  exists tms,
    check_timestamps (example_args well_formed_split) = inr tms
    /\ NoDup (sorted (list_set tms)).
Proof.
  edestruct (saved_timestamps_provenance (example_args well_formed_split)
               example_extern (start ∅)) as (tms & H1 & H2 & _);
    [vm_compute; reflexivity|].
  exists tms. split; assumption.
Defined.

End CorpusMore.
